(** * Bases Gantt: the record-to-task translation layer

    A shallow embedding of the TypeScript sources of the plugin
    (date-utils, task-mapper, gantt-view) and the properties of its
    natural-language specification.

    Conventions of the embedding.
    - A JS string is a [string]: a sequence of 8-bit code units.
    - A valid [Date] object is its time value, a [Z] number of
      milliseconds since the epoch; what [parseObsidianDate] returns, a
      valid [Date] or [null], is an [option Z].  A [Date] that may be
      invalid is a [DateObject]: [setDate] clips its result to the range
      of time values and gives an Invalid Date outside it.
    - The viewer's time zone is one with a constant offset [tz] from UTC,
      in milliseconds (local time = UTC time + tz).  Every statement
      about local time is a statement about such zones; zones whose
      offset changes are outside this development.
    - What the host does with a date string outside the ECMAScript
      date-time format is a parameter [host : string -> option Z].
    - A JS number that comes out of [parseFloat] is an exact rational. *)

From Stdlib Require Import ZArith QArith Qround Lia Bool Ascii String List Sorted.
From stdpp Require Import gmap strings list pretty.

Local Open Scope Z_scope.

(** ** JavaScript string primitives used by the sources *)

Module JSString.

(** [WhiteSpace] and [LineTerminator] code units below 256. *)
Definition isWhiteSpace (c : ascii) : bool :=
  match c with
  | "009" | "010" | "011" | "012" | "013" | " " | "160" => true
  | _ => false
  end%char.

Fixpoint trimStart (s : string) : string :=
  match s with
  | String c r => if isWhiteSpace c then trimStart r else s
  | EmptyString => EmptyString
  end.

Definition trimEnd (s : string) : string :=
  String.rev (trimStart (String.rev s)).

(** [s.trim()] *)
Definition trim (s : string) : string := trimEnd (trimStart s).

(** [Boolean(s)] for a string: the empty string is falsy. *)
Definition truthy (s : string) : bool :=
  match s with EmptyString => false | _ => true end.

Fixpoint startsWith (p s : string) : bool :=
  match p, s with
  | EmptyString, _ => true
  | String a p', String b s' => if Ascii.eqb a b then startsWith p' s' else false
  | String _ _, EmptyString => false
  end.

(** [s.includes(p)] *)
Fixpoint includes (p s : string) : bool :=
  startsWith p s ||
  match s with
  | String _ r => includes p r
  | EmptyString => false
  end.

(** [s.split(c)] for a one-character separator: never empty. *)
Fixpoint splitOn (c : ascii) (s : string) : list string :=
  match s with
  | EmptyString => [EmptyString]
  | String a r =>
      if Ascii.eqb a c then EmptyString :: splitOn c r
      else match splitOn c r with
           | x :: xs => String a x :: xs
           | [] => [String a EmptyString]
           end
  end.

(** [xs.join(sep)] *)
Fixpoint join (sep : string) (xs : list string) : string :=
  match xs with
  | [] => EmptyString
  | [x] => x
  | x :: rest => x +:+ sep +:+ join sep rest
  end.

Fixpoint mapChars (f : ascii -> ascii) (s : string) : string :=
  match s with
  | EmptyString => EmptyString
  | String a r => String (f a) (mapChars f r)
  end.

Fixpoint filterChars (f : ascii -> bool) (s : string) : string :=
  match s with
  | EmptyString => EmptyString
  | String a r => if f a then String a (filterChars f r) else filterChars f r
  end.

(** [s.indexOf(c)]: the suffix after the first [c], when there is one. *)
Fixpoint afterFirst (c : ascii) (s : string) : option string :=
  match s with
  | EmptyString => None
  | String a r => if Ascii.eqb a c then Some r else afterFirst c r
  end.

(** [s.toLowerCase()] on code units below 256. *)
Definition lowerChar (c : ascii) : ascii :=
  let n := nat_of_ascii c in
  if ((65 <=? n)%nat && (n <=? 90)%nat)
     || ((192 <=? n)%nat && (n <=? 222)%nat && negb (n =? 215)%nat)
  then ascii_of_nat (n + 32) else c.

Definition toLowerCase (s : string) : string := mapChars lowerChar s.

Definition isChar (c x : ascii) : bool := Ascii.eqb x c.

(** What follows [s] after the two characters [a], [b], when [s] starts
    with them. *)
Definition stripPrefix2 (a b : ascii) (s : string) : option string :=
  match s with
  | String x (String y r) => if isChar a x && isChar b y then Some r else None
  | _ => None
  end.

Definition isDigit (c : ascii) : bool :=
  let n := nat_of_ascii c in (48 <=? n)%nat && (n <=? 57)%nat.

Definition digitVal (c : ascii) : Z := Z.of_nat (nat_of_ascii c) - 48.

(** [s.padStart(2, '0')] *)
Definition padStart2 (s : string) : string :=
  match s with
  | EmptyString => "00"
  | String a EmptyString => String "0" s
  | _ => s
  end.

(** [a.localeCompare(b) <= 0], taken as the order of code units (the
    two agree on strings made of digits and hyphens). *)
Definition localeLe (a b : string) : bool := String.leb a b.

End JSString.

(** ** The date arithmetic of ECMA-262 (section "Date objects") *)

Module JSDate.

Definition msPerDay : Z := 86400000.

Definition Day (t : Z) : Z := t / msPerDay.
Definition TimeWithinDay (t : Z) : Z := t mod msPerDay.

Definition isLeapYear (y : Z) : bool :=
  ((y mod 4 =? 0) && negb (y mod 100 =? 0)) || (y mod 400 =? 0).

Definition DaysInYear (y : Z) : Z := if isLeapYear y then 366 else 365.

Definition DayFromYear (y : Z) : Z :=
  365 * (y - 1970) + (y - 1969) / 4 - (y - 1901) / 100 + (y - 1601) / 400.

(** The largest year whose first day is not after day [d]: an estimate
    from the mean length of a year, corrected by at most one. *)
Definition YearFromDay (d : Z) : Z :=
  let y0 := 1970 + (400 * d) / 146097 in
  if DayFromYear (y0 + 1) <=? d then y0 + 1
  else if DayFromYear y0 <=? d then y0 else y0 - 1.

Definition YearFromTime (t : Z) : Z := YearFromDay (Day t).
Definition InLeapYear (t : Z) : Z := if isLeapYear (YearFromTime t) then 1 else 0.
Definition DayWithinYear (t : Z) : Z := Day t - DayFromYear (YearFromTime t).

(** Day number within the year of the first day of month [m] (0-based). *)
Definition monthStart (leap : Z) (m : Z) : Z :=
  match m with
  | 0 => 0 | 1 => 31 | 2 => 59 + leap | 3 => 90 + leap | 4 => 120 + leap
  | 5 => 151 + leap | 6 => 181 + leap | 7 => 212 + leap | 8 => 243 + leap
  | 9 => 273 + leap | 10 => 304 + leap | 11 => 334 + leap | _ => 365 + leap
  end.

Definition monthOfDayInYear (leap d : Z) : Z :=
  if d <? 31 then 0 else if d <? 59 + leap then 1
  else if d <? 90 + leap then 2 else if d <? 120 + leap then 3
  else if d <? 151 + leap then 4 else if d <? 181 + leap then 5
  else if d <? 212 + leap then 6 else if d <? 243 + leap then 7
  else if d <? 273 + leap then 8 else if d <? 304 + leap then 9
  else if d <? 334 + leap then 10 else 11.

Definition MonthFromTime (t : Z) : Z :=
  monthOfDayInYear (InLeapYear t) (DayWithinYear t).

Definition DateFromTime (t : Z) : Z :=
  DayWithinYear t - monthStart (InLeapYear t) (MonthFromTime t) + 1.

Definition DaysInMonth (y m : Z) : Z :=
  let leap := if isLeapYear y then 1 else 0 in
  monthStart leap (m + 1) - monthStart leap m.

Definition MakeTime (h mi s ms : Z) : Z :=
  h * 3600000 + mi * 60000 + s * 1000 + ms.

Definition MakeDay (year month date : Z) : Z :=
  let ym := year + month / 12 in
  let mn := month mod 12 in
  DayFromYear ym + monthStart (if isLeapYear ym then 1 else 0) mn + date - 1.

Definition MakeDate (day time : Z) : Z := day * msPerDay + time.

(** A [Date] object: its time value, or [NaN] for an Invalid Date. *)
Inductive DateObject := TimeValue (t : Z) | InvalidDate.

(** The largest time value, 100,000,000 days from the epoch. *)
Definition maxTimeValue : Z := 8640000000000000.

(** [TimeClip]: no time value beyond the range. *)
Definition TimeClip (t : Z) : DateObject :=
  if Z.abs t <=? maxTimeValue then TimeValue t else InvalidDate.

(** [a < b] on two [Date] objects: false when one of them is invalid. *)
Definition dateLt (a b : DateObject) : bool :=
  match a, b with
  | TimeValue x, TimeValue y => x <? y
  | _, _ => false
  end.

(** [a.getTime() === b.getTime()]: [NaN] is equal to nothing. *)
Definition sameTime (a b : DateObject) : bool :=
  match a, b with
  | TimeValue x, TimeValue y => x =? y
  | _, _ => false
  end.

Section Zone.
(** Offset of the viewer's local time from UTC, in milliseconds: the
    zone is one whose offset does not change. *)
Variable tz : Z.

Definition LocalTime (t : Z) : Z := t + tz.
Definition UTC (t : Z) : Z := t - tz.

Definition getFullYear (d : Z) : Z := YearFromTime (LocalTime d).
Definition getMonth (d : Z) : Z := MonthFromTime (LocalTime d).
Definition getDate (d : Z) : Z := DateFromTime (LocalTime d).

(** [d.setDate(dt)] on a valid [Date]: what [d] is afterwards. *)
Definition setDate (d : Z) (dt : Z) : DateObject :=
  let t := LocalTime d in
  TimeClip (UTC (MakeDate (MakeDay (YearFromTime t) (MonthFromTime t) dt)
                          (TimeWithinDay t))).

(** The local calendar day (days since the epoch) of an instant. *)
Definition localDay (d : Z) : Z := Day (LocalTime d).
End Zone.

Import JSString.

Definition num2 (a b : ascii) : option Z :=
  if isDigit a && isDigit b then Some (10 * digitVal a + digitVal b) else None.

Definition num4 (a b c d : ascii) : option Z :=
  if isDigit a && isDigit b && isDigit c && isDigit d
  then Some (1000 * digitVal a + 100 * digitVal b + 10 * digitVal c + digitVal d)
  else None.

(** The seconds field of a date-time string: absent, or [:SS]. *)
Definition isoSeconds (s : string) : option Z :=
  match s with
  | EmptyString => Some 0
  | String c (String s1 (String s2 EmptyString)) =>
      if isChar ":" c then num2 s1 s2 else None
  | _ => None
  end.

(** The local-time forms [YYYY-MM-DDTHH:MM] and [YYYY-MM-DDTHH:MM:SS] of
    the ECMAScript date-time string format, with every field in range:
    the time value of that local date and time, before the zone offset
    is taken off. *)
Definition isoLocalDateTime (s : string) : option Z :=
  match s with
  | String y1 (String y2 (String y3 (String y4 (String c1
    (String m1 (String m2 (String c2 (String d1 (String d2 (String c3
    (String h1 (String h2 (String c4 (String i1 (String i2 rest)))))))))))))))
    =>
      if isChar "-" c1 && isChar "-" c2 && isChar "T" c3 && isChar ":" c4 then
        match num4 y1 y2 y3 y4, num2 m1 m2, num2 d1 d2, num2 h1 h2,
              num2 i1 i2, isoSeconds rest with
        | Some y, Some m, Some d, Some h, Some mi, Some sec =>
            if (1 <=? m) && (m <=? 12) && (1 <=? d)
               && (d <=? DaysInMonth y (m - 1))
               && (h <=? 23) && (mi <=? 59) && (sec <=? 59)
            then Some (MakeDate (MakeDay y (m - 1) d) (MakeTime h mi sec 0))
            else None
        | _, _, _, _, _, _ => None
        end
      else None
  | _ => None
  end.

(** [new Date(s)] for a string: a string in the date-time format above
    is local time; any other string is left to the host's parser. *)
Definition newDateOfString (tz : Z) (host : string -> option Z)
    (s : string) : option Z :=
  match isoLocalDateTime s with
  | Some t => Some (UTC tz t)
  | None => host s
  end.

End JSDate.

(** ** date-utils.ts *)

Module DateUtils.
Import JSString JSDate.

(** The values [parseObsidianDate] discriminates ([value: unknown]). *)
Inductive Unknown :=
| UNull
| UDate (timeValue : option Z)
| UNumber (n : option Z)
| UString (s : string)
| UOther.

(** [/^\d{4}-\d{2}-\d{2}$/.test(s)] *)
Definition isDateOnly (s : string) : bool :=
  match s with
  | String y1 (String y2 (String y3 (String y4 (String c1
    (String m1 (String m2 (String c2 (String d1 (String d2 EmptyString)))))))))
    => isDigit y1 && isDigit y2 && isDigit y3 && isDigit y4 && isChar "-" c1
       && isDigit m1 && isDigit m2 && isChar "-" c2 && isDigit d1 && isDigit d2
  | _ => false
  end.

(** [/^\d{4}-\d{2}-\d{2} \d{2}:\d{2}(:\d{2})?$/.test(s)] *)
Definition isSpaceDateTime (s : string) : bool :=
  match s with
  | String y1 (String y2 (String y3 (String y4 (String c1
    (String m1 (String m2 (String c2 (String d1 (String d2 (String c3
    (String h1 (String h2 (String c4 (String i1 (String i2 rest)))))))))))))))
    => isDigit y1 && isDigit y2 && isDigit y3 && isDigit y4 && isChar "-" c1
       && isDigit m1 && isDigit m2 && isChar "-" c2 && isDigit d1 && isDigit d2
       && isChar " " c3 && isDigit h1 && isDigit h2 && isChar ":" c4
       && isDigit i1 && isDigit i2
       && match rest with
          | EmptyString => true
          | String c5 (String s1 (String s2 EmptyString)) =>
              isChar ":" c5 && isDigit s1 && isDigit s2
          | _ => false
          end
  | _ => false
  end.

(** [s.replace(' ', 'T')]: the first space only. *)
Fixpoint replaceFirstSpace (s : string) : string :=
  match s with
  | EmptyString => EmptyString
  | String a r =>
      if Ascii.eqb a " "%char then String "T"%char r else String a (replaceFirstSpace r)
  end.

Section Host.
Variable tz : Z.
Variable host : string -> option Z.

Definition parseObsidianDate (value : Unknown) : option Z :=
  match value with
  | UNull => None
  | UDate tv => tv
  | UNumber n => n
  | UOther => None
  | UString value =>
      let trimmed := trim value in
      if negb (truthy trimmed) then None
      else if isDateOnly trimmed
      then newDateOfString tz host (trimmed +:+ "T00:00:00")
      else if isSpaceDateTime trimmed
      then newDateOfString tz host (replaceFirstSpace trimmed)
      else newDateOfString tz host trimmed
  end.

Definition formatDateForGantt (date : Z) : string :=
  let y := getFullYear tz date in
  let m := padStart2 (pretty (getMonth tz date + 1)) in
  let d := padStart2 (pretty (getDate tz date)) in
  pretty y +:+ "-" +:+ m +:+ "-" +:+ d.

(** [formatDateForGantt] on a [Date] that may be invalid: every field
    of an Invalid Date is [NaN], which [padStart(2, '0')] leaves as
    it is. *)
Definition formatDateObject (date : DateObject) : string :=
  match date with
  | TimeValue t => formatDateForGantt t
  | InvalidDate => "NaN-NaN-NaN"
  end.
End Host.

End DateUtils.

(** ** The slice of the host API ('obsidian') the sources rely on *)

Module Obsidian.

(** The [Value] classes the sources tell apart.  A value carries the
    text its printing method yields: [dateOnly().toString()] for a
    [DateValue], [toString()] for the others. *)
Inductive Value :=
| NullValue
| DateValue (dateOnlyText : string)
| NumberValue (text : string)
| OtherValue (text : string).

Definition BasesPropertyId := string.

Record TFile := { path : string; basename : string }.

(** [getValue] answers [None] where the API answers [null]. *)
Record BasesEntry := {
  file : TFile;
  getValue : BasesPropertyId -> option Value
}.

(** Truthiness of a [BasesPropertyId | null]. *)
Definition isSet (p : option BasesPropertyId) : bool :=
  match p with Some s => JSString.truthy s | None => false end.

End Obsidian.

(** ** JavaScript numbers read by [parseFloat] *)

Module JSNumber.
Import JSString.

Inductive Number := NaN | Finite (q : Q) | PosInf | NegInf.

Fixpoint spanChars (f : ascii -> bool) (s : string) : string * string :=
  match s with
  | EmptyString => (EmptyString, EmptyString)
  | String a r =>
      if f a then let (x, y) := spanChars f r in (String a x, y)
      else (EmptyString, s)
  end.

Fixpoint digitsValue (acc : Z) (s : string) : Z :=
  match s with
  | EmptyString => acc
  | String a r => digitsValue (10 * acc + digitVal a) r
  end.

(** [ExponentPart]: [e] or [E], an optional sign, one digit or more;
    0 when there is no well-formed exponent. *)
Definition exponentPart (s : string) : Z :=
  match s with
  | String e r =>
      if Ascii.eqb e "e"%char || Ascii.eqb e "E"%char then
        match r with
        | String sg r' =>
            if Ascii.eqb sg "-"%char then
              let (ds, _) := spanChars isDigit r' in
              if truthy ds then - digitsValue 0 ds else 0
            else if Ascii.eqb sg "+"%char then
              let (ds, _) := spanChars isDigit r' in digitsValue 0 ds
            else let (ds, _) := spanChars isDigit r in digitsValue 0 ds
        | EmptyString => 0
        end
      else 0
  | EmptyString => 0
  end.

(** [mantissa * 10 ^ exponent] as a reduced fraction. *)
Definition scale10 (m e : Z) : Q :=
  Qred (if 0 <=? e then inject_Z (m * 10 ^ e)
        else Qmake m (Z.to_pos (10 ^ (- e)))).

(** The unsigned part of a [StrDecimalLiteral]. *)
Definition unsignedLiteral (s : string) : option Q :=
  let (ip, r1) := spanChars isDigit s in
  let '(fp, r2) :=
    match r1 with
    | String "."%char r => spanChars isDigit r
    | _ => (EmptyString, r1)
    end in
  if negb (truthy ip) && negb (truthy fp) then None
  else Some (scale10 (digitsValue 0 (ip +:+ fp))
                     (exponentPart r2 - Z.of_nat (String.length fp))).

(** [parseFloat(s)]: leading white space is skipped and the longest
    prefix that is a decimal literal is read. *)
Definition parseFloat (s : string) : Number :=
  let t := trimStart s in
  let '(neg, u) :=
    match t with
    | String sg r =>
        if Ascii.eqb sg "-"%char then (true, r)
        else if Ascii.eqb sg "+"%char then (false, r) else (false, t)
    | EmptyString => (false, t)
    end in
  if startsWith "Infinity" u then (if neg then NegInf else PosInf)
  else match unsignedLiteral u with
       | Some q => Finite (if neg then Qred (Qopp q) else q)
       | None => NaN
       end.

Definition isNaN (n : Number) : bool :=
  match n with NaN => true | _ => false end.

(** [Math.max(0, Math.min(100, n))] for [n] other than [NaN]. *)
Definition clamp0to100 (n : Number) : Q :=
  match n with
  | NaN => 0%Q
  | PosInf => 100%Q
  | NegInf => 0%Q
  | Finite q =>
      let m := if Qle_bool 100%Q q then 100%Q else q in
      if Qle_bool m 0%Q then 0%Q else m
  end.

(** [Math.round(q)]: the nearest integer, halves upwards. *)
Definition round (q : Q) : Z := Qfloor (q + (1 # 2))%Q.

End JSNumber.

(** ** task-mapper.ts *)

Module TaskMapper.
Import JSString JSDate DateUtils JSNumber Obsidian.

(** [GanttTask]: a [FrappeTask] with the file path and milestone flag. *)
Record GanttTask := {
  id : string;
  name : string;
  start : string;
  end_ : string;
  progress : Q;
  dependencies : string;
  custom_class : string;
  filePath : string;
  isMilestone : bool
}.

Record TaskMapperConfig := {
  startProperty : option BasesPropertyId;
  endProperty : option BasesPropertyId;
  labelProperty : option BasesPropertyId;
  dependenciesProperty : option BasesPropertyId;
  colorByProperty : option BasesPropertyId;
  progressProperty : option BasesPropertyId;
  showProgress : bool
}.

Definition COLOR_CLASS_COUNT : nat := 8.

Definition extractRawValue (val : option Value) : option string :=
  match val with
  | None => None
  | Some NullValue => None
  | Some (DateValue s) => Some s
  | Some (NumberValue s) => Some s
  | Some (OtherValue s) => Some s
  end.

(** [filePath.replace(/ /g, '_')] *)
Definition makeTaskId (filePath : string) : string :=
  mapChars (fun c => if Ascii.eqb c " "%char then "_"%char else c) filePath.

(** [p.replace(/\.[^.]+$/, '')]: cut at the last dot when something
    follows it. *)
Fixpoint stripExtension (p : string) : string :=
  match p with
  | EmptyString => EmptyString
  | String a r =>
      if Ascii.eqb a "."%char && truthy r && negb (includes "." r)
      then EmptyString
      else String a (stripExtension r)
  end.

(** The value read from an entry for a role, [null] when the role is
    not set. *)
Definition rawOf (e : BasesEntry) (p : option BasesPropertyId) : option string :=
  match p with
  | Some prop => if truthy prop then extractRawValue (getValue e prop) else None
  | None => None
  end.

(** First pass: basename and path without extension, each to the id. *)
Definition buildNameToId (entries : list BasesEntry) : gmap string string :=
  foldl (fun m e =>
           let i := makeTaskId (path (file e)) in
           <[stripExtension (path (file e)) := i]> (<[basename (file e) := i]> m))
        ∅ entries.

Definition buildColorValues (config : TaskMapperConfig)
    (entries : list BasesEntry) : gmap string nat :=
  if isSet (colorByProperty config) then
    foldl (fun m e =>
             match rawOf e (colorByProperty config) with
             | Some raw =>
                 match m !! raw with
                 | None => <[raw := (size m mod COLOR_CLASS_COUNT)%nat]> m
                 | Some _ => m
                 end
             | None => m
             end)
          ∅ entries
  else ∅.

(** One attempt of [/\[\[([^\]|]+)(?:\|[^\]]+)?\]\]/] at the head of
    [s]: the captured target and what follows the match.  Both runs are
    greedy and a shorter run can never be followed by the next token,
    so the attempt is deterministic. *)
Definition matchWikiLinkHere (s : string) : option (string * string) :=
  match stripPrefix2 "[" "[" s with
  | None => None
  | Some r =>
      let (target, r1) :=
        spanChars (fun c => negb (isChar "]" c || isChar "|" c)) r in
      if negb (truthy target) then None
      else match stripPrefix2 "]" "]" r1 with
           | Some r2 => Some (target, r2)
           | None =>
               match r1 with
               | String c r2 =>
                   if isChar "|" c then
                     let (alias, r3) := spanChars (fun c => negb (isChar "]" c)) r2 in
                     if negb (truthy alias) then None
                     else match stripPrefix2 "]" "]" r3 with
                          | Some r4 => Some (target, r4)
                          | None => None
                          end
                   else None
               | EmptyString => None
               end
           end
  end.

(** The [while ((match = regex.exec(depStr)) !== null)] loop: every
    match from left to right, each search resuming after the last one. *)
Fixpoint execAll (fuel : nat) (s : string) : list string :=
  match fuel with
  | O => []
  | S fuel' =>
      match matchWikiLinkHere s with
      | Some (target, rest) => target :: execAll fuel' rest
      | None =>
          match s with
          | EmptyString => []
          | String _ r => execAll fuel' r
          end
      end
  end.

Definition wikiLinkTargets (s : string) : list string :=
  execAll (S (String.length s)) s.

(** [nameToId.get(n)] kept when truthy. *)
Definition resolveName (nameToId : gmap string string) (n : string) : list string :=
  match nameToId !! n with
  | Some i => if truthy i then [i] else []
  | None => []
  end.

Definition plainNames (depStr : string) : list string :=
  List.filter truthy (trim <$> splitOn ","%char depStr).

(** The plain-text branch is taken under this test. *)
Definition usesPlainFallback (nameToId : gmap string string) (depStr : string) : bool :=
  let depIds := wikiLinkTargets depStr ≫= (fun t => resolveName nameToId (trim t)) in
  (length depIds =? 0)%nat && negb (includes "[[" depStr).

Definition resolveDependencies (nameToId : gmap string string) (depStr : string)
    : list string :=
  let depIds := wikiLinkTargets depStr ≫= (fun t => resolveName nameToId (trim t)) in
  if (length depIds =? 0)%nat && negb (includes "[[" depStr)
  then depIds ++ (plainNames depStr ≫= resolveName nameToId)
  else depIds.

Definition dependenciesOf (nameToId : gmap string string)
    (config : TaskMapperConfig) (e : BasesEntry) : string :=
  match rawOf e (dependenciesProperty config) with
  | Some depStr => join ", " (resolveDependencies nameToId depStr)
  | None => EmptyString
  end.

Definition progressOf (config : TaskMapperConfig) (e : BasesEntry) : Q :=
  if showProgress config && isSet (progressProperty config) then
    match rawOf e (progressProperty config) with
    | Some raw =>
        let num := parseFloat raw in
        if negb (isNaN num) then clamp0to100 num else 0%Q
    | None => 0%Q
    end
  else 0%Q.

Definition labelOf (config : TaskMapperConfig) (e : BasesEntry) : string :=
  match rawOf e (labelProperty config) with
  | Some raw => if truthy (trim raw) then raw else basename (file e)
  | None => basename (file e)
  end.

Definition colorClassOf (colorValues : gmap string nat)
    (config : TaskMapperConfig) (e : BasesEntry) : string :=
  match rawOf e (colorByProperty config) with
  | Some raw =>
      match colorValues !! raw with
      | Some idx => "gantt-color-" +:+ pretty idx
      | None => EmptyString
      end
  | None => EmptyString
  end.

Section Host.
Variable tz : Z.
Variable host : string -> option Z.

(** [new Date(d)] then [setDate(getDate() + 1)]: an Invalid Date when
    the next day is beyond the range of time values. *)
Definition nextDay (d : Z) : DateObject := setDate tz d (getDate tz d + 1).

Definition parsedStart (config : TaskMapperConfig) (e : BasesEntry) : option Z :=
  match startProperty config with
  | Some prop =>
      parseObsidianDate tz host
        (from_option UString UNull (extractRawValue (getValue e prop)))
  | None => None
  end.

(** The end date read from the entry: [null] when the end role is not
    set or its value does not parse. *)
Definition parsedEnd (config : TaskMapperConfig) (e : BasesEntry) : option Z :=
  match endProperty config with
  | Some prop =>
      if truthy prop then
        parseObsidianDate tz host
          (from_option UString UNull (extractRawValue (getValue e prop)))
      else None
  | None => None
  end.

(** The end date after the one-day default and the [end < start]
    guard, before the milestone test.  An invalid default passes the
    guard: it is not below the start. *)
Definition defaultedEnd (startDate : Z) (parsed : option Z) : DateObject :=
  let endDate := from_option TimeValue (nextDay startDate) parsed in
  if dateLt endDate (TimeValue startDate) then nextDay startDate else endDate.

(** The body of the main loop for one entry; [None] is [continue]. *)
Definition mapEntry (nameToId : gmap string string) (colorValues : gmap string nat)
    (config : TaskMapperConfig) (e : BasesEntry) : option GanttTask :=
  match parsedStart config e with
  | None => None
  | Some startDate =>
      let endDate := defaultedEnd startDate (parsedEnd config e) in
      let name := labelOf config e in
      let progress := progressOf config e in
      let dependencies := dependenciesOf nameToId config e in
      let custom_class := colorClassOf colorValues config e in
      let isMilestone := sameTime (TimeValue startDate) endDate in
      let endDate := if isMilestone then nextDay startDate else endDate in
      let custom_class :=
        if isMilestone && negb (truthy custom_class)
        then "gantt-milestone"%string else custom_class in
      Some {| id := makeTaskId (path (file e));
              name := name;
              start := formatDateForGantt tz startDate;
              end_ := formatDateObject tz endDate;
              progress := progress;
              dependencies := dependencies;
              custom_class := custom_class;
              filePath := path (file e);
              isMilestone := isMilestone |}
  end.

(** The task list before it is ordered. *)
Definition mapAll (entries : list BasesEntry) (config : TaskMapperConfig)
    : list GanttTask :=
  omap (mapEntry (buildNameToId entries) (buildColorValues config entries) config)
       entries.
End Host.

(** *** sortByDependencies *)

(** A stable sort on [a.start.localeCompare(b.start)]. *)
Fixpoint insertByStart (t : GanttTask) (l : list GanttTask) : list GanttTask :=
  match l with
  | [] => [t]
  | x :: r =>
      if localeLe (start t) (start x) then t :: l else x :: insertByStart t r
  end.

Fixpoint sortByStart (l : list GanttTask) : list GanttTask :=
  match l with
  | [] => []
  | t :: r => insertByStart t (sortByStart r)
  end.

(** [set.add(x)] on a set kept in insertion order. *)
Definition setAdd (s : list string) (x : string) : list string :=
  if bool_decide (x ∈ s) then s else s ++ [x].

Definition buildTaskMap (tasks : list GanttTask) : gmap string GanttTask :=
  foldl (fun m t => <[id t := t]> m) ∅ tasks.

(** The dependency ids of one task that are keys of [taskMap]. *)
Definition knownDeps (taskMap : gmap string GanttTask) (t : GanttTask) : list string :=
  if truthy (dependencies t) then
    foldl (fun deps d =>
             let i := trim d in
             if truthy i && bool_decide (is_Some (taskMap !! i))
             then setAdd deps i else deps)
          [] (splitOn ","%char (dependencies t))
  else [].

Definition buildDepsOf (taskMap : gmap string GanttTask) (tasks : list GanttTask)
    : gmap string (list string) :=
  foldl (fun m t => <[id t := knownDeps taskMap t]> m) ∅ tasks.

(** The tasks of [remaining] whose dependencies are all placed; [None]
    where a non-null assertion of the source would fail. *)
Fixpoint readyTasks (taskMap : gmap string GanttTask)
    (depsOf : gmap string (list string)) (placed : gset string)
    (remaining : list string) : option (list GanttTask) :=
  match remaining with
  | [] => Some []
  | i :: rest =>
      deps ← depsOf !! i;
      tail ← readyTasks taskMap depsOf placed rest;
      if forallb (fun d => bool_decide (d ∈ placed)) deps
      then t ← taskMap !! i; Some (t :: tail)
      else Some tail
  end.

Definition placeAll (ready : list GanttTask) (placed : gset string) : gset string :=
  foldl (fun p t => {[id t]} ∪ p) placed ready.

Definition deleteAll (ready : list GanttTask) (remaining : list string) : list string :=
  foldl (fun r t => filter (fun i => i ≠ id t) r) remaining ready.

(** The [while (remaining.size > 0)] loop; [None] when the fuel runs
    out or an assertion fails. *)
Fixpoint sortLoop (fuel : nat) (taskMap : gmap string GanttTask)
    (depsOf : gmap string (list string)) (sorted : list GanttTask)
    (placed : gset string) (remaining : list string) : option (list GanttTask) :=
  match remaining with
  | [] => Some sorted
  | _ :: _ =>
      match fuel with
      | O => None
      | S fuel' =>
          ready ← readyTasks taskMap depsOf placed remaining;
          match ready with
          | [] =>
              rest ← mapM (fun i => taskMap !! i) remaining;
              Some (sorted ++ sortByStart rest)
          | _ :: _ =>
              let ready' := sortByStart ready in
              sortLoop fuel' taskMap depsOf (sorted ++ ready')
                       (placeAll ready' placed) (deleteAll ready' remaining)
          end
      end
  end.

Definition sortByDependencies (tasks : list GanttTask) : option (list GanttTask) :=
  if (length tasks <=? 1)%nat then Some tasks
  else
    let taskMap := buildTaskMap tasks in
    let depsOf := buildDepsOf taskMap tasks in
    let remaining := foldl setAdd [] (id <$> tasks) in
    sortLoop (length remaining) taskMap depsOf [] ∅ remaining.

Definition mapEntriesToTasks (tz : Z) (host : string -> option Z)
    (entries : list BasesEntry) (config : TaskMapperConfig)
    : option (list GanttTask) :=
  if negb (isSet (startProperty config)) then Some []
  else sortByDependencies (mapAll tz host entries config).

End TaskMapper.

(** ** gantt-view.ts *)

Module GanttView.
Import JSString JSNumber Obsidian TaskMapper.

Record Detected := {
  det_start : option BasesPropertyId;
  det_end : option BasesPropertyId;
  det_dependencies : option BasesPropertyId;
  det_progress : option BasesPropertyId;
  det_colorBy : option BasesPropertyId
}.

Definition noDetection : Detected :=
  {| det_start := None; det_end := None; det_dependencies := None;
     det_progress := None; det_colorBy := None |}.

Definition isDateValue (v : option Value) : bool :=
  match v with Some (DateValue _) => true | _ => false end.

Definition isNumberValue (v : option Value) : bool :=
  match v with Some (NumberValue _) => true | _ => false end.

(** Neither [null], nor a [DateValue], nor a [NumberValue]. *)
Definition isOtherValue (v : option Value) : bool :=
  match v with
  | Some NullValue => true
  | Some (OtherValue _) => true
  | _ => false
  end.

(** The part after the first dot, in lower case, without [-] and [_]. *)
Definition getName (i : BasesPropertyId) : string :=
  filterChars (fun c => negb (Ascii.eqb c "-"%char || Ascii.eqb c "_"%char))
    (toLowerCase (from_option (fun r => r) i (afterFirst "."%char i))).

Definition findByKeywords (props : list BasesPropertyId) (keywords : list string)
    : option BasesPropertyId :=
  List.find (fun propId => existsb (fun k => includes k (getName propId)) keywords)
            props.

Definition startKeywords : list string := ["start"; "begin"; "from"; "created"].
Definition endKeywords : list string := ["end"; "due"; "finish"; "deadline"; "until"].
Definition depKeywords : list string :=
  ["depend"; "block"; "after"; "prerequisite"; "requires"].
Definition progressKeywords : list string :=
  ["progress"; "percent"; "completion"; "complete"; "done"].
Definition colorKeywords : list string :=
  ["status"; "priority"; "type"; "category"; "phase"; "stage"].

Definition autoDetectProperties (allProperties : list BasesPropertyId)
    (entries : list BasesEntry) : Detected :=
  match entries with
  | [] => noDetection
  | firstEntry :: _ =>
      let dateProps := List.filter (fun p => isDateValue (getValue firstEntry p)) allProperties in
      let numberProps := List.filter (fun p => isNumberValue (getValue firstEntry p)) allProperties in
      let stringProps := List.filter (fun p => isOtherValue (getValue firstEntry p)) allProperties in
      let start := findByKeywords dateProps startKeywords in
      let end_ := findByKeywords dateProps endKeywords in
      let start :=
        if negb (isSet start) && (0 <? length dateProps)%nat
        then head dateProps else start in
      let end_ :=
        if negb (isSet end_) && (1 <? length dateProps)%nat
        then List.find (fun p => negb (bool_decide (Some p = start))) dateProps
        else end_ in
      {| det_start := start;
         det_end := end_;
         det_dependencies := findByKeywords stringProps depKeywords;
         det_progress := findByKeywords numberProps progressKeywords;
         det_colorBy := findByKeywords stringProps colorKeywords |}
  end.

(** What [this.config] holds for the view. *)
Record ViewConfig := {
  cfg_startDate : option BasesPropertyId;
  cfg_endDate : option BasesPropertyId;
  cfg_label : option BasesPropertyId;
  cfg_dependencies : option BasesPropertyId;
  cfg_colorBy : option BasesPropertyId;
  cfg_progress : option BasesPropertyId;
  cfg_showProgress : option bool
}.

Record View := {
  config : ViewConfig;
  data : list BasesEntry;
  allProperties : list BasesPropertyId;
  taskMap : gmap string GanttTask
}.

(** [a ?? b] *)
Definition orElse {A} (a b : option A) : option A :=
  match a with Some _ => a | None => b end.

Definition getTaskMapperConfig (v : View) : TaskMapperConfig :=
  let c := config v in
  let detect := negb (isSet (cfg_startDate c)) && (0 <? length (data v))%nat in
  let detected :=
    if detect then autoDetectProperties (allProperties v) (data v)
    else noDetection in
  let progressProperty := orElse (det_progress detected) (cfg_progress c) in
  {| startProperty := orElse (det_start detected) (cfg_startDate c);
     endProperty := orElse (det_end detected) (cfg_endDate c);
     labelProperty := cfg_label c;
     dependenciesProperty := orElse (det_dependencies detected) (cfg_dependencies c);
     colorByProperty := orElse (det_colorBy detected) (cfg_colorBy c);
     progressProperty := progressProperty;
     showProgress :=
       from_option (fun b => b)
         (match progressProperty with Some _ => true | None => false end)
         (cfg_showProgress c) |}.

Definition extractPropertyName (propertyId : BasesPropertyId) : string :=
  from_option (fun r => r) propertyId (afterFirst "."%char propertyId).

(** A frontmatter value: text, a number, or any other YAML value. *)
Inductive FMValue := FMText (s : string) | FMNumber (n : Z) | FMOther (yaml : string).

(** The vault: the frontmatter of every file that exists, by path. *)
Abbreviation Vault := (gmap string (gmap string FMValue)).

Definition writeFrontmatter (vault : Vault) (filePath : string)
    (updates : list (string * FMValue)) : Vault :=
  match vault !! filePath with
  | None => vault
  | Some frontmatter =>
      <[filePath := foldl (fun fm kv => <[kv.1 := kv.2]> fm) frontmatter updates]> vault
  end.

(** The [on_progress_change] callback; [showProgress] is the value
    captured when the chart was built. *)
Definition on_progress_change (showProgress : bool) (v : View) (vault : Vault)
    (taskId : string) (progress : Q) : Vault :=
  if negb showProgress then vault
  else match taskMap v !! taskId with
       | None => vault
       | Some ganttTask =>
           let mapperConfig := getTaskMapperConfig v in
           match progressProperty mapperConfig with
           | Some prop =>
               if truthy prop then
                 writeFrontmatter vault (filePath ganttTask)
                   [(extractPropertyName prop, FMNumber (round progress))]
               else vault
           | None => vault
           end
       end.

End GanttView.

(** ** Auxiliary definitions for the statements *)

Module Aux.
Import JSString JSDate DateUtils Obsidian TaskMapper.

(** The canonical text of a calendar day, given as days since the epoch. *)
Definition formatDay (n : Z) : string := formatDateForGantt 0 (n * msPerDay).

Definition digitChar (n : Z) : ascii := ascii_of_nat (48 + Z.to_nat n).

(** Year, month (from 1) and day of the month of a calendar day. *)
Definition civil (n : Z) : Z * Z * Z :=
  let t := n * msPerDay in
  (YearFromTime t, MonthFromTime t + 1, DateFromTime t).

(** The ten characters of a date with a four-digit year. *)
Definition tenChars (y m d : Z) : string :=
  String (digitChar (y / 1000)) (String (digitChar (y / 100 mod 10))
    (String (digitChar (y / 10 mod 10)) (String (digitChar (y mod 10))
      (String "-" (String (digitChar (m / 10)) (String (digitChar (m mod 10))
        (String "-" (String (digitChar (d / 10))
          (String (digitChar (d mod 10)) EmptyString))))))))).

(** The fields of a string of the strict [YYYY-MM-DD] shape that names
    a day of the calendar. *)
Definition calendarDate (s : string) : option (Z * Z * Z) :=
  match s with
  | String y1 (String y2 (String y3 (String y4 (String c1
    (String m1 (String m2 (String c2 (String d1 (String d2 EmptyString)))))))))
    =>
      if isChar "-" c1 && isChar "-" c2 then
        match num4 y1 y2 y3 y4, num2 m1 m2, num2 d1 d2 with
        | Some y, Some m, Some d =>
            if (1 <=? m) && (m <=? 12) && (1 <=? d) && (d <=? DaysInMonth y (m - 1))
            then Some (y, m, d) else None
        | _, _, _ => None
        end
      else None
  | _ => None
  end.


(** *** The ordering algorithm, following the text of the specification *)

(** The dependency set written on a task. *)
Definition depSet (t : GanttTask) : list string :=
  List.filter truthy (trim <$> splitOn ","%char (dependencies t)).

(** The written dependencies that name a task of [tasks]. *)
Definition depSetWithin (tasks : list GanttTask) (t : GanttTask) : list string :=
  filter (fun d => d ∈ id <$> tasks) (depSet t).

(** Every dependency of [t] is the id of a task already placed. *)
Definition allPlaced (deps : GanttTask -> list string) (sorted : list GanttTask)
    (t : GanttTask) : Prop :=
  Forall (fun d => d ∈ id <$> sorted) (deps t).

(** Select the tasks whose dependency set is placed, order them by
    start date, append them, repeat; when none qualifies, append all
    that remain, ordered by start date. *)
Fixpoint specLoop (fuel : nat) (deps : GanttTask -> list string)
    (sorted remaining : list GanttTask) : list GanttTask :=
  match remaining, fuel with
  | [], _ => sorted
  | _ :: _, O => sorted
  | _ :: _, S fuel' =>
      match filter (allPlaced deps sorted) remaining with
      | [] => sorted ++ sortByStart remaining
      | ready =>
          specLoop fuel' deps (sorted ++ sortByStart ready)
                   (filter (fun t => ¬ allPlaced deps sorted t) remaining)
      end
  end.

Definition specSort (deps : GanttTask -> list string) (tasks : list GanttTask)
    : list GanttTask :=
  specLoop (length tasks) deps [] tasks.

(** *** Notions for the proofs about the sorter *)

(** One [map.set(t.id, v t)]. *)
Definition putTask {V : Type} (v : GanttTask -> V) (m : gmap string V)
    (t : GanttTask) : gmap string V :=
  <[id t := v t]> m.

(** The ids the loop may meet: known to both maps, and filed under
    their own id. *)
Definition known (taskMap : gmap string GanttTask)
    (depsOf : gmap string (list string)) (remaining : list string) : Prop :=
  ∀ i, i ∈ remaining ->
       is_Some (depsOf !! i) ∧ ∃ t, taskMap !! i = Some t ∧ id t = i.

(** All dependencies recorded for [i] are placed. *)
Definition met (depsOf : gmap string (list string)) (placed : gset string)
    (i : string) : Prop :=
  ∃ deps, depsOf !! i = Some deps
          ∧ forallb (fun d => bool_decide (d ∈ placed)) deps = true.

Global Instance met_dec depsOf placed i : Decision (met depsOf placed i).
Proof.
  unfold met. destruct (depsOf !! i) as [deps|].
  - destruct (forallb (fun d => bool_decide (d ∈ placed)) deps) eqn:E.
    + left. eauto.
    + right. intros (d' & [= <-] & H). congruence.
  - right. intros (d' & H & _). discriminate.
Defined.

Fixpoint assoc (props : list (string * Value)) (p : string) : option Value :=
  match props with
  | [] => None
  | (k, v) :: r => if String.eqb k p then Some v else assoc r p
  end.

(** A note at path [p] with base name [b] and the listed properties. *)
Definition note (p b : string) (props : list (string * Value)) : BasesEntry :=
  {| file := {| path := p; basename := b |}; getValue := assoc props |}.

(** A host that parses nothing beyond the date-time format. *)
Definition noHost : string -> option Z := fun _ => None.

(** *** Sample notes *)

Definition sampleConfig : TaskMapperConfig :=
  {| startProperty := Some "note.start";
     endProperty := Some "note.end";
     labelProperty := None;
     dependenciesProperty := Some "note.depends-on";
     colorByProperty := Some "note.status";
     progressProperty := Some "note.progress";
     showProgress := true |}.

(** Start and end on the same day, the end with a time of day. *)
Definition noteLaunch : BasesEntry :=
  note "Launch.md" "Launch"
    [("note.start", OtherValue "2026-03-15");
     ("note.end", OtherValue "2026-03-15 12:00")].

(** Start and end the same date. *)
Definition noteReview : BasesEntry :=
  note "Review.md" "Review"
    [("note.start", DateValue "2026-03-15"); ("note.end", DateValue "2026-03-15")].

(** No end date, and a progress that is not a whole number. *)
Definition noteDesign : BasesEntry :=
  note "Design.md" "Design"
    [("note.start", DateValue "2026-03-15"); ("note.progress", NumberValue "40.5")].

(** An end before the start. *)
Definition noteBackwards : BasesEntry :=
  note "Backwards.md" "Backwards"
    [("note.start", DateValue "2026-03-15"); ("note.end", DateValue "2026-03-01")].

(** The index of a vault with one note, [Design]. *)
Definition sampleIndex : gmap string string :=
  {[ "Design"%string := "Design.md"%string ]}.

Definition task (i s deps : string) : GanttTask :=
  {| id := i; name := i; start := s; end_ := s; progress := 0%Q;
     dependencies := deps; custom_class := EmptyString; filePath := i;
     isMilestone := false |}.


(** A two-cycle and an independent task that starts first. *)
Definition cycleAndFree : list GanttTask :=
  [task "A" "2026-01-03" "B"; task "B" "2026-01-02" "A"; task "C" "2026-01-01" ""].

(** A note that starts at the last instant a [Date] can hold, written
    in the expanded-year form of the date-time format. *)
Definition noteEdge : BasesEntry :=
  note "Edge.md" "Edge" [("note.start", OtherValue "+275760-09-13T00:00:00.000Z")].

(** A host that reads that one string, as the time value
    8,640,000,000,000,000. *)
Definition edgeHost : string -> option Z :=
  fun s => if String.eqb s "+275760-09-13T00:00:00.000Z"
           then Some maxTimeValue else None.


(** *** A sample view and vault *)

Definition sampleView : GanttView.View :=
  {| GanttView.config :=
       {| GanttView.cfg_startDate := Some "note.start"%string;
          GanttView.cfg_endDate := None;
          GanttView.cfg_label := None;
          GanttView.cfg_dependencies := None;
          GanttView.cfg_colorBy := None;
          GanttView.cfg_progress := Some "note.progress"%string;
          GanttView.cfg_showProgress := Some true |};
     GanttView.data := [noteDesign];
     GanttView.allProperties := ["note.start"%string; "note.progress"%string];
     GanttView.taskMap := {[ "Design.md"%string := task "Design.md" "2026-03-15" "" ]} |}.

Definition sampleVault : GanttView.Vault :=
  {[ "Design.md"%string :=
       {[ "progress"%string := GanttView.FMNumber 40;
          "status"%string := GanttView.FMText "In Progress" ]};
     "Research.md"%string := {[ "progress"%string := GanttView.FMNumber 10 ]} ]}.


(** A first note with two dates, one of them named [due]. *)
Definition noteDue : BasesEntry :=
  note "Due.md" "Due"
    [("note.due", DateValue "2026-03-20"); ("note.scheduled", DateValue "2026-03-10")].

(** A first note on which [status] holds the null value object. *)
Definition noteNullStatus : BasesEntry :=
  note "Null.md" "Null" [("note.status", NullValue)].

End Aux.

(** ** date-utils.ts: writing dates back *)

Module DateUtilsRest.
Import JSString JSDate DateUtils.

Definition HourFromTime (t : Z) : Z := (t / 3600000) mod 24.
Definition MinFromTime (t : Z) : Z := (t / 60000) mod 60.
Definition SecFromTime (t : Z) : Z := (t / 1000) mod 60.

Definition getHours (tz d : Z) : Z := HourFromTime (LocalTime tz d).
Definition getMinutes (tz d : Z) : Z := MinFromTime (LocalTime tz d).
Definition getSeconds (tz d : Z) : Z := SecFromTime (LocalTime tz d).

Definition formatDateForFrontmatter (tz : Z) (date : Z) (includeTime : bool)
    : string :=
  if negb includeTime then formatDateForGantt tz date
  else
    let y := getFullYear tz date in
    let mo := padStart2 (pretty (getMonth tz date + 1)) in
    let d := padStart2 (pretty (getDate tz date)) in
    let h := padStart2 (pretty (getHours tz date)) in
    let mi := padStart2 (pretty (getMinutes tz date)) in
    let s := padStart2 (pretty (getSeconds tz date)) in
    pretty y +:+ "-" +:+ mo +:+ "-" +:+ d +:+ "T" +:+ h +:+ ":" +:+ mi +:+ ":" +:+ s.

End DateUtilsRest.

(** ** task-mapper.ts: group headers *)

Module TaskMapperRest.
Import JSString JSNumber Obsidian TaskMapper.

Definition GROUP_HEADER_PREFIX : string := "__group__".

(** The loop over the group's tasks: the least start and the greatest
    end, by [<] and [>] on strings (the order of code units). *)
Definition spanOf (first : GanttTask) (groupTasks : list GanttTask)
    : string * string :=
  foldl (fun acc t =>
           (if String.ltb (start t) acc.1 then start t else acc.1,
            if String.ltb acc.2 (end_ t) then end_ t else acc.2))
        (start first, end_ first) groupTasks.

(** [isMilestone] is left out of the header object; it reads as false. *)
Definition createGroupHeaderTask (groupLabel : string) (groupIndex : nat)
    (groupTasks : list GanttTask) : option GanttTask :=
  match groupTasks with
  | [] => None
  | first :: _ =>
      let span := spanOf first groupTasks in
      Some {| id := GROUP_HEADER_PREFIX +:+ pretty groupIndex;
              name := groupLabel;
              start := span.1;
              end_ := span.2;
              progress := 0%Q;
              dependencies := EmptyString;
              custom_class := "gantt-group-header";
              filePath := EmptyString;
              isMilestone := false |}
  end.

End TaskMapperRest.

(** ** gantt-view.ts: building the task list, edits of dates, helpers *)

Module GanttViewRest.
Import JSString JSDate JSNumber DateUtils DateUtilsRest Obsidian TaskMapper
  TaskMapperRest GanttView.

(** A group of the query: its key rendered by [String(group.key)] when
    [hasKey()] holds, and its entries. *)
Record Group := {
  key : option string;
  entries : list BasesEntry
}.

(** [this.data.groupedData]. *)
Definition hasGroups (groups : list Group) : bool :=
  (1 <? length groups)%nat
  || match groups with
     | [g] => match key g with Some _ => true | None => false end
     | _ => false
     end.

Section Host.
Variable tz : Z.
Variable host : string -> option Z.

(** The [for (let i = 0; ...)] loop of [onDataUpdated], from index [i]. *)
Fixpoint groupRows (config : TaskMapperConfig) (i : nat) (groups : list Group)
    : option (list GanttTask) :=
  match groups with
  | [] => Some []
  | group :: rest =>
      groupTasks ← mapEntriesToTasks tz host (entries group) config;
      tail ← groupRows config (S i) rest;
      match groupTasks with
      | [] => Some tail
      | _ :: _ =>
          let label := from_option (fun k => k) "Ungrouped"%string (key group) in
          match createGroupHeaderTask label i groupTasks with
          | Some header => Some (header :: groupTasks ++ tail)
          | None => Some (groupTasks ++ tail)
          end
      end
  end.

(** The task list [onDataUpdated] builds. *)
Definition buildTasks (v : View) (groups : list Group) : option (list GanttTask) :=
  let config := getTaskMapperConfig v in
  if hasGroups groups then groupRows config 0 groups
  else mapEntriesToTasks tz host (data v) config.

(** [this.taskMap.clear(); for (const t of tasks) this.taskMap.set(t.id, t)] *)
Definition indexTasks (tasks : list GanttTask) : gmap string GanttTask :=
  foldl (fun m t => <[id t := t]> m) ∅ tasks.

(** [currentTasks] and [taskMap] after [onDataUpdated], for a view
    whose data and chart element are there; what is drawn is left
    out. *)
Definition onDataUpdated (v : View) (groups : list Group)
    : option (list GanttTask * View) :=
  tasks ← buildTasks v groups;
  Some (tasks,
        {| config := config v; data := data v; allProperties := allProperties v;
           taskMap := indexTasks tasks |}).
End Host.

Definition findTask (v : View) (i : string) : option GanttTask := taskMap v !! i.

(** [getEarliestTaskDate]: [!earliest] holds for [null] and for the
    empty string. *)
Definition getEarliestTaskDate (tasks : list GanttTask) : option string :=
  foldl (fun earliest t =>
           match earliest with
           | Some e =>
               if negb (truthy e) || String.ltb (start t) e
               then Some (start t) else earliest
           | None => Some (start t)
           end)
        None tasks.

(** [s.replace(/c/g, rep)] for one character [c]. *)
Fixpoint replaceAll (c : ascii) (rep : string) (s : string) : string :=
  match s with
  | EmptyString => EmptyString
  | String a r =>
      if Ascii.eqb a c then rep +:+ replaceAll c rep r
      else String a (replaceAll c rep r)
  end.

Definition escapeHtml (str : string) : string :=
  replaceAll "034" "&quot;"
    (replaceAll ">" "&gt;" (replaceAll "<" "&lt;" (replaceAll "&" "&amp;" str))).

(** [updates[k] = v] on an object whose keys keep their insertion order. *)
Fixpoint objSet (updates : list (string * FMValue)) (k : string) (v : FMValue)
    : list (string * FMValue) :=
  match updates with
  | [] => [(k, v)]
  | (k', v') :: r => if String.eqb k' k then (k, v) :: r else (k', v') :: objSet r k v
  end.

(** The [on_date_change] callback, without the drag flag: the vault
    after the write. *)
Definition on_date_change (tz : Z) (v : View) (vault : Vault) (taskId : string)
    (start_ end_ : Z) : Vault :=
  if startsWith GROUP_HEADER_PREFIX taskId then vault
  else match findTask v taskId with
       | None => vault
       | Some ganttTask =>
           let mapperConfig := getTaskMapperConfig v in
           let updates := [] in
           let updates :=
             match startProperty mapperConfig with
             | Some p =>
                 if truthy p
                 then objSet updates (extractPropertyName p)
                        (FMText (formatDateForFrontmatter tz start_ false))
                 else updates
             | None => updates
             end in
           let updates :=
             match endProperty mapperConfig with
             | Some p =>
                 if truthy p
                 then objSet updates (extractPropertyName p)
                        (FMText (formatDateForFrontmatter tz end_ false))
                 else updates
             | None => updates
             end in
           writeFrontmatter vault (filePath ganttTask) updates
       end.

(** [createTaskAtDate]: the callback handed to [createFileForView],
    as a function on the frontmatter of the new note; [None] when no
    start property is configured (a notice is shown instead). *)
Definition createTaskAtDate (tz : Z) (host : string -> option Z) (v : View)
    (dateStr : string) : option (gmap string FMValue -> gmap string FMValue) :=
  let config := getTaskMapperConfig v in
  match startProperty config with
  | Some sp =>
      if truthy sp then
        let formattedDate :=
          match parseObsidianDate tz host (UString dateStr) with
          | Some parsed => formatDateForFrontmatter tz parsed false
          | None => dateStr
          end in
        let propName := extractPropertyName sp in
        Some (fun frontmatter =>
                let frontmatter := <[propName := FMText formattedDate]> frontmatter in
                match endProperty config with
                | Some ep =>
                    if truthy ep
                    then <[extractPropertyName ep := FMText formattedDate]> frontmatter
                    else frontmatter
                | None => frontmatter
                end)
      else None
  | None => None
  end.

(** [createTaskAtToday], where [now] is the date [new Date()] gives:
    the callback for the frontmatter of the new note, as above. *)
Definition createTaskAtToday (tz : Z) (v : View) (now : Z)
    : option (gmap string FMValue -> gmap string FMValue) :=
  let config := getTaskMapperConfig v in
  match startProperty config with
  | Some sp =>
      if truthy sp then
        let today := formatDateForFrontmatter tz now false in
        let propName := extractPropertyName sp in
        Some (fun frontmatter =>
                let frontmatter := <[propName := FMText today]> frontmatter in
                match endProperty config with
                | Some ep =>
                    if truthy ep
                    then <[extractPropertyName ep := FMText today]> frontmatter
                    else frontmatter
                | None => frontmatter
                end)
      else None
  | None => None
  end.

(** [registerContextMenu]: the task whose menu a right click opens,
    given the [data-id] of the bar under the pointer, if any; [None]
    opens the menu of the empty chart. *)
Definition contextMenuTask (v : View) (dataId : option string) : option GanttTask :=
  match dataId with
  | Some taskId =>
      if truthy taskId then
        match findTask v taskId with
        | Some ganttTask =>
            if negb (startsWith GROUP_HEADER_PREFIX (id ganttTask))
            then Some ganttTask else None
        | None => None
        end
      else None
  | None => None
  end.

(** The percentages the task menu offers. *)
Definition progressPresets (v : View) : list Z :=
  if from_option (fun b => b) false (cfg_showProgress (config v))
  then [0; 25; 50; 75; 100] else [].

(** The click on [Set progress: pct%] in the task menu: the vault after
    the write. *)
Definition setProgressFromMenu (v : View) (vault : Vault) (task : GanttTask)
    (pct : Z) : Vault :=
  let mapperConfig := getTaskMapperConfig v in
  match progressProperty mapperConfig with
  | Some prop =>
      if truthy prop then
        writeFrontmatter vault (filePath task) [(extractPropertyName prop, FMNumber pct)]
      else vault
  | None => vault
  end.

End GanttViewRest.

(** ** Further notions for the statements *)

Module AuxRest.
Import JSString JSDate DateUtils Obsidian TaskMapper GanttView Aux.

(** Two decimal digits in front of [rest]. *)
Definition twoChars (n : Z) (rest : string) : string :=
  String (digitChar (n / 10)) (String (digitChar (n mod 10)) rest).

(** The frontmatter key a role is written to, when the role is set. *)
Definition writtenName (p : option BasesPropertyId) : option string :=
  match p with
  | Some q => if truthy q then Some (extractPropertyName q) else None
  | None => None
  end.

(** The characters of a string. *)
Definition chars (s : string) : list ascii := list_ascii_of_string s.

(** What [escapeHtml] writes for one character. *)
Definition entity (c : ascii) : string :=
  if Ascii.eqb c "&" then "&amp;"
  else if Ascii.eqb c "<" then "&lt;"
  else if Ascii.eqb c ">" then "&gt;"
  else if Ascii.eqb c "034" then "&quot;"
  else String c EmptyString.

(** The text of a wiki-link to [target]. *)
Definition wikiLink (target : string) : string := "[[" +:+ target +:+ "]]".

(** A link target the pattern of the mapper accepts: not empty, and
    without [|] and closing bracket. *)
Definition linkTarget (target : string) : Prop :=
  target ≠ EmptyString
  ∧ Forall (fun c => c ≠ "]"%char ∧ c ≠ "|"%char) (chars target).

(** A row of the chart that is a group header, told by its class. *)
Definition isHeaderRow (t : GanttTask) : bool :=
  String.eqb (custom_class t) "gantt-group-header".

(** In [out], every dependency of a task is the id of a task before it. *)
Definition dependenciesFirst (deps : GanttTask -> list string)
    (out : list GanttTask) : Prop :=
  ∀ pre t post, out = pre ++ t :: post -> ∀ d, d ∈ deps t -> d ∈ id <$> pre.

(** A chain: [C] waits for [B], [B] waits for [A]; the start dates run
    the other way. *)
Definition chain : list GanttTask :=
  [task "C" "2026-01-01" "B"; task "B" "2026-01-02" "A"; task "A" "2026-01-03" ""].

Definition chainRank (i : string) : nat :=
  if String.eqb i "A" then 0%nat else if String.eqb i "B" then 1%nat else 2%nat.

End AuxRest.

(** * Properties *)

(** ** Calendar arithmetic *)

Section Calendar.
Import JSDate.

Lemma div_step4 x :
  (x + 1) / 4 = x / 4 + (if (x + 1) mod 4 =? 0 then 1 else 0).
Proof. destruct (Z.eqb_spec ((x + 1) mod 4) 0); Z.div_mod_to_equations; lia. Qed.

Lemma div_step100 x :
  (x + 1) / 100 = x / 100 + (if (x + 1) mod 100 =? 0 then 1 else 0).
Proof. destruct (Z.eqb_spec ((x + 1) mod 100) 0); Z.div_mod_to_equations; lia. Qed.

Lemma div_step400 x :
  (x + 1) / 400 = x / 400 + (if (x + 1) mod 400 =? 0 then 1 else 0).
Proof. destruct (Z.eqb_spec ((x + 1) mod 400) 0); Z.div_mod_to_equations; lia. Qed.

(** A year is as long as [DaysInYear] says. *)
Lemma DayFromYear_succ y : DayFromYear (y + 1) = DayFromYear y + DaysInYear y.
Proof.
  unfold DayFromYear, DaysInYear, isLeapYear.
  replace (y + 1 - 1969) with (y - 1969 + 1) by lia.
  replace (y + 1 - 1901) with (y - 1901 + 1) by lia.
  replace (y + 1 - 1601) with (y - 1601 + 1) by lia.
  rewrite div_step4, div_step100, div_step400.
  replace ((y - 1969 + 1) mod 4) with (y mod 4)
    by (Z.div_mod_to_equations; lia).
  replace ((y - 1901 + 1) mod 100) with (y mod 100)
    by (Z.div_mod_to_equations; lia).
  replace ((y - 1601 + 1) mod 400) with (y mod 400)
    by (Z.div_mod_to_equations; lia).
  assert (H400 : y mod 400 = 0 -> y mod 100 = 0)
    by (Z.div_mod_to_equations; lia).
  assert (H100 : y mod 100 = 0 -> y mod 4 = 0)
    by (Z.div_mod_to_equations; lia).
  destruct (Z.eqb_spec (y mod 4) 0), (Z.eqb_spec (y mod 100) 0),
    (Z.eqb_spec (y mod 400) 0); cbn [andb orb negb]; lia.
Qed.

Lemma DaysInYear_range y : 365 <= DaysInYear y <= 366.
Proof. unfold DaysInYear. destruct (isLeapYear y); lia. Qed.

Lemma DayFromYear_bounds y :
  146097 * (y - 1970) - 607 <= 400 * DayFromYear y <= 146097 * (y - 1970) + 593.
Proof. unfold DayFromYear. Z.div_mod_to_equations. lia. Qed.

Lemma DayFromYear_mono y1 y2 : y1 <= y2 -> DayFromYear y1 <= DayFromYear y2.
Proof.
  intros H. replace y2 with (y1 + Z.of_nat (Z.to_nat (y2 - y1))) by lia.
  induction (Z.to_nat (y2 - y1)) as [|n IH].
  - replace (y1 + Z.of_nat 0) with y1 by lia. lia.
  - replace (y1 + Z.of_nat (S n)) with ((y1 + Z.of_nat n) + 1) by lia.
    rewrite DayFromYear_succ. pose proof (DaysInYear_range (y1 + Z.of_nat n)). lia.
Qed.

(** [YearFromDay] finds the year a day falls in. *)
Lemma YearFromDay_unique y d :
  DayFromYear y <= d < DayFromYear (y + 1) -> YearFromDay d = y.
Proof.
  intros [H1 H2]. unfold YearFromDay.
  set (y0 := 1970 + 400 * d / 146097).
  assert (Hy : y0 - 1 <= y <= y0 + 1).
  { pose proof (DayFromYear_bounds y). pose proof (DayFromYear_bounds (y + 1)).
    subst y0. Z.div_mod_to_equations. lia. }
  destruct (Z.leb_spec (DayFromYear (y0 + 1)) d) as [L1|L1].
  - assert (~ y + 1 <= y0 + 1); [| lia].
    intros C. apply DayFromYear_mono in C. lia.
  - destruct (Z.leb_spec (DayFromYear y0) d) as [L2|L2].
    + assert (~ y + 1 <= y0) by (intros C; apply DayFromYear_mono in C; lia).
      assert (~ y0 + 1 <= y) by (intros C; apply DayFromYear_mono in C; lia).
      lia.
    + assert (~ y0 <= y) by (intros C; apply DayFromYear_mono in C; lia). lia.
Qed.

Ltac split_ltb :=
  repeat match goal with
         | |- context [?a <? ?b] => destruct (Z.ltb_spec a b)
         end.

(** Evaluate [monthStart] at the closed month numbers in sight. *)
Ltac eval_months :=
  repeat match goal with
         | |- context [monthStart ?l ?e] =>
             let v := eval vm_compute in e in
             progress change (monthStart l e) with (monthStart l v)
         | H : context [monthStart ?l ?e] |- _ =>
             let v := eval vm_compute in e in
             progress change (monthStart l e) with (monthStart l v) in H
         end;
  cbv [monthStart] in *.

Lemma monthOfDayInYear_range leap d : 0 <= monthOfDayInYear leap d <= 11.
Proof. unfold monthOfDayInYear. repeat case_match; lia. Qed.

Lemma monthOfDayInYear_start leap m d :
  0 <= leap <= 1 -> 0 <= m <= 11 ->
  1 <= d <= monthStart leap (m + 1) - monthStart leap m ->
  monthOfDayInYear leap (monthStart leap m + d - 1) = m.
Proof.
  intros Hl Hm Hd.
  assert (Hc : m = 0 \/ m = 1 \/ m = 2 \/ m = 3 \/ m = 4 \/ m = 5 \/ m = 6
               \/ m = 7 \/ m = 8 \/ m = 9 \/ m = 10 \/ m = 11) by lia.
  unfold monthOfDayInYear.
  repeat (destruct Hc as [-> | Hc]; [eval_months; split_ltb; lia |]).
  subst m. eval_months. split_ltb; lia.
Qed.

(** The first of a month plus [dt - 1] days. *)
Lemma MakeDay_in_year y m dt :
  0 <= m <= 11 ->
  MakeDay y m dt
  = DayFromYear y + monthStart (if isLeapYear y then 1 else 0) m + dt - 1.
Proof.
  intros Hm. unfold MakeDay.
  replace (m / 12) with 0 by (Z.div_mod_to_equations; lia).
  replace (m mod 12) with m by (Z.div_mod_to_equations; lia).
  now rewrite Z.add_0_r.
Qed.

Lemma Day_MakeDate day time :
  0 <= time < msPerDay -> Day (MakeDate day time) = day.
Proof.
  unfold Day, MakeDate, msPerDay. intros H. Z.div_mod_to_equations. lia.
Qed.

(** Year, month and day of a date built from in-range fields. *)
Lemma civil_of_MakeDay y m d time :
  1 <= m <= 12 -> 1 <= d <= DaysInMonth y (m - 1) ->
  0 <= time < msPerDay ->
  let t := MakeDate (MakeDay y (m - 1) d) time in
  YearFromTime t = y /\ MonthFromTime t = m - 1 /\ DateFromTime t = d.
Proof.
  intros Hm Hd Ht t.
  assert (HD : Day t = MakeDay y (m - 1) d) by (apply Day_MakeDate; exact Ht).
  rewrite MakeDay_in_year in HD by lia.
  set (leap := if isLeapYear y then 1 else 0) in *.
  assert (Hleap : 0 <= leap <= 1) by (subst leap; destruct (isLeapYear y); lia).
  unfold DaysInMonth in Hd. fold leap in Hd.
  replace (m - 1 + 1) with m in Hd by lia.
  assert (Hbound : 0 <= monthStart leap (m - 1) /\ monthStart leap m <= DaysInYear y).
  { unfold DaysInYear. subst leap.
    assert (Hc : m = 1 \/ m = 2 \/ m = 3 \/ m = 4 \/ m = 5 \/ m = 6 \/ m = 7
                 \/ m = 8 \/ m = 9 \/ m = 10 \/ m = 11 \/ m = 12) by lia.
    destruct (isLeapYear y);
      repeat (destruct Hc as [-> | Hc]; [eval_months; lia |]);
      subst m; eval_months; lia. }
  assert (HY : YearFromTime t = y).
  { unfold YearFromTime. rewrite HD. apply YearFromDay_unique.
    rewrite DayFromYear_succ. lia. }
  assert (HL : InLeapYear t = leap) by (unfold InLeapYear; now rewrite HY).
  assert (HW : DayWithinYear t = monthStart leap (m - 1) + d - 1)
    by (unfold DayWithinYear; rewrite HY, HD; lia).
  assert (HM : MonthFromTime t = m - 1).
  { unfold MonthFromTime. rewrite HL, HW.
    apply monthOfDayInYear_start; try lia.
    replace (m - 1 + 1) with m by lia. lia. }
  repeat split; [exact HY | exact HM |].
  unfold DateFromTime. rewrite HL, HM, HW. lia.
Qed.

(** [d.setDate(d.getDate() + 1)] moves an instant by exactly one day,
    when that stays in the range of time values. *)
Lemma setDate_next tz d :
  setDate tz d (getDate tz d + 1) = TimeClip (d + msPerDay).
Proof.
  unfold setDate, getDate, UTC, LocalTime. f_equal.
  set (t := d + tz).
  rewrite MakeDay_in_year by apply monthOfDayInYear_range.
  unfold DateFromTime, DayWithinYear, InLeapYear, MakeDate.
  pose proof (Z.div_mod t msPerDay ltac:(unfold msPerDay; lia)) as E.
  unfold TimeWithinDay, Day in *. lia.
Qed.

Lemma localDay_next tz d : localDay tz (d + msPerDay) = localDay tz d + 1.
Proof.
  unfold localDay, LocalTime, Day, msPerDay. Z.div_mod_to_equations. lia.
Qed.

Lemma localDay_mono tz d1 d2 : d1 <= d2 -> localDay tz d1 <= localDay tz d2.
Proof.
  unfold localDay, LocalTime, Day, msPerDay. intros H.
  apply Z.div_le_mono; lia.
Qed.
End Calendar.

(** ** Date strings *)

Section DateStrings.
Import JSString JSDate DateUtils Aux.

Lemma digit_facts c :
  isDigit c = true ->
  digitChar (digitVal c) = c /\ 0 <= digitVal c <= 9 /\ isWhiteSpace c = false.
Proof.
  destruct c as [[] [] [] [] [] [] [] []]; vm_compute; intros H;
    try discriminate H; repeat split; try reflexivity; intros E; discriminate E.
Qed.

Lemma isChar_eq c x : isChar c x = true -> x = c.
Proof. unfold isChar. apply Ascii.eqb_eq. Qed.

Lemma two_digits n :
  0 <= n <= 99 ->
  padStart2 (pretty n)
  = String (digitChar (n / 10)) (String (digitChar (n mod 10)) EmptyString).
Proof.
  intros Hn.
  assert (H : forallb (fun k : nat =>
              String.eqb (padStart2 (pretty (Z.of_nat k)))
                (String (digitChar (Z.of_nat k / 10))
                   (String (digitChar (Z.of_nat k mod 10)) EmptyString)))
            (seq 0 100) = true) by (vm_compute; reflexivity).
  rewrite forallb_forall in H.
  specialize (H (Z.to_nat n)). rewrite Z2Nat.id in H by lia.
  apply String.eqb_eq, H, in_seq. lia.
Qed.

Lemma pretty_char_digit k : (k < 10)%N -> pretty_N_char k = digitChar (Z.of_N k).
Proof.
  intros H.
  assert (Hc : (k = 0 \/ k = 1 \/ k = 2 \/ k = 3 \/ k = 4 \/ k = 5 \/ k = 6
                \/ k = 7 \/ k = 8 \/ k = 9)%N) by lia.
  repeat (destruct Hc as [-> | Hc]; [reflexivity|]). subst k. reflexivity.
Qed.

(** A year from 1000 to 9999 prints as its four digits. *)
Lemma four_digits n :
  1000 <= n <= 9999 ->
  pretty n
  = String (digitChar (n / 1000)) (String (digitChar (n / 100 mod 10))
      (String (digitChar (n / 10 mod 10))
         (String (digitChar (n mod 10)) EmptyString))).
Proof.
  intros Hn. destruct n as [|p|p]; try lia.
  change (pretty (Z.pos p)) with (pretty (N.pos p)).
  unfold pretty, pretty_N. rewrite decide_False by discriminate.
  set (x := N.pos p).
  assert (Hx : Z.of_N x = Z.pos p) by reflexivity.
  rewrite pretty_N_go_step by lia.
  rewrite pretty_N_go_step by (zify; Z.div_mod_to_equations; lia).
  rewrite pretty_N_go_step by (zify; Z.div_mod_to_equations; lia).
  rewrite pretty_N_go_step by (zify; Z.div_mod_to_equations; lia).
  replace ((((x `div` 10) `div` 10) `div` 10) `div` 10)%N with 0%N
    by (zify; Z.div_mod_to_equations; lia).
  rewrite pretty_N_go_0.
  rewrite !pretty_char_digit by (apply N.mod_lt; discriminate).
  rewrite <- Hx. clearbody x.
  repeat f_equal; rewrite ?N2Z.inj_mod, ?N2Z.inj_div; change (Z.of_N 10) with 10;
    Z.div_mod_to_equations; lia.
Qed.

Lemma num2_digits a b n :
  num2 a b = Some n ->
  0 <= n <= 99 /\ digitChar (n / 10) = a /\ digitChar (n mod 10) = b.
Proof.
  unfold num2. destruct (isDigit a) eqn:Ha, (isDigit b) eqn:Hb; try discriminate.
  intros [= <-].
  destruct (digit_facts a Ha) as (Ea & Ra & _), (digit_facts b Hb) as (Eb & Rb & _).
  replace ((10 * digitVal a + digitVal b) / 10) with (digitVal a)
    by (Z.div_mod_to_equations; lia).
  replace ((10 * digitVal a + digitVal b) mod 10) with (digitVal b)
    by (Z.div_mod_to_equations; lia).
  repeat split; [lia | lia | exact Ea | exact Eb].
Qed.

Lemma num4_digits a b c d n :
  num4 a b c d = Some n ->
  0 <= n <= 9999 /\ digitChar (n / 1000) = a /\ digitChar (n / 100 mod 10) = b
  /\ digitChar (n / 10 mod 10) = c /\ digitChar (n mod 10) = d.
Proof.
  unfold num4.
  destruct (isDigit a) eqn:Ha, (isDigit b) eqn:Hb, (isDigit c) eqn:Hc,
    (isDigit d) eqn:Hd; try discriminate.
  intros [= <-].
  destruct (digit_facts a Ha) as (Ea & Ra & _), (digit_facts b Hb) as (Eb & Rb & _),
    (digit_facts c Hc) as (Ec & Rc & _), (digit_facts d Hd) as (Ed & Rd & _).
  set (n := 1000 * digitVal a + 100 * digitVal b + 10 * digitVal c + digitVal d).
  replace (n / 1000) with (digitVal a) by (subst n; Z.div_mod_to_equations; lia).
  replace (n / 100 mod 10) with (digitVal b) by (subst n; Z.div_mod_to_equations; lia).
  replace (n / 10 mod 10) with (digitVal c) by (subst n; Z.div_mod_to_equations; lia).
  replace (n mod 10) with (digitVal d) by (subst n; Z.div_mod_to_equations; lia).
  repeat split; try assumption; subst n; lia.
Qed.

Lemma num_isDigit2 a b n : num2 a b = Some n -> isDigit a = true /\ isDigit b = true.
Proof. unfold num2. destruct (isDigit a), (isDigit b); intros; try discriminate; auto. Qed.

Lemma num_isDigit4 a b c d n :
  num4 a b c d = Some n ->
  isDigit a = true /\ isDigit b = true /\ isDigit c = true /\ isDigit d = true.
Proof.
  unfold num4. destruct (isDigit a), (isDigit b), (isDigit c), (isDigit d);
    intros; try discriminate; auto.
Qed.

(** Year, month and day of an instant depend on its day only. *)
Lemma civil_of_Day t1 t2 :
  Day t1 = Day t2 ->
  YearFromTime t1 = YearFromTime t2 /\ MonthFromTime t1 = MonthFromTime t2
  /\ DateFromTime t1 = DateFromTime t2.
Proof.
  intros E.
  assert (HY : YearFromTime t1 = YearFromTime t2) by (unfold YearFromTime; now rewrite E).
  assert (HL : InLeapYear t1 = InLeapYear t2) by (unfold InLeapYear; now rewrite HY).
  assert (HW : DayWithinYear t1 = DayWithinYear t2)
    by (unfold DayWithinYear; now rewrite HY, E).
  assert (HM : MonthFromTime t1 = MonthFromTime t2)
    by (unfold MonthFromTime; now rewrite HL, HW).
  repeat split; [exact HY | exact HM |].
  unfold DateFromTime. now rewrite HL, HM, HW.
Qed.

(** The canonical text of an instant is the text of its local day. *)
Lemma formatDateForGantt_day tz d :
  formatDateForGantt tz d = formatDay (localDay tz d).
Proof.
  assert (E : Day (LocalTime tz d) = Day (LocalTime 0 (localDay tz d * msPerDay))).
  { unfold localDay, LocalTime, Day, msPerDay. Z.div_mod_to_equations. lia. }
  destruct (civil_of_Day _ _ E) as (HY & HM & HD).
  unfold formatDay, formatDateForGantt, getFullYear, getMonth, getDate.
  now rewrite HY, HM, HD.
Qed.

Lemma formatDay_MakeDay y m d :
  1 <= m <= 12 -> 1 <= d <= DaysInMonth y (m - 1) ->
  formatDay (MakeDay y (m - 1) d)
  = pretty y +:+ "-" +:+ padStart2 (pretty m) +:+ "-" +:+ padStart2 (pretty d).
Proof.
  intros Hm Hd.
  destruct (civil_of_MakeDay y m d 0 Hm Hd ltac:(unfold msPerDay; lia))
    as (HY & HM & HD).
  unfold formatDay, formatDateForGantt, getFullYear, getMonth, getDate, LocalTime.
  unfold MakeDate in HY, HM, HD.
  rewrite HY, HM, HD. now replace (m - 1 + 1) with m by lia.
Qed.

Section Host.
Variable tz : Z.
Variable host : string -> option Z.

(** A date-only string that names a calendar day parses to the
    midnight that starts that day in local time. *)
Lemma parse_calendarDate s y m d :
  calendarDate s = Some (y, m, d) ->
  parseObsidianDate tz host (UString s)
  = Some (UTC tz (MakeDate (MakeDay y (m - 1) d) 0)).
Proof.
  intros H. unfold calendarDate in H.
  destruct s as [ | y1 [ | y2 [ | y3 [ | y4 [ | c1 [ | m1 [ | m2 [ | c2 [ | d1 [ | d2 [ | ]]]]]]]]]]];
    try discriminate H.
  destruct (isChar "-" c1) eqn:Hc1; [|discriminate H].
  destruct (isChar "-" c2) eqn:Hc2; [|discriminate H].
  cbn [andb] in H.
  destruct (num4 y1 y2 y3 y4) as [y'|] eqn:Hy; [|discriminate H].
  destruct (num2 m1 m2) as [m'|] eqn:Hm; [|discriminate H].
  destruct (num2 d1 d2) as [d'|] eqn:Hd; [|discriminate H].
  destruct ((1 <=? m') && (m' <=? 12) && (1 <=? d')
            && (d' <=? DaysInMonth y' (m' - 1))) eqn:Hr; [|discriminate H].
  injection H as -> -> ->.
  destruct (num_isDigit4 _ _ _ _ _ Hy) as (D1 & D2 & D3 & D4).
  destruct (num_isDigit2 _ _ _ Hm) as (D5 & D6).
  destruct (num_isDigit2 _ _ _ Hd) as (D7 & D8).
  destruct (digit_facts _ D1) as (_ & _ & W1), (digit_facts _ D8) as (_ & _ & W8).
  unfold parseObsidianDate.
  unfold trim. cbn [trimStart]. rewrite W1.
  unfold trimEnd, String.rev. cbn [String.rev_app trimStart]. rewrite W8.
  cbn [String.rev_app truthy negb].
  cbn [isDateOnly]. rewrite D1, D2, D3, D4, D5, D6, D7, D8, Hc1, Hc2.
  cbn [andb]. unfold newDateOfString.
  cbv [String.append]. cbn [isoLocalDateTime].
  rewrite Hc1, Hc2, Hy, Hm, Hd. cbn [andb].
  change (isChar "T" "T" && isChar ":" ":") with true. cbn iota.
  change (num2 "0" "0") with (Some 0).
  change (isoSeconds ":00") with (Some 0).
  cbn iota. rewrite Hr. reflexivity.
Qed.

(** Round trip for the years that print with four digits. *)
Lemma format_parse_roundtrip s y m d :
  calendarDate s = Some (y, m, d) -> 1000 <= y ->
  exists dt, parseObsidianDate tz host (UString s) = Some dt
             /\ TimeWithinDay (LocalTime tz dt) = 0
             /\ formatDateForGantt tz dt = s.
Proof.
  intros H Hy1000.
  exists (UTC tz (MakeDate (MakeDay y (m - 1) d) 0)).
  split; [now apply parse_calendarDate |].
  split.
  { unfold UTC, LocalTime, TimeWithinDay, MakeDate, msPerDay.
    Z.div_mod_to_equations. lia. }
  rewrite formatDateForGantt_day.
  replace (localDay tz (UTC tz (MakeDate (MakeDay y (m - 1) d) 0)))
    with (MakeDay y (m - 1) d)
    by (unfold localDay, LocalTime, UTC, Day, MakeDate, msPerDay;
        Z.div_mod_to_equations; lia).
  unfold calendarDate in H.
  destruct s as [ | y1 [ | y2 [ | y3 [ | y4 [ | c1 [ | m1 [ | m2 [ | c2 [ | d1 [ | d2 [ | ]]]]]]]]]]];
    try discriminate H.
  destruct (isChar "-" c1) eqn:Hc1; [|discriminate H].
  destruct (isChar "-" c2) eqn:Hc2; [|discriminate H].
  cbn [andb] in H.
  destruct (num4 y1 y2 y3 y4) as [y'|] eqn:Hy; [|discriminate H].
  destruct (num2 m1 m2) as [m'|] eqn:Hm; [|discriminate H].
  destruct (num2 d1 d2) as [d'|] eqn:Hd; [|discriminate H].
  destruct ((1 <=? m') && (m' <=? 12) && (1 <=? d')
            && (d' <=? DaysInMonth y' (m' - 1))) eqn:Hr; [|discriminate H].
  injection H as -> -> ->.
  apply andb_prop in Hr as [Hr Hr4]. apply andb_prop in Hr as [Hr Hr3].
  apply andb_prop in Hr as [Hr1 Hr2].
  apply Z.leb_le in Hr1, Hr2, Hr3, Hr4.
  rewrite formatDay_MakeDay by lia.
  destruct (num4_digits _ _ _ _ _ Hy) as (Ry & E1 & E2 & E3 & E4).
  destruct (num2_digits _ _ _ Hm) as (Rm & E5 & E6).
  destruct (num2_digits _ _ _ Hd) as (Rd & E7 & E8).
  rewrite four_digits by lia. rewrite !two_digits by lia.
  rewrite E1, E2, E3, E4, E5, E6, E7, E8.
  apply isChar_eq in Hc1, Hc2. subst c1 c2. reflexivity.
Qed.
End Host.
End DateStrings.

(** ** The order of canonical date strings *)

Section DateOrder.
Import JSString JSDate DateUtils Aux.

Ltac split_lt :=
  repeat match goal with
         | |- context [?a <? ?b] => destruct (Z.ltb_spec a b)
         | H : context [?a <? ?b] |- _ => destruct (Z.ltb_spec a b)
         end.

(** [YearFromDay] is the year the day falls in. *)
Lemma YearFromDay_spec d :
  DayFromYear (YearFromDay d) <= d < DayFromYear (YearFromDay d + 1).
Proof.
  unfold YearFromDay. set (y0 := 1970 + 400 * d / 146097).
  assert (Hd : 146097 * (y0 - 1970) <= 400 * d < 146097 * (y0 - 1970) + 146097)
    by (subst y0; Z.div_mod_to_equations; lia).
  pose proof (DayFromYear_bounds (y0 - 1)) as B0.
  pose proof (DayFromYear_bounds (y0 + 2)) as B2.
  destruct (Z.leb_spec (DayFromYear (y0 + 1)) d) as [L1|L1].
  - replace (y0 + 1 + 1) with (y0 + 2) by lia. lia.
  - destruct (Z.leb_spec (DayFromYear y0) d) as [L2|L2]; [lia|].
    replace (y0 - 1 + 1) with y0 by lia. lia.
Qed.

Lemma YearFromDay_mono a b : a <= b -> YearFromDay a <= YearFromDay b.
Proof.
  intros H. pose proof (YearFromDay_spec a) as Ha. pose proof (YearFromDay_spec b) as Hb.
  destruct (Z.le_gt_cases (YearFromDay a) (YearFromDay b)) as [|C]; [assumption|].
  assert (DayFromYear (YearFromDay b + 1) <= DayFromYear (YearFromDay a))
    by (apply DayFromYear_mono; lia).
  lia.
Qed.

Lemma monthOfDayInYear_mono leap w1 w2 :
  0 <= leap <= 1 -> w1 <= w2 ->
  monthOfDayInYear leap w1 <= monthOfDayInYear leap w2.
Proof.
  intros Hl Hw. unfold monthOfDayInYear.
  repeat match goal with
         | |- context [w1 <? ?b] => destruct (Z.ltb_spec w1 b)
         end; split_lt; lia.
Qed.

(** The day of the month counts from the first day of its month. *)
Lemma monthOfDayInYear_bounds leap w :
  0 <= leap <= 1 -> 0 <= w < 365 + leap ->
  let m := monthOfDayInYear leap w in
  0 <= m <= 11 ∧ monthStart leap m <= w < monthStart leap m + 31.
Proof.
  intros Hl Hw. cbn zeta. unfold monthOfDayInYear. split_lt; cbn [monthStart]; lia.
Qed.

Lemma civil_range n y m d :
  civil n = (y, m, d) ->
  y = YearFromDay n ∧ 1 <= m <= 12 ∧ 1 <= d <= 31.
Proof.
  unfold civil, DateFromTime, MonthFromTime, DayWithinYear, InLeapYear, YearFromTime.
  replace (Day (n * msPerDay)) with n
    by (unfold Day, msPerDay; Z.div_mod_to_equations; lia).
  intros [= <- <- <-].
  pose proof (YearFromDay_spec n) as Hy. rewrite DayFromYear_succ in Hy.
  unfold DaysInYear in Hy.
  set (leap := if isLeapYear (YearFromDay n) then 1 else 0) in *.
  assert (Hl : 0 <= leap <= 1) by (subst leap; destruct (isLeapYear _); lia).
  assert (Hw : 0 <= n - DayFromYear (YearFromDay n) < 365 + leap)
    by (subst leap; destruct (isLeapYear _); lia).
  pose proof (monthOfDayInYear_bounds leap _ Hl Hw) as Hm. cbn zeta in Hm.
  split; [reflexivity|]. lia.
Qed.

(** Later days have later (year, month, day) triples. *)
Lemma civil_mono a b ya ma da yb mb db :
  a <= b -> civil a = (ya, ma, da) -> civil b = (yb, mb, db) ->
  ya * 10000 + ma * 100 + da <= yb * 10000 + mb * 100 + db.
Proof.
  intros Hab Ha Hb.
  destruct (civil_range _ _ _ _ Ha) as (Eya & Rma & Rda).
  destruct (civil_range _ _ _ _ Hb) as (Eyb & Rmb & Rdb).
  pose proof (YearFromDay_mono a b Hab) as Hy. rewrite <- Eya, <- Eyb in Hy.
  destruct (Z.eq_dec ya yb) as [Ey|Ney]; [|lia].
  revert Ha Hb.
  unfold civil, DateFromTime, MonthFromTime, DayWithinYear, InLeapYear, YearFromTime.
  replace (Day (a * msPerDay)) with a
    by (unfold Day, msPerDay; Z.div_mod_to_equations; lia).
  replace (Day (b * msPerDay)) with b
    by (unfold Day, msPerDay; Z.div_mod_to_equations; lia).
  rewrite <- Eya, <- Eyb, <- Ey.
  set (leap := if isLeapYear ya then 1 else 0).
  assert (Hl : 0 <= leap <= 1) by (subst leap; destruct (isLeapYear _); lia).
  intros [= <- <-] [= <- <-].
  pose proof (monthOfDayInYear_mono leap (a - DayFromYear ya) (b - DayFromYear ya)
                Hl ltac:(lia)) as Hm.
  destruct (Z.eq_dec (monthOfDayInYear leap (a - DayFromYear ya))
                     (monthOfDayInYear leap (b - DayFromYear ya))) as [Em|Nem].
  - rewrite Em. lia.
  - lia.
Qed.

Lemma digitChar_compare i j :
  0 <= i <= 9 -> 0 <= j <= 9 ->
  Ascii.compare (digitChar i) (digitChar j) = (i ?= j).
Proof.
  intros Hi Hj.
  assert (Ci : i = 0 \/ i = 1 \/ i = 2 \/ i = 3 \/ i = 4 \/ i = 5 \/ i = 6 \/ i = 7
               \/ i = 8 \/ i = 9) by lia.
  assert (Cj : j = 0 \/ j = 1 \/ j = 2 \/ j = 3 \/ j = 4 \/ j = 5 \/ j = 6 \/ j = 7
               \/ j = 8 \/ j = 9) by lia.
  repeat (destruct Ci as [-> | Ci]);
    repeat (destruct Cj as [-> | Cj]); try subst i; try subst j; reflexivity.
Qed.

(** With four-digit years the order of the texts is the order of the
    dates. *)
Lemma tenChars_leb y1 m1 d1 y2 m2 d2 :
  1000 <= y1 <= 9999 -> 1000 <= y2 <= 9999 ->
  0 <= m1 <= 99 -> 0 <= m2 <= 99 -> 0 <= d1 <= 99 -> 0 <= d2 <= 99 ->
  y1 * 10000 + m1 * 100 + d1 <= y2 * 10000 + m2 * 100 + d2 ->
  String.leb (tenChars y1 m1 d1) (tenChars y2 m2 d2) = true.
Proof.
  intros Hy1 Hy2 Hm1 Hm2 Hd1 Hd2 Hle.
  unfold String.leb, tenChars. cbn [String.compare].
  rewrite !digitChar_compare by (Z.div_mod_to_equations; lia).
  change (Ascii.compare "-" "-") with Eq. cbn iota.
  repeat match goal with
         | |- context [?a ?= ?b] => destruct (Z.compare_spec a b)
         end; try reflexivity; exfalso; Z.div_mod_to_equations; lia.
Qed.

Lemma formatDay_tenChars n y m d :
  civil n = (y, m, d) -> 1000 <= y <= 9999 -> formatDay n = tenChars y m d.
Proof.
  intros Hc Hy. destruct (civil_range _ _ _ _ Hc) as (_ & Rm & Rd).
  unfold civil in Hc. injection Hc as <- <- <-.
  unfold formatDay, formatDateForGantt, getFullYear, getMonth, getDate, LocalTime.
  rewrite Z.add_0_r. rewrite four_digits by assumption.
  rewrite !two_digits by lia. reflexivity.
Qed.

(** The canonical texts of two days with four-digit years compare as
    the days do. *)
Lemma formatDay_leb a b :
  a <= b -> 1000 <= YearFromDay a -> YearFromDay b <= 9999 ->
  String.leb (formatDay a) (formatDay b) = true.
Proof.
  intros Hab Ha Hb.
  destruct (civil a) as [[ya ma] da] eqn:Ea, (civil b) as [[yb mb] db] eqn:Eb.
  destruct (civil_range _ _ _ _ Ea) as (Eya & Rma & Rda).
  destruct (civil_range _ _ _ _ Eb) as (Eyb & Rmb & Rdb).
  pose proof (YearFromDay_mono a b Hab) as Hy.
  rewrite (formatDay_tenChars a ya ma da Ea), (formatDay_tenChars b yb mb db Eb)
    by lia.
  apply tenChars_leb; try lia.
  exact (civil_mono a b _ _ _ _ _ _ Hab Ea Eb).
Qed.
End DateOrder.

(** ** The dependency sorter *)

Section SortFacts.
Import JSString TaskMapper Aux.

Lemma insertByStart_perm t l : insertByStart t l ≡ₚ t :: l.
Proof.
  induction l as [|x r IH]; [reflexivity|]. cbn [insertByStart].
  destruct (localeLe (start t) (start x)); [reflexivity|].
  rewrite IH. apply Permutation_swap.
Qed.

(** Sorting rearranges and loses nothing. *)
Lemma sortByStart_perm l : sortByStart l ≡ₚ l.
Proof.
  induction l as [|t r IH]; [reflexivity|]. cbn [sortByStart].
  rewrite insertByStart_perm. now rewrite IH.
Qed.






Lemma sortByStart_nil_inv l : sortByStart l = [] -> l = [].
Proof.
  intros E. apply Permutation_nil_r. rewrite <- E. symmetry. apply sortByStart_perm.
Qed.

Lemma filter_ext_elem {A} (P1 P2 : A -> Prop)
    `{!∀ x, Decision (P1 x), !∀ x, Decision (P2 x)} (l : list A) :
  (∀ x, x ∈ l -> (P1 x ↔ P2 x)) -> filter P1 l = filter P2 l.
Proof.
  induction l as [|a l IH]; intros HP; [reflexivity|].
  assert (Ha : P1 a ↔ P2 a) by (apply HP; left).
  assert (Hl : filter P1 l = filter P2 l)
    by (apply IH; intros x Hx; apply HP; now right).
  destruct (decide (P1 a)).
  - rewrite !filter_cons_True by tauto. now rewrite Hl.
  - rewrite !filter_cons_False by tauto. exact Hl.
Qed.

(** *** Sets in insertion order *)

Lemma setAdd_elem s x y : y ∈ setAdd s x ↔ y ∈ s ∨ y = x.
Proof.
  unfold setAdd. case_bool_decide as H.
  - split; [auto|]. intros [?| ->]; assumption.
  - rewrite elem_of_app, list_elem_of_singleton. reflexivity.
Qed.

Lemma setAdd_NoDup s x : NoDup s -> NoDup (setAdd s x).
Proof.
  unfold setAdd. case_bool_decide as H; [auto|]. intros Hs.
  apply NoDup_app. repeat split; [assumption | | apply NoDup_singleton].
  intros y Hy ->%list_elem_of_singleton. contradiction.
Qed.

Lemma foldl_setAdd_elem l s y : y ∈ foldl setAdd s l ↔ y ∈ s ∨ y ∈ l.
Proof.
  revert s. induction l as [|x l IH]; intros s; cbn [foldl].
  - rewrite elem_of_nil. tauto.
  - rewrite IH, setAdd_elem, elem_of_cons. tauto.
Qed.

Lemma foldl_setAdd_NoDup l s : NoDup s -> NoDup (foldl setAdd s l).
Proof.
  revert s. induction l as [|x l IH]; intros s Hs; cbn [foldl]; [assumption|].
  apply IH, setAdd_NoDup, Hs.
Qed.

Lemma foldl_setAdd_distinct l s : NoDup (s ++ l) -> foldl setAdd s l = s ++ l.
Proof.
  revert s. induction l as [|x l IH]; intros s Hs; cbn [foldl].
  - now rewrite app_nil_r.
  - assert (Hx : x ∉ s).
    { apply NoDup_app in Hs as (_ & Hd & _). intros Hin. apply (Hd x Hin). left. }
    unfold setAdd. rewrite bool_decide_eq_false_2 by assumption.
    rewrite IH; rewrite <- app_assoc; [reflexivity | exact Hs].
Qed.

(** *** Maps filled by a loop of [set] calls *)

Section FoldInsert.
Context {V : Type} (v : GanttTask -> V).

Local Abbreviation ins := (putTask v).

Lemma foldl_insert_notin l m i :
  i ∉ id <$> l -> foldl ins m l !! i = m !! i.
Proof.
  revert m. induction l as [|a l IH]; intros m Hi; cbn [foldl]; [reflexivity|].
  rewrite fmap_cons, not_elem_of_cons in Hi. destruct Hi as [Hne Hi].
  rewrite IH by assumption. unfold putTask. now rewrite lookup_insert_ne.
Qed.

Lemma foldl_insert_in l m i :
  i ∈ id <$> l -> ∃ t, t ∈ l ∧ id t = i ∧ foldl ins m l !! i = Some (v t).
Proof.
  revert m. induction l as [|a l IH]; intros m Hi; cbn [foldl].
  - rewrite fmap_nil in Hi. now apply elem_of_nil in Hi.
  - destruct (decide (i ∈ id <$> l)) as [Hin|Hout].
    + destruct (IH (ins m a) Hin) as (t & Ht & Hid & Hl).
      exists t. split; [now right | auto].
    + rewrite fmap_cons, elem_of_cons in Hi. destruct Hi as [-> | Hi]; [|contradiction].
      exists a. split; [left | split; [reflexivity|]].
      rewrite foldl_insert_notin by assumption. unfold putTask.
      apply lookup_insert_eq.
Qed.

Lemma foldl_insert_distinct l m t :
  NoDup (id <$> l) -> t ∈ l -> foldl ins m l !! id t = Some (v t).
Proof.
  revert m. induction l as [|a l IH]; intros m Hnd Ht; cbn [foldl].
  - now apply elem_of_nil in Ht.
  - rewrite fmap_cons in Hnd. apply NoDup_cons in Hnd as [Ha Hnd].
    apply elem_of_cons in Ht as [-> | Ht].
    + rewrite foldl_insert_notin by assumption. unfold putTask.
      apply lookup_insert_eq.
    + now apply IH.
Qed.
End FoldInsert.

Lemma taskMap_lookup tasks i t :
  buildTaskMap tasks !! i = Some t -> t ∈ tasks ∧ id t = i.
Proof.
  intros H.
  change (buildTaskMap tasks) with (foldl (putTask (fun t => t)) ∅ tasks) in H.
  destruct (decide (i ∈ id <$> tasks)) as [Hin|Hout].
  - destruct (foldl_insert_in (fun t => t) tasks ∅ i Hin) as (t' & Ht' & Hid & Hl).
    rewrite H in Hl. injection Hl as ->. auto.
  - rewrite (foldl_insert_notin (fun t => t)) in H by assumption.
    now rewrite lookup_empty in H.
Qed.

(** Of several tasks with one id, the map keeps the last. *)
Lemma taskMap_last tasks i :
  buildTaskMap tasks !! i = last (filter (fun x => id x = i) tasks).
Proof.
  unfold buildTaskMap.
  induction tasks as [|t l IH] using rev_ind; [reflexivity|].
  rewrite foldl_snoc, filter_app, last_app.
  destruct (decide (id t = i)) as [<-|Hne].
  - rewrite filter_cons_True, filter_nil by reflexivity. cbn [last].
    apply lookup_insert_eq.
  - rewrite filter_cons_False, filter_nil by exact Hne. cbn [last].
    rewrite lookup_insert_ne by exact Hne. exact IH.
Qed.

Lemma taskMap_known tasks i :
  is_Some (buildTaskMap tasks !! i) ↔ i ∈ id <$> tasks.
Proof.
  split.
  - intros [t Ht]. apply taskMap_lookup in Ht as [Ht <-].
    now apply list_elem_of_fmap_2.
  - intros Hin.
    destruct (foldl_insert_in (fun t => t) tasks ∅ i Hin) as (t' & _ & _ & Hl).
    change (buildTaskMap tasks) with (foldl (putTask (fun t => t)) ∅ tasks).
    rewrite Hl. eauto.
Qed.

(** *** The loop *)

Section Loop.
Variable taskMap : gmap string GanttTask.
Variable depsOf : gmap string (list string).

Local Abbreviation known := (Aux.known taskMap depsOf).
Local Abbreviation met := (Aux.met depsOf).

Lemma known_cons i r : known (i :: r) -> known r.
Proof. intros H j Hj. apply H. now right. Qed.

Lemma readyTasks_known placed remaining :
  known remaining ->
  ∃ ready, readyTasks taskMap depsOf placed remaining = Some ready
           ∧ id <$> ready = filter (met placed) remaining
           ∧ Forall (fun t => taskMap !! id t = Some t) ready.
Proof.
  induction remaining as [|i r IH]; intros Hk.
  - exists []. repeat split. constructor.
  - destruct (IH (known_cons _ _ Hk)) as (tail & Ht & Hids & Hall).
    destruct (Hk i ltac:(left)) as ([deps Hd] & t & Hlk & Hid).
    destruct (forallb (fun d => bool_decide (d ∈ placed)) deps) eqn:E.
    + exists (t :: tail). split.
      { cbn [readyTasks]. rewrite Hd, Ht. cbn. rewrite E, Hlk. reflexivity. }
      split.
      * rewrite fmap_cons, Hid, Hids, filter_cons_True; [reflexivity|].
        exists deps. auto.
      * constructor; [now rewrite Hid | assumption].
    + exists tail. split.
      { cbn [readyTasks]. rewrite Hd, Ht. cbn. rewrite E. reflexivity. }
      split; [|assumption].
      rewrite filter_cons_False; [assumption|].
      intros (d' & Hd' & H). rewrite Hd in Hd'. injection Hd' as <-. congruence.
Qed.

Lemma mapM_known remaining :
  known remaining ->
  ∃ rest, mapM (fun i => taskMap !! i) remaining = Some rest
          ∧ id <$> rest = remaining
          ∧ Forall (fun t => taskMap !! id t = Some t) rest.
Proof.
  induction remaining as [|i r IH]; intros Hk.
  - exists []. repeat split. constructor.
  - destruct (IH (known_cons _ _ Hk)) as (tail & Ht & Hids & Hall).
    destruct (Hk i ltac:(left)) as (_ & t & Hlk & Hid).
    exists (t :: tail). split.
    { cbn. rewrite Hlk. cbn. rewrite Ht. reflexivity. }
    split.
    + now rewrite fmap_cons, Hid, Hids.
    + constructor; [now rewrite Hid | assumption].
Qed.

Lemma deleteAll_filter ready remaining :
  deleteAll ready remaining = filter (fun i => i ∉ id <$> ready) remaining.
Proof.
  revert remaining. induction ready as [|a r IH]; intros remaining.
  - cbn. symmetry. induction remaining as [|x l IHl]; [reflexivity|].
    rewrite filter_cons_True; [now rewrite IHl | apply not_elem_of_nil].
  - unfold deleteAll in *. cbn [foldl]. rewrite IH, list_filter_filter.
    apply list_filter_iff. intros x. rewrite fmap_cons, not_elem_of_cons. tauto.
Qed.

Lemma placeAll_elem ready placed d :
  d ∈ placeAll ready placed ↔ d ∈ placed ∨ d ∈ id <$> ready.
Proof.
  revert placed. induction ready as [|a r IH]; intros placed; unfold placeAll in *.
  - cbn. rewrite elem_of_nil. tauto.
  - cbn [foldl]. rewrite IH, fmap_cons, elem_of_cons, elem_of_union,
      elem_of_singleton. tauto.
Qed.

(** The loop ends within [length remaining] rounds, and appends to
    [sorted] one task for each id of [remaining]. *)
Lemma sortLoop_known fuel :
  ∀ sorted placed remaining,
    known remaining -> NoDup remaining -> (length remaining <= fuel)%nat ->
    ∃ rest, sortLoop fuel taskMap depsOf sorted placed remaining = Some (sorted ++ rest)
            ∧ id <$> rest ≡ₚ remaining
            ∧ Forall (fun t => taskMap !! id t = Some t) rest.
Proof.
  induction fuel as [|fuel IH]; intros sorted placed remaining Hk Hnd Hlen.
  - destruct remaining as [|i r]; [|cbn in Hlen; lia].
    exists []. cbn. rewrite app_nil_r.
    split; [reflexivity|]. split; [reflexivity | constructor].
  - destruct remaining as [|i r].
    { exists []. cbn. rewrite app_nil_r.
      split; [reflexivity|]. split; [reflexivity | constructor]. }
    cbn [sortLoop].
    destruct (readyTasks_known placed (i :: r) Hk) as (ready & Hr & Hids & Hall).
    rewrite Hr. cbn [mbind option_bind].
    destruct ready as [|t0 ready0] eqn:Eready.
    + destruct (mapM_known (i :: r) Hk) as (rest & Hm & Hrid & Hrall).
      rewrite Hm. cbn [mbind option_bind].
      exists (sortByStart rest). split; [reflexivity|]. split.
      * now rewrite sortByStart_perm, Hrid.
      * now rewrite sortByStart_perm.
    + rewrite <- Eready in *.
      set (ready' := sortByStart ready).
      assert (Hp : ready' ≡ₚ ready) by apply sortByStart_perm.
      set (remaining' := deleteAll ready' (i :: r)).
      assert (Hrem : remaining' = filter (fun j => ¬ met placed j) (i :: r)).
      { subst remaining'. rewrite deleteAll_filter. apply filter_ext_elem.
        intros x Hx. rewrite Hp, Hids.
        pose proof (list_elem_of_filter (met placed) (i :: r) x). tauto. }
      assert (Hlt : (length remaining' < length (i :: r))%nat).
      { assert (Ht0 : t0 ∈ ready) by (rewrite Eready; left).
        assert (Hin : id t0 ∈ filter (met placed) (i :: r))
          by (rewrite <- Hids; now apply list_elem_of_fmap_2).
        apply list_elem_of_filter in Hin as [Hmet Hin].
        rewrite Hrem. eapply length_filter_lt; [exact Hin | tauto]. }
      destruct (IH (sorted ++ ready') (placeAll ready' placed) remaining')
        as (rest' & Hs & Hrid & Hrall).
      * intros j Hj. apply Hk. rewrite Hrem in Hj.
        now apply list_elem_of_filter in Hj as [_ Hj].
      * rewrite Hrem. now apply NoDup_filter.
      * cbn [length] in *. lia.
      * exists (ready' ++ rest'). split; [now rewrite app_assoc|]. split.
        -- rewrite fmap_app, Hrid, Hp, Hids, Hrem. apply filter_app_complement.
        -- apply Forall_app. split; [|assumption].
           now rewrite Hp.
Qed.
End Loop.
End SortFacts.

(** ** The sorter against the algorithm of the specification *)

Section SortRefinement.
Import JSString TaskMapper Aux.

Lemma filter_fmap_id {A B} (f : A -> B) (P : B -> Prop) `{!∀ y, Decision (P y)}
    (l : list A) :
  filter P (f <$> l) = f <$> filter (fun x => P (f x)) l.
Proof.
  induction l as [|a l IH]; [reflexivity|].
  rewrite fmap_cons. destruct (decide (P (f a))).
  - rewrite !filter_cons_True by assumption. now rewrite fmap_cons, IH.
  - rewrite !filter_cons_False by assumption. exact IH.
Qed.

Lemma NoDup_fmap_inj_on {A B} (f : A -> B) (l : list A) x y :
  NoDup (f <$> l) -> x ∈ l -> y ∈ l -> f x = f y -> x = y.
Proof.
  induction l as [|a l IH]; intros Hnd Hx Hy E.
  - now apply elem_of_nil in Hx.
  - rewrite fmap_cons in Hnd. apply NoDup_cons in Hnd as [Ha Hnd].
    apply elem_of_cons in Hx as [-> | Hx]; apply elem_of_cons in Hy as [-> | Hy].
    + reflexivity.
    + exfalso. apply Ha. rewrite E. now apply list_elem_of_fmap_2.
    + exfalso. apply Ha. rewrite <- E. now apply list_elem_of_fmap_2.
    + now apply IH.
Qed.

Lemma depSet_elem t d :
  d ∈ depSet t
  ↔ truthy d = true ∧ ∃ x, d = trim x ∧ x ∈ splitOn ","%char (dependencies t).
Proof.
  unfold depSet. rewrite list_elem_of_In, filter_In, <- list_elem_of_In,
    list_elem_of_fmap. tauto.
Qed.

(** The loop of the specification rearranges [sorted ++ remaining]. *)
Lemma specLoop_perm deps fuel :
  ∀ sorted remaining,
    (length remaining <= fuel)%nat ->
    specLoop fuel deps sorted remaining ≡ₚ sorted ++ remaining.
Proof.
  induction fuel as [|fuel IH]; intros sorted remaining Hlen.
  - destruct remaining; [|cbn in Hlen; lia]. cbn. now rewrite app_nil_r.
  - destruct remaining as [|t r]; [cbn; now rewrite app_nil_r|].
    cbn [specLoop].
    destruct (filter (allPlaced deps sorted) (t :: r)) as [|t0 ready0] eqn:E.
    + now rewrite sortByStart_perm.
    + rewrite <- E.
      assert (Hin : t0 ∈ filter (allPlaced deps sorted) (t :: r))
        by (rewrite E; left).
      apply list_elem_of_filter in Hin as [Hp Hin].
      rewrite IH.
      * rewrite sortByStart_perm, <- app_assoc.
        apply Permutation_app_head, filter_app_complement.
      * assert ((length (filter (fun t1 => ¬ allPlaced deps sorted t1) (t :: r))
                 < length (t :: r))%nat)
          by (eapply length_filter_lt; [exact Hin | tauto]).
        cbn [length] in *. lia.
Qed.

Section Distinct.
Variable tasks : list GanttTask.
Hypothesis distinct : NoDup (id <$> tasks).

Local Abbreviation taskMap := (buildTaskMap tasks).
Local Abbreviation depsOf := (buildDepsOf (buildTaskMap tasks) tasks).
Local Abbreviation deps := (depSetWithin tasks).

Lemma taskMap_own t : t ∈ tasks -> taskMap !! id t = Some t.
Proof.
  intros Ht.
  change (buildTaskMap tasks) with (foldl (putTask (fun t => t)) ∅ tasks).
  now apply foldl_insert_distinct.
Qed.

Lemma depsOf_own t : t ∈ tasks -> depsOf !! id t = Some (knownDeps taskMap t).
Proof.
  intros Ht.
  change depsOf with (foldl (putTask (knownDeps taskMap)) ∅ tasks).
  now apply foldl_insert_distinct.
Qed.

Lemma knownDeps_fold l acc d :
  d ∈ foldl (fun ds x =>
               let i := trim x in
               if truthy i && bool_decide (is_Some (taskMap !! i))
               then setAdd ds i else ds) acc l
  ↔ d ∈ acc ∨ (∃ x, x ∈ l ∧ trim x = d ∧ truthy d = true ∧ d ∈ id <$> tasks).
Proof.
  revert acc. induction l as [|x l IH]; intros acc; cbn [foldl].
  - split; [auto|]. intros [H | (x & Hx & _)]; [assumption|].
    now apply elem_of_nil in Hx.
  - rewrite IH. cbn zeta.
    destruct (truthy (trim x)) eqn:Et; cbn [andb].
    + case_bool_decide as Hk.
      * apply taskMap_known in Hk. rewrite setAdd_elem. split.
        -- intros [[H | ->] | (y & Hy & R)]; [auto | | ].
           ++ right. exists x. split; [left | auto].
           ++ right. exists y. split; [now right | assumption].
        -- intros [H | (y & Hy & E & R)]; [auto|].
           apply elem_of_cons in Hy as [-> | Hy]; [left; right; now symmetry|].
           right. exists y. auto.
      * split.
        -- intros [H | (y & Hy & R)]; [auto|].
           right. exists y. split; [now right | assumption].
        -- intros [H | (y & Hy & E & Ht & Hd)]; [auto|].
           apply elem_of_cons in Hy as [-> | Hy].
           ++ exfalso. apply Hk. apply taskMap_known. now rewrite E.
           ++ right. exists y. auto.
    + split.
      * intros [H | (y & Hy & R)]; [auto|].
        right. exists y. split; [now right | assumption].
      * intros [H | (y & Hy & E & Ht & Hd)]; [auto|].
        apply elem_of_cons in Hy as [-> | Hy]; [congruence|].
        right. exists y. auto.
Qed.

(** The set the code keeps for a task is the written dependency set
    cut down to the ids of the input. *)
Lemma knownDeps_elem t d : d ∈ knownDeps taskMap t ↔ d ∈ deps t.
Proof.
  unfold depSetWithin.
  rewrite list_elem_of_filter, depSet_elem.
  unfold knownDeps. destruct (truthy (dependencies t)) eqn:Et.
  - rewrite knownDeps_fold, elem_of_nil. split.
    + intros [[] | (x & Hx & E & Hd & Hin)]. eauto.
    + intros (Hin & Hd & (x & E & Hx)). right. exists x. auto.
  - rewrite elem_of_nil. split; [tauto|].
    intros (_ & Hd & (x & E & Hx)).
    destruct (dependencies t); [|discriminate Et].
    cbn in Hx. apply list_elem_of_singleton in Hx. subst x d. discriminate Hd.
Qed.

Lemma met_allPlaced sorted placed t :
  t ∈ tasks -> (∀ d, d ∈ placed ↔ d ∈ id <$> sorted) ->
  Aux.met depsOf placed (id t) ↔ allPlaced deps sorted t.
Proof.
  intros Ht Hp. unfold met, allPlaced. rewrite depsOf_own by assumption.
  rewrite Forall_forall. split.
  - intros (ds & [= <-] & Hall) d Hd.
    rewrite forallb_forall in Hall. apply knownDeps_elem in Hd.
    apply Hp. specialize (Hall d). rewrite <- list_elem_of_In in Hall.
    specialize (Hall Hd). now apply bool_decide_eq_true in Hall.
  - intros Hall. eexists. split; [reflexivity|].
    apply forallb_forall. intros d Hd. rewrite <- list_elem_of_In in Hd.
    apply bool_decide_eq_true. apply Hp, Hall, knownDeps_elem, Hd.
Qed.

Lemma readyTasks_refines sorted placed remaining :
  (∀ t, t ∈ remaining -> t ∈ tasks) ->
  (∀ d, d ∈ placed ↔ d ∈ id <$> sorted) ->
  readyTasks taskMap depsOf placed (id <$> remaining)
  = Some (filter (allPlaced deps sorted) remaining).
Proof.
  intros Hsub Hp. induction remaining as [|t r IH]; [reflexivity|].
  assert (Ht : t ∈ tasks) by (apply Hsub; left).
  rewrite fmap_cons. cbn [readyTasks].
  rewrite depsOf_own, IH by (auto; intros; apply Hsub; now right).
  cbn [mbind option_bind].
  pose proof (met_allPlaced sorted placed t Ht Hp) as Hm.
  unfold met in Hm. rewrite depsOf_own in Hm by assumption.
  destruct (forallb (fun d => bool_decide (d ∈ placed)) (knownDeps taskMap t)) eqn:E.
  - rewrite taskMap_own by assumption. cbn [mbind option_bind].
    rewrite filter_cons_True; [reflexivity|]. apply Hm. eauto.
  - rewrite filter_cons_False; [reflexivity|].
    intros Hc. apply Hm in Hc as (ds & [= <-] & Hc). congruence.
Qed.

Lemma mapM_refines remaining :
  (∀ t, t ∈ remaining -> t ∈ tasks) ->
  mapM (fun i => taskMap !! i) (id <$> remaining) = Some remaining.
Proof.
  intros Hsub. apply mapM_Some. induction remaining as [|t r IH]; [constructor|].
  rewrite fmap_cons. constructor.
  - apply taskMap_own, Hsub. left.
  - apply IH. intros; apply Hsub; now right.
Qed.

(** Round by round, the loop of the code and the loop of the
    specification build the same list. *)
Lemma sortLoop_refines fuel :
  ∀ sorted placed remaining,
    (∀ t, t ∈ remaining -> t ∈ tasks) ->
    NoDup (id <$> remaining) ->
    (∀ d, d ∈ placed ↔ d ∈ id <$> sorted) ->
    (length remaining <= fuel)%nat ->
    sortLoop fuel taskMap depsOf sorted placed (id <$> remaining)
    = Some (specLoop fuel deps sorted remaining).
Proof.
  induction fuel as [|fuel IH]; intros sorted placed remaining Hsub Hnd Hp Hlen.
  - destruct remaining; [reflexivity | cbn in Hlen; lia].
  - destruct remaining as [|t r]; [reflexivity|].
    rewrite fmap_cons. cbn [sortLoop specLoop]. rewrite <- fmap_cons.
    rewrite (readyTasks_refines sorted) by assumption.
    cbn [mbind option_bind].
    destruct (filter (allPlaced deps sorted) (t :: r)) as [|t0 ready0] eqn:E.
    + rewrite mapM_refines by assumption. reflexivity.
    + rewrite <- E. set (ready := filter (allPlaced deps sorted) (t :: r)) in *.
      set (ready' := sortByStart ready).
      assert (Hperm : ready' ≡ₚ ready) by apply sortByStart_perm.
      assert (Hdel : deleteAll ready' (id <$> t :: r)
                     = id <$> filter (fun t1 => ¬ allPlaced deps sorted t1) (t :: r)).
      { rewrite deleteAll_filter, filter_fmap_id. f_equal.
        apply filter_ext_elem. intros x Hx. rewrite Hperm.
        pose proof (list_elem_of_filter (allPlaced deps sorted) (t :: r) x) as Hf.
        fold ready in Hf. split.
        - intros Hn Ha. apply Hn, list_elem_of_fmap_2, Hf. auto.
        - intros Hn (y & Ey & Hy)%list_elem_of_fmap.
          pose proof (list_elem_of_filter (allPlaced deps sorted) (t :: r) y) as Hg.
          fold ready in Hg. apply Hg in Hy as [Hy1 Hy2].
          assert (x = y) by (eapply (NoDup_fmap_inj_on id); eauto).
          subst y. contradiction. }
      rewrite Hdel. apply IH.
      * intros x Hx. apply list_elem_of_filter in Hx as [_ Hx]. now apply Hsub.
      * rewrite <- Hdel, deleteAll_filter. now apply NoDup_filter.
      * intros d. rewrite placeAll_elem, Hp, fmap_app, elem_of_app. reflexivity.
      * assert (Ht0 : t0 ∈ ready) by (subst ready; rewrite E; left).
        apply list_elem_of_filter in Ht0 as [Ha Hin].
        assert ((length (filter (fun t1 => ¬ allPlaced deps sorted t1) (t :: r))
                 < length (t :: r))%nat)
          by (eapply length_filter_lt; [exact Hin | tauto]).
        cbn [length] in *. lia.
Qed.

(** On tasks with distinct ids the code is the algorithm of the
    specification, with dependency sets cut down to the input. *)
Lemma sortByDependencies_refines :
  sortByDependencies tasks = Some (specSort (depSetWithin tasks) tasks).
Proof.
  unfold sortByDependencies, specSort.
  destruct (length tasks <=? 1)%nat eqn:El.
  - apply Nat.leb_le in El. f_equal.
    destruct tasks as [|t [|t' r]]; [reflexivity | | cbn in El; lia].
    cbn [length specLoop].
    destruct (decide (allPlaced (depSetWithin [t]) [] t)) as [Ha|Ha].
    + rewrite filter_cons_True, filter_nil by assumption.
      rewrite filter_cons_False, filter_nil by tauto. reflexivity.
    + rewrite filter_cons_False, filter_nil by assumption. reflexivity.
  - rewrite foldl_setAdd_distinct by exact distinct.
    cbn [app]. rewrite length_fmap.
    apply sortLoop_refines; auto.
    intros d. rewrite elem_of_empty, fmap_nil, elem_of_nil. tauto.
Qed.
End Distinct.
End SortRefinement.

(** ** What the mapper returns *)

Section MapperFacts.
Import JSString JSDate DateUtils JSNumber Obsidian TaskMapper Aux.

(** The sorter always returns: a list of input tasks, one for each id
    of the input, and for each id the last input task that has it. *)
Lemma sortByDependencies_keeps_last tasks :
  ∃ out, sortByDependencies tasks = Some out
         ∧ NoDup (id <$> out)
         ∧ (∀ t, t ∈ out -> t ∈ tasks)
         ∧ (∀ i, i ∈ id <$> tasks -> i ∈ id <$> out)
         ∧ (∀ t, t ∈ out -> last (filter (fun x => id x = id t) tasks) = Some t).
Proof.
  unfold sortByDependencies. destruct (length tasks <=? 1)%nat eqn:El.
  - apply Nat.leb_le in El. exists tasks.
    destruct tasks as [|t [|t' r]]; [| | cbn in El; lia].
    + split; [reflexivity|]. split; [constructor|]. split; [auto|].
      split; [auto|]. intros t Ht. now apply elem_of_nil in Ht.
    + split; [reflexivity|]. split; [cbn; apply NoDup_singleton|].
      split; [auto|]. split; [auto|].
      intros x Hx. apply list_elem_of_singleton in Hx as ->.
      rewrite filter_cons_True, filter_nil by reflexivity. reflexivity.
  - set (taskMap := buildTaskMap tasks).
    set (depsOf := buildDepsOf taskMap tasks).
    set (remaining := foldl setAdd [] (id <$> tasks)).
    assert (Hrem : ∀ i, i ∈ remaining ↔ i ∈ id <$> tasks).
    { intros i. subst remaining. rewrite foldl_setAdd_elem, elem_of_nil. tauto. }
    destruct (sortLoop_known taskMap depsOf (length remaining) [] ∅ remaining)
      as (rest & Hs & Hids & Hall).
    + intros i Hi. apply Hrem in Hi. split.
      * destruct (foldl_insert_in (knownDeps taskMap) tasks ∅ i Hi)
          as (t & _ & _ & Hl).
        subst depsOf.
        change (buildDepsOf taskMap tasks)
          with (foldl (putTask (knownDeps taskMap)) ∅ tasks).
        rewrite Hl. eauto.
      * destruct (foldl_insert_in (fun t => t) tasks ∅ i Hi) as (t & _ & Hid & Hl).
        exists t. split; [exact Hl | exact Hid].
    + subst remaining. apply foldl_setAdd_NoDup. constructor.
    + lia.
    + exists rest. cbn [app] in Hs. split; [exact Hs|].
      rewrite Forall_forall in Hall.
      split; [|split; [|split]].
      * rewrite Hids. subst remaining. apply foldl_setAdd_NoDup. constructor.
      * intros t Ht. apply (taskMap_lookup tasks (id t)), Hall, Ht.
      * intros i Hi. rewrite Hids. now apply Hrem.
      * intros t Ht. rewrite <- (taskMap_last tasks (id t)). exact (Hall t Ht).
Qed.

Lemma sortByDependencies_returns tasks :
  ∃ out, sortByDependencies tasks = Some out
         ∧ NoDup (id <$> out)
         ∧ (∀ t, t ∈ out -> t ∈ tasks)
         ∧ (∀ i, i ∈ id <$> tasks -> i ∈ id <$> out).
Proof.
  destruct (sortByDependencies_keeps_last tasks) as (out & H1 & H2 & H3 & H4 & _).
  exists out. auto.
Qed.

Section Host.
Variable tz : Z.
Variable host : string -> option Z.

(** The mapper always returns, and every task it returns is the task
    built for one of the entries. *)
Lemma mapEntriesToTasks_returns entries config :
  ∃ tasks, mapEntriesToTasks tz host entries config = Some tasks
           ∧ NoDup (id <$> tasks)
           ∧ ∀ t, t ∈ tasks ->
                  ∃ e, e ∈ entries
                       ∧ mapEntry tz host (buildNameToId entries)
                           (buildColorValues config entries) config e = Some t.
Proof.
  unfold mapEntriesToTasks. destruct (isSet (startProperty config)); cbn [negb].
  - destruct (sortByDependencies_returns (mapAll tz host entries config))
      as (out & Hs & Hnd & Hsub & _).
    exists out. split; [exact Hs|]. split; [exact Hnd|].
    intros t Ht. apply Hsub in Ht. unfold mapAll in Ht.
    now apply list_elem_of_omap in Ht.
  - exists []. split; [reflexivity|]. split; [constructor|].
    intros t Ht. now apply elem_of_nil in Ht.
Qed.

Lemma nextDay_eq d : nextDay tz d = TimeClip (d + msPerDay).
Proof. unfold nextDay. exact (setDate_next tz d). Qed.

Lemma sameTime_next d : sameTime (TimeValue d) (TimeClip (d + msPerDay)) = false.
Proof.
  unfold TimeClip. destruct (Z.abs (d + msPerDay) <=? maxTimeValue); [|reflexivity].
  cbn [sameTime]. apply Z.eqb_neq. unfold msPerDay. lia.
Qed.

Lemma dateLt_next d : dateLt (TimeClip (d + msPerDay)) (TimeValue d) = false.
Proof.
  unfold TimeClip. destruct (Z.abs (d + msPerDay) <=? maxTimeValue); [|reflexivity].
  cbn [dateLt]. apply Z.ltb_ge. unfold msPerDay. lia.
Qed.

(** The end date before the milestone test: the parsed end when it is
    not before the start, and otherwise the start moved by one day,
    clipped to the range of time values. *)
Lemma defaultedEnd_cases startDate parsed :
  (∃ pe, parsed = Some pe ∧ startDate <= pe
         ∧ defaultedEnd tz startDate parsed = TimeValue pe)
  ∨ ((parsed = None ∨ ∃ pe, parsed = Some pe ∧ pe < startDate)
     ∧ defaultedEnd tz startDate parsed = TimeClip (startDate + msPerDay)).
Proof.
  unfold defaultedEnd. destruct parsed as [pe|]; cbn [from_option dateLt].
  - destruct (Z.ltb_spec pe startDate).
    + right. split; [right; eauto | apply nextDay_eq].
    + left. eauto.
  - right. rewrite nextDay_eq, dateLt_next. split; [now left | reflexivity].
Qed.

(** The fields of a mapped task, read off the entry it comes from. *)
Lemma mapEntry_fields nameToId colorValues config e t :
  mapEntry tz host nameToId colorValues config e = Some t ->
  ∃ startDate,
    parsedStart tz host config e = Some startDate
    ∧ id t = makeTaskId (path (file e))
    ∧ filePath t = path (file e)
    ∧ start t = formatDateForGantt tz startDate
    ∧ progress t = progressOf config e
    ∧ dependencies t = dependenciesOf nameToId config e
    ∧ isMilestone t
      = sameTime (TimeValue startDate)
          (defaultedEnd tz startDate (parsedEnd tz host config e))
    ∧ end_ t
      = formatDateObject tz
          (if isMilestone t then nextDay tz startDate
           else defaultedEnd tz startDate (parsedEnd tz host config e)).
Proof.
  unfold mapEntry. destruct (parsedStart tz host config e) as [sd|]; [|discriminate].
  intros [= <-]. exists sd. cbn.
  repeat split; reflexivity.
Qed.

(** The milestone flag and the stored end of a mapped task, from the
    parsed start and the parsed end of its entry. *)
Lemma mapEntry_end nameToId colorValues config e t startDate :
  mapEntry tz host nameToId colorValues config e = Some t ->
  parsedStart tz host config e = Some startDate ->
  (isMilestone t = true ↔ parsedEnd tz host config e = Some startDate)
  ∧ (∀ pe, parsedEnd tz host config e = Some pe -> startDate < pe ->
           end_ t = formatDateForGantt tz pe)
  ∧ (parsedEnd tz host config e = None
     ∨ (∃ pe, parsedEnd tz host config e = Some pe ∧ pe <= startDate) ->
     end_ t = formatDateObject tz (TimeClip (startDate + msPerDay))).
Proof.
  intros Hmap Hsd.
  destruct (mapEntry_fields _ _ _ _ _ Hmap)
    as (sd & Hsd' & _ & _ & _ & _ & _ & Hmile & Hend).
  rewrite Hsd in Hsd'. injection Hsd' as <-.
  rewrite nextDay_eq in Hend.
  destruct (defaultedEnd_cases startDate (parsedEnd tz host config e))
    as [(pe & Hpe & Hle & Hd) | (Hcase & Hd)]; rewrite Hd in Hmile, Hend.
  - cbn [sameTime] in Hmile. rewrite Hpe.
    destruct (Z.eqb_spec startDate pe) as [<-|Hne].
    + rewrite Hmile in Hend |- *. split; [tauto|]. split.
      * intros pe' [= <-] Hlt. lia.
      * intros _. exact Hend.
    + rewrite Hmile in Hend |- *. split.
      * split; [discriminate | intros [= ->]; congruence].
      * split.
        -- intros pe' [= <-] _. exact Hend.
        -- intros [Hn | (pe' & [= <-] & Hle')]; [discriminate | lia].
  - rewrite sameTime_next in Hmile. rewrite Hmile in Hend |- *.
    split; [|split].
    + split; [discriminate|]. intros Hpe.
      destruct Hcase as [Hn | (pe & Hpe' & Hlt)]; [congruence|].
      rewrite Hpe in Hpe'. injection Hpe' as <-. lia.
    + intros pe Hpe Hlt.
      destruct Hcase as [Hn | (pe' & Hpe' & Hlt')]; [congruence|].
      rewrite Hpe in Hpe'. injection Hpe' as <-. lia.
    + intros _. exact Hend.
Qed.

Lemma TimeClip_in_range t :
  Z.abs t <= maxTimeValue -> TimeClip t = TimeValue t.
Proof. intros H. unfold TimeClip. now apply Z.leb_le in H as ->. Qed.

Lemma TimeClip_out_of_range t :
  maxTimeValue < Z.abs t -> TimeClip t = InvalidDate.
Proof. intros H. unfold TimeClip. now apply Z.leb_gt in H as ->. Qed.

Lemma mapEntry_is_Some nameToId colorValues config e :
  is_Some (mapEntry tz host nameToId colorValues config e)
  ↔ is_Some (parsedStart tz host config e).
Proof.
  unfold mapEntry. destruct (parsedStart tz host config e); split;
    intros [x H]; try discriminate H; eauto.
Qed.
End Host.
End MapperFacts.

(** ** Dates, milestones, ids and progress of the mapped tasks *)

Section MappedTasks.
Import JSString JSDate DateUtils JSNumber Obsidian TaskMapper Aux.

Variable tz : Z.
Variable host : string -> option Z.

(** The stored end of every task.  Each task the mapper returns is the
    task built from one entry, whose start parses to an instant
    [startDate] of which the stored start is the canonical text.  A
    parsed end after [startDate] is stored as it is.  When the end role
    is unset, or its value is absent or does not parse, or parses to an
    instant not after [startDate], the end is [startDate] moved by
    [setDate(getDate() + 1)]: inside the range of time values this is
    the next local day, and beyond it the [Date] is invalid and the
    stored end is the text [NaN-NaN-NaN].  In the first two cases,
    between the years 1000 and 9999, the stored texts are in order as
    strings. *)
Lemma stored_end_of_every_task entries config :
  ∃ tasks, mapEntriesToTasks tz host entries config = Some tasks
    ∧ ∀ t, t ∈ tasks ->
        ∃ e startDate,
          e ∈ entries
          ∧ mapEntry tz host (buildNameToId entries)
              (buildColorValues config entries) config e = Some t
          ∧ filePath t = path (file e)
          ∧ id t = makeTaskId (path (file e))
          ∧ parsedStart tz host config e = Some startDate
          ∧ start t = formatDateForGantt tz startDate
          ∧ (∀ pe, parsedEnd tz host config e = Some pe -> startDate < pe ->
                   end_ t = formatDateForGantt tz pe
                   ∧ localDay tz startDate <= localDay tz pe
                   ∧ (1000 <= getFullYear tz startDate -> getFullYear tz pe <= 9999 ->
                      String.leb (start t) (end_ t) = true))
          ∧ (parsedEnd tz host config e = None
             ∨ (∃ pe, parsedEnd tz host config e = Some pe ∧ pe <= startDate) ->
             (Z.abs (startDate + msPerDay) <= maxTimeValue ->
              end_ t = formatDateForGantt tz (startDate + msPerDay)
              ∧ localDay tz (startDate + msPerDay) = localDay tz startDate + 1
              ∧ (1000 <= getFullYear tz startDate ->
                 getFullYear tz (startDate + msPerDay) <= 9999 ->
                 String.leb (start t) (end_ t) = true))
             ∧ (maxTimeValue < Z.abs (startDate + msPerDay) ->
                end_ t = "NaN-NaN-NaN"%string)).
Proof.
  destruct (mapEntriesToTasks_returns tz host entries config) as (tasks & Hm & _ & Hall).
  exists tasks. split; [exact Hm|]. intros t Ht.
  destruct (Hall t Ht) as (e & He & Hmap).
  destruct (mapEntry_fields tz host _ _ _ _ _ Hmap)
    as (sd & Hsd & Hid & Hpath & Hstart & _).
  destruct (mapEntry_end tz host _ _ _ _ _ _ Hmap Hsd) as (_ & Hafter & Hdefault).
  exists e, sd.
  split; [exact He|]. split; [exact Hmap|]. split; [exact Hpath|].
  split; [exact Hid|]. split; [exact Hsd|]. split; [exact Hstart|]. split.
  - intros pe Hpe Hlt. split; [exact (Hafter pe Hpe Hlt)|].
    assert (Hday : localDay tz sd <= localDay tz pe) by (apply localDay_mono; lia).
    split; [exact Hday|]. intros Hlo Hhi.
    rewrite Hstart, (Hafter pe Hpe Hlt), !formatDateForGantt_day.
    apply formatDay_leb; [exact Hday | exact Hlo | exact Hhi].
  - intros Hcase. specialize (Hdefault Hcase). split.
    + intros Hin. rewrite (TimeClip_in_range _ Hin) in Hdefault.
      cbn [formatDateObject] in Hdefault. split; [exact Hdefault|].
      split; [apply localDay_next|]. intros Hlo Hhi.
      rewrite Hstart, Hdefault, !formatDateForGantt_day.
      apply formatDay_leb; [|exact Hlo | exact Hhi].
      apply localDay_mono. unfold msPerDay. lia.
    + intros Hout. rewrite (TimeClip_out_of_range _ Hout) in Hdefault.
      exact Hdefault.
Qed.

(** The milestone flag of every task.  A task is a milestone exactly
    when the end role yields a value that parses to the very instant of
    the start (the time values are equal); two instants of one local
    day that differ are no milestone, and the stored end is then the
    stored start.  The stored end of a milestone is the start moved to
    the next local day, inside the range of time values. *)
Lemma milestone_same_instant entries config :
  ∃ tasks, mapEntriesToTasks tz host entries config = Some tasks
    ∧ ∀ t, t ∈ tasks ->
        ∃ e startDate,
          e ∈ entries
          ∧ mapEntry tz host (buildNameToId entries)
              (buildColorValues config entries) config e = Some t
          ∧ filePath t = path (file e)
          ∧ id t = makeTaskId (path (file e))
          ∧ parsedStart tz host config e = Some startDate
          ∧ start t = formatDateForGantt tz startDate
          ∧ (isMilestone t = true ↔ parsedEnd tz host config e = Some startDate)
          ∧ (∀ pe, parsedEnd tz host config e = Some pe -> startDate < pe ->
                   localDay tz pe = localDay tz startDate ->
                   isMilestone t = false ∧ end_ t = start t)
          ∧ (isMilestone t = true ->
             Z.abs (startDate + msPerDay) <= maxTimeValue ->
             end_ t = formatDateForGantt tz (startDate + msPerDay)
             ∧ localDay tz (startDate + msPerDay) = localDay tz startDate + 1).
Proof.
  destruct (mapEntriesToTasks_returns tz host entries config) as (tasks & Hm & _ & Hall).
  exists tasks. split; [exact Hm|]. intros t Ht.
  destruct (Hall t Ht) as (e & He & Hmap).
  destruct (mapEntry_fields tz host _ _ _ _ _ Hmap)
    as (sd & Hsd & Hid & Hpath & Hstart & _).
  destruct (mapEntry_end tz host _ _ _ _ _ _ Hmap Hsd) as (Hiff & Hafter & Hdefault).
  exists e, sd.
  split; [exact He|]. split; [exact Hmap|]. split; [exact Hpath|].
  split; [exact Hid|]. split; [exact Hsd|]. split; [exact Hstart|].
  split; [exact Hiff|]. split.
  - intros pe Hpe Hlt Hday. split.
    + destruct (isMilestone t) eqn:E; [|reflexivity].
      assert (Hs : parsedEnd tz host config e = Some sd) by now apply Hiff.
      rewrite Hpe in Hs. injection Hs as ->. lia.
    + rewrite (Hafter pe Hpe Hlt), Hstart, !formatDateForGantt_day. now rewrite Hday.
  - intros Hmile Hin.
    assert (Hs : parsedEnd tz host config e = Some sd) by now apply Hiff.
    rewrite Hdefault by (right; exists sd; split; [exact Hs | lia]).
    rewrite (TimeClip_in_range _ Hin). split; [reflexivity | apply localDay_next].
Qed.

(** C5.  The ids of the returned tasks are pairwise distinct, and each
    is [makeTaskId] of the path of the entry the task is built from. *)
Theorem C5_task_ids_unique entries config :
  ∃ tasks, mapEntriesToTasks tz host entries config = Some tasks
    ∧ NoDup (id <$> tasks)
    ∧ ∀ t, t ∈ tasks ->
        ∃ e, e ∈ entries
             ∧ filePath t = path (file e)
             ∧ id t = makeTaskId (path (file e)).
Proof.
  destruct (mapEntriesToTasks_returns tz host entries config) as (tasks & Hm & Hnd & Hall).
  exists tasks. split; [exact Hm|]. split; [exact Hnd|]. intros t Ht.
  destruct (Hall t Ht) as (e & He & Hmap).
  destruct (mapEntry_fields tz host _ _ _ _ _ Hmap) as (sd & _ & Hid & Hp & _).
  exists e. auto.
Qed.

Lemma clamp0to100_range n : (0 <= clamp0to100 n <= 100)%Q.
Proof.
  destruct n as [|q| |]; cbn [clamp0to100]; try (split; discriminate).
  destruct (Qle_bool 100 q) eqn:E1.
  - change (Qle_bool 100 0) with false. cbn iota. split; [discriminate | apply Qle_refl].
  - destruct (Qle_bool q 0) eqn:E2; [split; [apply Qle_refl | discriminate]|].
    split.
    + apply Qnot_lt_le. intros Hlt. apply Qlt_le_weak, Qle_bool_iff in Hlt. congruence.
    + apply Qnot_lt_le. intros Hlt. apply Qlt_le_weak, Qle_bool_iff in Hlt. congruence.
Qed.

(** C7, as the code has it.  Each returned task is the task built
    from one entry, named by its file path, and its progress is a
    number between 0 and 100, not rounded: it is the value [parseFloat]
    reads from the progress role of that entry, clamped, when progress
    display is on, the role is set and that value is a number;
    otherwise it is 0. *)
Theorem C7_progress_clamped entries config :
  ∃ tasks, mapEntriesToTasks tz host entries config = Some tasks
    ∧ ∀ t, t ∈ tasks ->
        ∃ e, e ∈ entries
          ∧ mapEntry tz host (buildNameToId entries)
              (buildColorValues config entries) config e = Some t
          ∧ filePath t = path (file e)
          ∧ id t = makeTaskId (path (file e))
          ∧ (0 <= progress t <= 100)%Q
          ∧ (∀ raw, showProgress config = true ->
                    rawOf e (progressProperty config) = Some raw ->
                    isNaN (parseFloat raw) = false ->
                    progress t = clamp0to100 (parseFloat raw))
          ∧ (showProgress config = false
             ∨ rawOf e (progressProperty config) = None
             ∨ (∃ raw, rawOf e (progressProperty config) = Some raw
                       ∧ isNaN (parseFloat raw) = true) ->
             progress t = 0%Q).
Proof.
  destruct (mapEntriesToTasks_returns tz host entries config) as (tasks & Hm & _ & Hall).
  exists tasks. split; [exact Hm|]. intros t Ht.
  destruct (Hall t Ht) as (e & He & Hmap).
  destruct (mapEntry_fields tz host _ _ _ _ _ Hmap)
    as (sd & _ & Hid & Hpath & _ & Hprog & _).
  exists e. split; [exact He|]. split; [exact Hmap|]. split; [exact Hpath|].
  split; [exact Hid|]. rewrite Hprog. unfold progressOf.
  assert (Hset : ∀ raw, rawOf e (progressProperty config) = Some raw ->
                        isSet (progressProperty config) = true).
  { unfold rawOf, isSet. destruct (progressProperty config) as [p|]; [|discriminate].
    destruct (truthy p); [reflexivity | discriminate]. }
  repeat split.
  - destruct (showProgress config && isSet (progressProperty config));
      [|discriminate].
    destruct (rawOf e (progressProperty config)); [|discriminate].
    destruct (isNaN (parseFloat s)); [discriminate | apply clamp0to100_range].
  - destruct (showProgress config && isSet (progressProperty config));
      [|discriminate].
    destruct (rawOf e (progressProperty config)); [|discriminate].
    destruct (isNaN (parseFloat s)); [discriminate | apply clamp0to100_range].
  - intros raw Hs Hr Hn. rewrite Hs, (Hset raw Hr), Hr, Hn. reflexivity.
  - intros [Hs | [Hr | (raw & Hr & Hn)]].
    + now rewrite Hs.
    + rewrite Hr. now destruct (showProgress config && isSet (progressProperty config)).
    + rewrite Hr, Hn. now destruct (showProgress config && isSet (progressProperty config)).
Qed.
End MappedTasks.

(** ** Round trip of date-only strings *)

Section RoundTrip.
Import JSString JSDate DateUtils Aux.

Lemma localDay_UTC_midnight tz d : localDay tz (UTC tz (MakeDate d 0)) = d.
Proof.
  unfold localDay, LocalTime, UTC, Day, MakeDate, msPerDay.
  Z.div_mod_to_equations. lia.
Qed.

(** C2, at a year below 1000.  ["0099-01-01"] has the strict shape and
    names a day of the calendar; it parses, in every zone, and the text
    written back is ["99-01-01"]: the year is printed without padding. *)
Theorem C2_year_below_1000_unpadded tz host :
  isDateOnly "0099-01-01" = true
  ∧ calendarDate "0099-01-01" = Some (99, 1, 1)
  ∧ formatDateForGantt tz <$> parseObsidianDate tz host (UString "0099-01-01")
    = Some "99-01-01"%string.
Proof.
  split; [reflexivity|]. split; [reflexivity|].
  rewrite (parse_calendarDate tz host "0099-01-01" 99 1 1) by reflexivity.
  cbn [fmap option_fmap option_map]. f_equal.
  rewrite formatDateForGantt_day, localDay_UTC_midnight.
  vm_compute. reflexivity.
Qed.

(** The round trip in the common era of four-digit years, in a fixed zone. *)
Example roundtrip_2026_03_15 :
  formatDateForGantt (-28800000)
    <$> parseObsidianDate (-28800000) noHost (UString "2026-03-15")
  = Some "2026-03-15"%string.
Proof. vm_compute. reflexivity. Qed.
End RoundTrip.

(** ** Concrete notes *)

Section Concrete.
Import JSString JSDate DateUtils JSNumber Obsidian TaskMapper Aux.

(** A note without an end date spans one day. *)
Example no_end_spans_one_day :
  (fun ts : list GanttTask => (fun t => (start t, end_ t, isMilestone t)) <$> ts)
    <$> mapEntriesToTasks 0 noHost [noteDesign] sampleConfig
  = Some [("2026-03-15"%string, "2026-03-16"%string, false)].
Proof. vm_compute. reflexivity. Qed.

(** An end before the start is replaced by the one-day default. *)
Example backwards_end_defaulted :
  (fun ts : list GanttTask => (fun t => (start t, end_ t, isMilestone t)) <$> ts)
    <$> mapEntriesToTasks 0 noHost [noteBackwards] sampleConfig
  = Some [("2026-03-15"%string, "2026-03-16"%string, false)].
Proof. vm_compute. reflexivity. Qed.

(** Start and end the same date: a milestone, stored one day wide. *)
Example same_date_is_milestone :
  (fun ts : list GanttTask => (fun t => (start t, end_ t, isMilestone t)) <$> ts)
    <$> mapEntriesToTasks 0 noHost [noteReview] sampleConfig
  = Some [("2026-03-15"%string, "2026-03-16"%string, true)].
Proof. vm_compute. reflexivity. Qed.

(** C1, at the end of the range of dates.  [noteEdge] starts at the
    last instant a [Date] can hold and has no end.  In every zone the
    day after the start is beyond the range, [setDate] leaves an
    Invalid Date, the guard [endDate < startDate] does not see it, and
    the task is stored with the end [NaN-NaN-NaN]: no date, and not the
    start plus one day. *)
Theorem C1_end_invalid_at_range_edge tz :
  ∃ t, mapEntriesToTasks tz edgeHost [noteEdge] sampleConfig = Some [t]
       ∧ parsedStart tz edgeHost sampleConfig noteEdge = Some maxTimeValue
       ∧ parsedEnd tz edgeHost sampleConfig noteEdge = None
       ∧ nextDay tz maxTimeValue = InvalidDate
       ∧ start t = formatDateForGantt tz maxTimeValue
       ∧ end_ t = "NaN-NaN-NaN"%string.
Proof.
  assert (Hsd : parsedStart tz edgeHost sampleConfig noteEdge = Some maxTimeValue)
    by (vm_compute; reflexivity).
  assert (Hpe : parsedEnd tz edgeHost sampleConfig noteEdge = None)
    by (vm_compute; reflexivity).
  destruct (proj2 (mapEntry_is_Some tz edgeHost (buildNameToId [noteEdge])
                     (buildColorValues sampleConfig [noteEdge]) sampleConfig noteEdge))
    as [t Hmap]; [rewrite Hsd; eauto|].
  exists t. split.
  { unfold mapEntriesToTasks. cbn [sampleConfig startProperty isSet truthy negb].
    unfold mapAll. cbn [omap list_omap]. rewrite Hmap. reflexivity. }
  split; [exact Hsd|]. split; [exact Hpe|].
  split; [rewrite nextDay_eq; reflexivity|].
  destruct (mapEntry_fields tz edgeHost _ _ _ _ _ Hmap) as (sd & Hsd' & _ & _ & Hstart & _).
  rewrite Hsd in Hsd'. injection Hsd' as <-. split; [exact Hstart|].
  destruct (mapEntry_end tz edgeHost _ _ _ _ _ _ Hmap Hsd) as (_ & _ & Hdefault).
  rewrite Hdefault by (left; exact Hpe). reflexivity.
Qed.

(** The same note seen from Greenwich. *)
Example edge_note_at_greenwich :
  (fun ts : list GanttTask => (fun t => (start t, end_ t, isMilestone t)) <$> ts)
    <$> mapEntriesToTasks 0 edgeHost [noteEdge] sampleConfig
  = Some [("275760-09-13"%string, "NaN-NaN-NaN"%string, false)].
Proof. vm_compute. reflexivity. Qed.

(** C4, at a start and an end on one day.  The start and the end of
    [noteLaunch] have the same canonical text, yet the task is no
    milestone: the end carries a time of day, and the code compares
    time values.  The end is not widened either: the task is stored
    with its end equal to its start. *)
Theorem C4_same_day_not_milestone :
  ∃ t sd pe,
    mapEntriesToTasks 0 noHost [noteLaunch] sampleConfig = Some [t]
    ∧ parsedStart 0 noHost sampleConfig noteLaunch = Some sd
    ∧ parsedEnd 0 noHost sampleConfig noteLaunch = Some pe
    ∧ formatDateForGantt 0 sd = formatDateForGantt 0 pe
    ∧ isMilestone t = false
    ∧ start t = "2026-03-15"%string
    ∧ end_ t = "2026-03-15"%string
    ∧ ¬ (isMilestone t = true
         ↔ formatDateForGantt 0 sd = formatDateForGantt 0 pe).
Proof.
  eexists _, _, _.
  split; [vm_compute; reflexivity|].
  split; [vm_compute; reflexivity|].
  split; [vm_compute; reflexivity|].
  split; [vm_compute; reflexivity|].
  split; [reflexivity|].
  split; [reflexivity|].
  split; [reflexivity|].
  intros [_ H]. cbn [isMilestone] in H.
  assert (E : false = true) by (apply H; vm_compute; reflexivity).
  discriminate E.
Qed.

(** C7, as stated, fails.  The progress ["40.5"] is stored as 81/2,
    which is no integer. *)
Lemma C7_fractional_progress_kept :
  ∃ t, mapEntriesToTasks 0 noHost [noteDesign] sampleConfig = Some [t]
       ∧ progress t = (81 # 2)%Q
       ∧ ¬ ∃ z : Z, (progress t == inject_Z z)%Q.
Proof.
  eexists. split; [vm_compute; reflexivity|]. split; [reflexivity|].
  intros (z & Hz). cbn [progress] in Hz. unfold Qeq in Hz. cbn in Hz. lia.
Qed.
End Concrete.

(** ** Dependency links *)

Section DependencyLinks.
Import JSString JSNumber Obsidian TaskMapper Aux.

Lemma stripPrefix2_inv a b s r :
  stripPrefix2 a b s = Some r -> s = String a (String b r).
Proof.
  unfold stripPrefix2. destruct s as [|x [|y s']]; try discriminate.
  destruct (isChar a x) eqn:Ea, (isChar b y) eqn:Eb; try discriminate.
  intros [= ->]. unfold isChar in *.
  apply Ascii.eqb_eq in Ea, Eb. now subst.
Qed.

Lemma spanChars_length f s x y :
  spanChars f s = (x, y) -> String.length s = (String.length x + String.length y)%nat.
Proof.
  revert x y. induction s as [|a r IH]; intros x y; cbn [spanChars].
  - intros [= <- <-]. reflexivity.
  - destruct (f a).
    + destruct (spanChars f r) as [x' y'] eqn:E. intros [= <- <-].
      cbn [String.length]. now rewrite (IH x' y' eq_refl).
    + intros [= <- <-]. reflexivity.
Qed.

(** A match starts with two opening brackets and consumes them. *)
Lemma matchWikiLinkHere_inv s target rest :
  matchWikiLinkHere s = Some (target, rest) ->
  startsWith "[[" s = true ∧ (String.length rest < String.length s)%nat.
Proof.
  unfold matchWikiLinkHere.
  destruct (stripPrefix2 "[" "[" s) as [r|] eqn:E0; [|discriminate].
  apply stripPrefix2_inv in E0. subst s.
  destruct (spanChars _ r) as [tg r1] eqn:E1.
  apply spanChars_length in E1.
  destruct (negb (truthy tg)); [discriminate|].
  destruct (stripPrefix2 "]" "]" r1) as [r2|] eqn:E2.
  - apply stripPrefix2_inv in E2. subst r1. intros [= <- <-].
    split; [reflexivity|]. cbn [String.length] in *. lia.
  - destruct r1 as [|c r2]; [discriminate|].
    destruct (isChar "|" c); [|discriminate].
    destruct (spanChars _ r2) as [al r3] eqn:E3.
    apply spanChars_length in E3.
    destruct (negb (truthy al)); [discriminate|].
    destruct (stripPrefix2 "]" "]" r3) as [r4|] eqn:E4; [|discriminate].
    apply stripPrefix2_inv in E4. subst r3. intros [= <- <-].
    split; [reflexivity|]. cbn [String.length] in *. lia.
Qed.

(** The scan does not depend on the fuel once it exceeds the length. *)
Lemma execAll_enough fuel1 :
  ∀ fuel2 s, (String.length s < fuel1)%nat -> (String.length s < fuel2)%nat ->
             execAll fuel1 s = execAll fuel2 s.
Proof.
  induction fuel1 as [|f1 IH]; intros fuel2 s H1 H2; [lia|].
  destruct fuel2 as [|f2]; [lia|]. cbn [execAll].
  destruct (matchWikiLinkHere s) as [[tg rest]|] eqn:E.
  - apply matchWikiLinkHere_inv in E as [_ Hlen]. f_equal. apply IH; lia.
  - destruct s as [|a r]; [reflexivity|]. cbn [String.length] in *. apply IH; lia.
Qed.

(** Without two opening brackets in the text there is no link. *)
Lemma execAll_no_brackets fuel :
  ∀ s, includes "[[" s = false -> execAll fuel s = [].
Proof.
  induction fuel as [|f IH]; intros s Hs; [reflexivity|]. cbn [execAll].
  destruct s as [|a r].
  - reflexivity.
  - cbn [includes] in Hs. apply orb_false_iff in Hs as [Hst Hin].
    destruct (matchWikiLinkHere (String a r)) as [[tg rest]|] eqn:E.
    + apply matchWikiLinkHere_inv in E as [E _]. congruence.
    + now apply IH.
Qed.

Lemma resolveName_elem nameToId n i :
  i ∈ resolveName nameToId n -> nameToId !! n = Some i ∧ truthy i = true.
Proof.
  unfold resolveName. destruct (nameToId !! n) as [j|]; [|intros H; inversion H].
  destruct (truthy j) eqn:E; [|intros H; inversion H].
  intros ->%list_elem_of_singleton. auto.
Qed.

(** C6, as the code has it.  Each task carries the ids resolved from the
    dependency text of its entry, and an entry gets a task whenever its
    start parses, whatever that text is.  For every text: the plain-name
    branch is taken exactly when the text has no two opening brackets,
    so never once a bracketed link was found; it is a choice for the
    whole text, not per name; every id kept is the index entry of a name,
    and names missing from the index add nothing. *)
Theorem C6_plain_fallback_gate tz host entries config :
  (∃ tasks, mapEntriesToTasks tz host entries config = Some tasks
     ∧ ∀ t, t ∈ tasks ->
         ∃ e, e ∈ entries
              ∧ dependencies t
                = match rawOf e (dependenciesProperty config) with
                  | Some depStr =>
                      join ", " (resolveDependencies (buildNameToId entries) depStr)
                  | None => EmptyString
                  end)
  ∧ (∀ nameToId colorValues e,
       is_Some (mapEntry tz host nameToId colorValues config e)
       ↔ is_Some (parsedStart tz host config e))
  ∧ (∀ nameToId depStr,
       usesPlainFallback nameToId depStr = negb (includes "[[" depStr)
       ∧ (wikiLinkTargets depStr ≠ [] -> usesPlainFallback nameToId depStr = false)
       ∧ resolveDependencies nameToId depStr
         = (if usesPlainFallback nameToId depStr
            then plainNames depStr ≫= resolveName nameToId
            else wikiLinkTargets depStr
                   ≫= (fun target => resolveName nameToId (trim target)))
       ∧ (∀ i, i ∈ resolveDependencies nameToId depStr ->
               ∃ n, nameToId !! n = Some i)).
Proof.
  split; [|split].
  - destruct (mapEntriesToTasks_returns tz host entries config)
      as (tasks & Hm & _ & Hall).
    exists tasks. split; [exact Hm|]. intros t Ht.
    destruct (Hall t Ht) as (e & He & Hmap).
    destruct (mapEntry_fields tz host _ _ _ _ _ Hmap)
      as (sd & _ & _ & _ & _ & _ & Hdeps & _).
    exists e. split; [exact He|]. rewrite Hdeps. reflexivity.
  - intros. apply mapEntry_is_Some.
  - intros nameToId depStr.
    assert (Hgate : usesPlainFallback nameToId depStr = negb (includes "[[" depStr)).
    { unfold usesPlainFallback. destruct (includes "[[" depStr) eqn:E.
      - apply andb_false_r.
      - unfold wikiLinkTargets. rewrite execAll_no_brackets by assumption.
        reflexivity. }
    assert (Hres : resolveDependencies nameToId depStr
                   = (if usesPlainFallback nameToId depStr
                      then plainNames depStr ≫= resolveName nameToId
                      else wikiLinkTargets depStr
                             ≫= (fun target => resolveName nameToId (trim target)))).
    { unfold resolveDependencies, usesPlainFallback.
      destruct ((length (wikiLinkTargets depStr
                   ≫= (fun t => resolveName nameToId (trim t))) =? 0)%nat
                && negb (includes "[[" depStr)) eqn:E; [|reflexivity].
      apply andb_prop in E as [E _]. apply Nat.eqb_eq in E.
      destruct (wikiLinkTargets depStr ≫= _); [reflexivity | discriminate E]. }
    split; [exact Hgate|]. split; [|split; [exact Hres|]].
    + intros Hne. rewrite Hgate. destruct (includes "[[" depStr) eqn:E; [reflexivity|].
      exfalso. apply Hne. unfold wikiLinkTargets. now apply execAll_no_brackets.
    + intros i Hi. rewrite Hres in Hi.
      destruct (usesPlainFallback nameToId depStr);
        apply list_elem_of_bind in Hi as (n & Hi & _);
        apply resolveName_elem in Hi as [Hi _]; eauto.
Qed.

(** C6, as stated, fails.  The text below holds no bracketed link, and a
    name of the index after a comma; the plain-name branch is not taken
    and nothing is resolved. *)
Lemma C6_unclosed_bracket_blocks_fallback :
  wikiLinkTargets "[[Research, Design" = []
  ∧ usesPlainFallback sampleIndex "[[Research, Design" = false
  ∧ resolveDependencies sampleIndex "[[Research, Design" = []
  ∧ resolveDependencies sampleIndex "Research, Design" = ["Design.md"%string].
Proof. vm_compute. repeat split; reflexivity. Qed.
End DependencyLinks.

(** ** The sorter as a whole *)

Section Sorter.
Import JSString TaskMapper Aux.



(** A two-cycle next to an independent task: all three come out once. *)
Example cycle_falls_back_to_dates :
  fmap (M:=list) id <$> sortByDependencies cycleAndFree
  = Some ["C"%string; "B"%string; "A"%string].
Proof. vm_compute. reflexivity. Qed.
End Sorter.

(** ** Auto-detection of roles *)

Section Detection.
Import JSString Obsidian TaskMapper GanttView Aux.

Ltac bool_clash :=
  match goal with
  | H : @eq bool ?x true, H' : @eq bool ?x false |- _ =>
      rewrite H in H'; discriminate H'
  end.

Lemma findByKeywords_Some props keywords p :
  findByKeywords props keywords = Some p ->
  p ∈ props ∧ existsb (fun k => includes k (getName p)) keywords = true.
Proof.
  unfold findByKeywords. intros H. apply find_some in H as [Hin Hk].
  split; [now apply list_elem_of_In | exact Hk].
Qed.


Lemma filter_kind (f : BasesPropertyId -> bool) allProperties p :
  p ∈ List.filter f allProperties -> p ∈ allProperties ∧ f p = true.
Proof. rewrite list_elem_of_In, filter_In, <- list_elem_of_In. tauto. Qed.

(** [find] returns the first element that passes the test. *)
Lemma find_first {A} (f : A -> bool) l x :
  List.find f l = Some x
  ↔ ∃ pre post, l = pre ++ x :: post ∧ f x = true ∧ ∀ q, q ∈ pre -> f q = false.
Proof.
  induction l as [|a l IH]; cbn [List.find].
  - split; [discriminate|]. intros (pre & post & E & _). now destruct pre.
  - destruct (f a) eqn:Ea.
    + split.
      * intros [= <-]. exists [], l. split; [reflexivity|]. split; [exact Ea|].
        intros q Hq. now apply elem_of_nil in Hq.
      * intros (pre & post & E & Hx & Hpre). destruct pre as [|b pre].
        -- now injection E as ->.
        -- injection E as <- _. rewrite (Hpre a) in Ea by left. discriminate.
    + rewrite IH. split.
      * intros (pre & post & -> & Hx & Hpre). exists (a :: pre), post.
        split; [reflexivity|]. split; [exact Hx|].
        intros q Hq. apply elem_of_cons in Hq as [->|Hq]; auto.
      * intros (pre & post & E & Hx & Hpre). destruct pre as [|b pre].
        -- injection E as -> _. congruence.
        -- injection E as <- ->. exists pre, post. split; [reflexivity|].
           split; [exact Hx|]. intros q Hq. apply Hpre. now right.
Qed.


(** The kinds exclude one another, and a [null] answer has no kind. *)
Lemma kinds_exclusive v :
  (isDateValue v = true -> isNumberValue v = false ∧ isOtherValue v = false)
  ∧ (isNumberValue v = true -> isOtherValue v = false)
  ∧ (v = None ->
     isDateValue v = false ∧ isNumberValue v = false ∧ isOtherValue v = false).
Proof.
  destruct v as [[| | |]|]; cbn; repeat split; intros; congruence.
Qed.

(** Each role is given to a property of the kind the role asks for. *)
Lemma role_kinds allProperties firstEntry rest p :
  let d := autoDetectProperties allProperties (firstEntry :: rest) in
  (det_start d = Some p -> isDateValue (getValue firstEntry p) = true)
  ∧ (det_end d = Some p -> isDateValue (getValue firstEntry p) = true)
  ∧ (det_progress d = Some p -> isNumberValue (getValue firstEntry p) = true)
  ∧ (det_dependencies d = Some p -> isOtherValue (getValue firstEntry p) = true)
  ∧ (det_colorBy d = Some p -> isOtherValue (getValue firstEntry p) = true).
Proof.
  cbn zeta. unfold autoDetectProperties. cbn [det_start det_end det_progress
    det_dependencies det_colorBy].
  set (dateProps := List.filter (fun q => isDateValue (getValue firstEntry q)) allProperties).
  set (numberProps := List.filter (fun q => isNumberValue (getValue firstEntry q)) allProperties).
  set (stringProps := List.filter (fun q => isOtherValue (getValue firstEntry q)) allProperties).
  assert (Hdate : ∀ q, q ∈ dateProps -> isDateValue (getValue firstEntry q) = true)
    by (intros q Hq; now apply filter_kind in Hq as [_ Hq]).
  repeat split.
  - destruct (negb (isSet (findByKeywords dateProps startKeywords))
              && (0 <? length dateProps)%nat).
    + intros H. apply Hdate. destruct dateProps; [discriminate|].
      cbn in H. injection H as ->. left.
    + intros H. apply findByKeywords_Some in H as [H _]. now apply Hdate.
  - destruct (negb (isSet (findByKeywords dateProps endKeywords))
              && (1 <? length dateProps)%nat).
    + intros H. apply find_some in H as [H _]. now apply Hdate, list_elem_of_In.
    + intros H. apply findByKeywords_Some in H as [H _]. now apply Hdate.
  - intros H. apply findByKeywords_Some in H as [H _].
    now apply filter_kind in H as [_ H].
  - intros H. apply findByKeywords_Some in H as [H _].
    now apply filter_kind in H as [_ H].
  - intros H. apply findByKeywords_Some in H as [H _].
    now apply filter_kind in H as [_ H].
Qed.



(** A date property named [due] is the end by keyword and, being the
    first date property, the start by position. *)
Example due_fills_both_date_roles :
  autoDetectProperties ["note.due"%string; "note.scheduled"%string] [noteDue]
  = {| det_start := Some "note.due"%string; det_end := Some "note.due"%string;
       det_dependencies := None; det_progress := None; det_colorBy := None |}.
Proof. vm_compute. reflexivity. Qed.

(** Detection reads the first entry only: the entries after it play no
    part, two lists whose first entries answer alike on the available
    properties get the same roles, and a property for which the first
    entry answers [null] gets no role. *)
Lemma detection_reads_first_entry allProperties firstEntry rest :
  autoDetectProperties allProperties (firstEntry :: rest)
  = autoDetectProperties allProperties [firstEntry]
  ∧ (∀ firstEntry' rest',
       (∀ p, p ∈ allProperties -> getValue firstEntry p = getValue firstEntry' p) ->
       autoDetectProperties allProperties (firstEntry :: rest)
       = autoDetectProperties allProperties (firstEntry' :: rest'))
  ∧ (∀ p, getValue firstEntry p = None ->
          let d := autoDetectProperties allProperties (firstEntry :: rest) in
          det_start d ≠ Some p ∧ det_end d ≠ Some p ∧ det_dependencies d ≠ Some p
          ∧ det_progress d ≠ Some p ∧ det_colorBy d ≠ Some p).
Proof.
  split; [reflexivity|]. split.
  - intros e' rest' Hsame. unfold autoDetectProperties.
    assert (Hf : ∀ k : option Value -> bool,
               List.filter (fun p => k (getValue firstEntry p)) allProperties
               = List.filter (fun p => k (getValue e' p)) allProperties).
    { intros k. apply filter_ext_in. intros p Hp.
      now rewrite (Hsame p) by now apply list_elem_of_In. }
    now rewrite (Hf isDateValue), (Hf isNumberValue), (Hf isOtherValue).
  - intros p Hnull.
    pose proof (role_kinds allProperties firstEntry rest p) as K. cbn zeta in K |- *.
    destruct K as (Ks & Ke & Kp & Kd & Kc).
    destruct (kinds_exclusive (getValue firstEntry p)) as (_ & _ & Xnull).
    destruct (Xnull Hnull) as (N1 & N2 & N3).
    repeat split; intros H;
      [apply Ks in H | apply Ke in H | apply Kd in H | apply Kp in H | apply Kc in H];
      bool_clash.
Qed.

(** A property that holds the null value object on the first entry is
    taken for a textual one: it is never start, end or progress, and it
    is given the colour role as soon as it matches a colour keyword and
    no textual property before it does (likewise the dependency
    role). *)
Lemma null_value_object_is_textual allProperties firstEntry rest p :
  getValue firstEntry p = Some NullValue ->
  let d := autoDetectProperties allProperties (firstEntry :: rest) in
  det_start d ≠ Some p ∧ det_end d ≠ Some p ∧ det_progress d ≠ Some p
  ∧ (∀ pre post,
       allProperties = pre ++ p :: post ->
       existsb (fun k => includes k (getName p)) colorKeywords = true ->
       (∀ q, q ∈ pre ->
             isOtherValue (getValue firstEntry q) = true ->
             existsb (fun k => includes k (getName q)) colorKeywords = false) ->
       det_colorBy d = Some p)
  ∧ (∀ pre post,
       allProperties = pre ++ p :: post ->
       existsb (fun k => includes k (getName p)) depKeywords = true ->
       (∀ q, q ∈ pre ->
             isOtherValue (getValue firstEntry q) = true ->
             existsb (fun k => includes k (getName q)) depKeywords = false) ->
       det_dependencies d = Some p).
Proof.
  intros Hnull.
  pose proof (role_kinds allProperties firstEntry rest p) as K. cbn zeta in K |- *.
  destruct K as (Ks & Ke & Kp & _ & _).
  assert (Hfirst : ∀ keywords pre post,
             allProperties = pre ++ p :: post ->
             existsb (fun k => includes k (getName p)) keywords = true ->
             (∀ q, q ∈ pre ->
                   isOtherValue (getValue firstEntry q) = true ->
                   existsb (fun k => includes k (getName q)) keywords = false) ->
             findByKeywords
               (List.filter (fun q => isOtherValue (getValue firstEntry q)) allProperties)
               keywords = Some p).
  { intros keywords pre post -> Hk Hpre. unfold findByKeywords.
    rewrite List.filter_app. cbn [List.filter]. rewrite Hnull. cbn [isOtherValue].
    apply find_first.
    exists (List.filter (fun q => isOtherValue (getValue firstEntry q)) pre),
           (List.filter (fun q => isOtherValue (getValue firstEntry q)) post).
    split; [reflexivity|]. split; [exact Hk|].
    intros q Hq. apply filter_kind in Hq as [Hq1 Hq2]. now apply Hpre. }
  split; [intros H; apply Ks in H; rewrite Hnull in H; discriminate H|].
  split; [intros H; apply Ke in H; rewrite Hnull in H; discriminate H|].
  split; [intros H; apply Kp in H; rewrite Hnull in H; discriminate H|].
  split.
  - intros pre post E Hk Hpre. unfold autoDetectProperties. cbn [det_colorBy].
    exact (Hfirst colorKeywords pre post E Hk Hpre).
  - intros pre post E Hk Hpre. unfold autoDetectProperties. cbn [det_dependencies].
    exact (Hfirst depKeywords pre post E Hk Hpre).
Qed.

(** C10, at a null value object.  On the first entry [noteNullStatus]
    the property [status] holds the null value object, which
    [extractRawValue] reads as null; detection tests [val == null]
    only, takes the property for a textual one and gives it the colour
    role. *)
Theorem C10_null_value_object_gets_a_role :
  getValue noteNullStatus "note.status" = Some NullValue
  ∧ extractRawValue (getValue noteNullStatus "note.status") = None
  ∧ det_colorBy (autoDetectProperties ["note.status"%string] [noteNullStatus])
    = Some "note.status"%string.
Proof. vm_compute. repeat split; reflexivity. Qed.
End Detection.

(** ** Writing a progress edit back *)

Section EditBack.
Import JSString JSNumber Obsidian TaskMapper GanttView Aux.

Lemma writeFrontmatter_one vault filePath key value :
  writeFrontmatter vault filePath [(key, value)]
  = match vault !! filePath with
    | Some fm => <[filePath := <[key := value]> fm]> vault
    | None => vault
    end.
Proof. unfold writeFrontmatter. now destruct (vault !! filePath). Qed.

(** The callback does nothing when progress display is off, the task is
    unknown or no progress property is mapped. *)
Lemma on_progress_change_idle showProgress v vault taskId progress :
  showProgress = false ∨ taskMap v !! taskId = None
  ∨ isSet (progressProperty (getTaskMapperConfig v)) = false ->
  on_progress_change showProgress v vault taskId progress = vault.
Proof.
  unfold on_progress_change, isSet. intros [-> | [-> | H]]; [reflexivity | |].
  - now destruct showProgress.
  - destruct showProgress; [|reflexivity]. cbn [negb].
    destruct (taskMap v !! taskId); [|reflexivity].
    destruct (progressProperty (getTaskMapperConfig v)); [|reflexivity].
    now rewrite H.
Qed.



(** The edit on the sample vault: one field of one file changes. *)
Example progress_edit_on_sample :
  let vault' := on_progress_change true sampleView sampleVault "Design.md" (123 # 2) in
  vault' !! "Design.md"%string ≫= (.!! "progress"%string) = Some (FMNumber 62)
  ∧ vault' !! "Design.md"%string ≫= (.!! "status"%string) = Some (FMText "In Progress")
  ∧ vault' !! "Research.md"%string ≫= (.!! "progress"%string) = Some (FMNumber 10).
Proof. vm_compute. repeat split; reflexivity. Qed.
End EditBack.

(** * The order of strings by code units *)

Module StringOrder.

Lemma ascii_compare_refl a : (a ?= a)%char = Eq.
Proof. unfold Ascii.compare. apply N.compare_refl. Qed.

Lemma ascii_compare_lt_trans a b c :
  (a ?= b)%char = Lt -> (b ?= c)%char = Lt -> (a ?= c)%char = Lt.
Proof. unfold Ascii.compare. rewrite !N.compare_lt_iff. lia. Qed.

Lemma compare_refl s : (s ?= s)%string = Eq.
Proof.
  induction s as [|a s IH]; [reflexivity|].
  cbn [String.compare]. now rewrite ascii_compare_refl.
Qed.

Lemma compare_lt_trans a :
  ∀ b c, (a ?= b)%string = Lt -> (b ?= c)%string = Lt -> (a ?= c)%string = Lt.
Proof.
  induction a as [|x a IH]; intros [|y b] [|z c]; cbn [String.compare];
    try congruence.
  destruct (x ?= y)%char eqn:Exy; try discriminate.
  - apply Ascii.compare_eq_iff in Exy as ->.
    destruct (y ?= z)%char; try congruence. apply IH.
  - intros _. destruct (y ?= z)%char eqn:Eyz; try discriminate.
    + apply Ascii.compare_eq_iff in Eyz as <-. now rewrite Exy.
    + intros _. now rewrite (ascii_compare_lt_trans x y z).
Qed.

Lemma leb_refl s : String.leb s s = true.
Proof. unfold String.leb. now rewrite compare_refl. Qed.

Lemma ltb_leb a b : String.ltb a b = true -> String.leb a b = true.
Proof. unfold String.ltb, String.leb. now destruct (a ?= b)%string. Qed.

Lemma ltb_false_leb a b : String.ltb a b = false -> String.leb b a = true.
Proof.
  unfold String.ltb, String.leb. rewrite (String.compare_antisym a b).
  now destruct (b ?= a)%string.
Qed.

Lemma leb_trans a b c :
  String.leb a b = true -> String.leb b c = true -> String.leb a c = true.
Proof.
  unfold String.leb.
  destruct (a ?= b)%string eqn:Eab; try discriminate.
  - apply String.compare_eq_iff in Eab as ->. auto.
  - destruct (b ?= c)%string eqn:Ebc; try discriminate.
    + apply String.compare_eq_iff in Ebc as <-. now rewrite Eab.
    + now rewrite (compare_lt_trans a b c).
Qed.

End StringOrder.

(** * Group headers and the earliest start *)

Module GroupHeaders.
Import JSString Obsidian TaskMapper TaskMapperRest GanttView GanttViewRest Aux
  StringOrder.

(** The loop of [createGroupHeaderTask] keeps: both ends are values met
    so far, below and above all of them; it holds for every starting
    pair [(lo, hi)] and every list it goes through. *)
Lemma span_fold l :
  ∀ lo hi,
    let r := foldl (fun acc t =>
                      (if String.ltb (start t) acc.1 then start t else acc.1,
                       if String.ltb acc.2 (end_ t) then end_ t else acc.2))
                   (lo, hi) l in
    (r.1 = lo ∨ ∃ t, t ∈ l ∧ r.1 = start t)
    ∧ (r.2 = hi ∨ ∃ t, t ∈ l ∧ r.2 = end_ t)
    ∧ String.leb r.1 lo = true ∧ String.leb hi r.2 = true
    ∧ ∀ t, t ∈ l -> String.leb r.1 (start t) = true
                    ∧ String.leb (end_ t) r.2 = true.
Proof.
  induction l as [|a l IH]; intros lo hi; cbn [foldl fst snd].
  - cbn. split; [now left|]. split; [now left|].
    split; [apply leb_refl|]. split; [apply leb_refl|].
    intros t Ht. now apply elem_of_nil in Ht.
  - set (lo' := if String.ltb (start a) lo then start a else lo).
    set (hi' := if String.ltb hi (end_ a) then end_ a else hi).
    destruct (IH lo' hi') as (H1 & H2 & H3 & H4 & H5).
    assert (Llo : String.leb lo' lo = true ∧ String.leb lo' (start a) = true).
    { subst lo'. destruct (String.ltb (start a) lo) eqn:E.
      - split; [now apply ltb_leb | apply leb_refl].
      - split; [apply leb_refl | now apply ltb_false_leb]. }
    assert (Lhi : String.leb hi hi' = true ∧ String.leb (end_ a) hi' = true).
    { subst hi'. destruct (String.ltb hi (end_ a)) eqn:E.
      - split; [now apply ltb_leb | apply leb_refl].
      - split; [apply leb_refl | now apply ltb_false_leb]. }
    destruct Llo as [La Lb], Lhi as [Lc Ld].
    split; [|split; [|split; [|split]]].
    + destruct H1 as [->|(t & Ht & ->)].
      * subst lo'. destruct (String.ltb (start a) lo); [right|left; reflexivity].
        exists a. split; [left|reflexivity].
      * right. exists t. split; [now right|reflexivity].
    + destruct H2 as [->|(t & Ht & ->)].
      * subst hi'. destruct (String.ltb hi (end_ a)); [right|left; reflexivity].
        exists a. split; [left|reflexivity].
      * right. exists t. split; [now right|reflexivity].
    + eapply leb_trans; eassumption.
    + eapply leb_trans; eassumption.
    + intros t Ht. apply elem_of_cons in Ht as [->|Ht]; [|now apply H5].
      split; eapply leb_trans; eassumption.
Qed.

(** X1. [createGroupHeaderTask] returns null exactly for an empty group.
    Otherwise the header has the id [__group__] followed by the index of
    the group, the label as name, no progress, no dependencies and no
    file; its start is the start of a task of the group and not after
    the start of any of them, and its end is the end of a task of the
    group and not before the end of any of them (strings compared by
    code units). *)
Theorem createGroupHeaderTask_spans label i tasks :
  match createGroupHeaderTask label i tasks with
  | None => tasks = []
  | Some h =>
      id h = "__group__" +:+ pretty i
      ∧ name h = label ∧ filePath h = EmptyString
      ∧ dependencies h = EmptyString ∧ progress h = 0%Q
      ∧ (∃ a, a ∈ tasks ∧ start h = start a)
      ∧ (∃ b, b ∈ tasks ∧ end_ h = end_ b)
      ∧ ∀ t, t ∈ tasks -> String.leb (start h) (start t) = true
                          ∧ String.leb (end_ t) (end_ h) = true
  end.
Proof.
  destruct tasks as [|first rest]; [reflexivity|].
  cbn [createGroupHeaderTask id name filePath dependencies progress start end_].
  pose proof (span_fold (first :: rest) (start first) (end_ first)) as H.
  cbv zeta in H. fold (spanOf first (first :: rest)) in H.
  destruct H as (H1 & H2 & _ & _ & H5).
  repeat (split; [reflexivity|]).
  split; [|split; [|exact H5]].
  - destruct H1 as [E|H1]; [|exact H1]. exists first. split; [left|exact E].
  - destruct H2 as [E|H2]; [|exact H2]. exists first. split; [left|exact E].
Qed.

(** The loop of [getEarliestTaskDate] from a start already found. *)
Lemma earliest_fold l :
  Forall (fun t => truthy (start t) = true) l ->
  ∀ e, truthy e = true ->
    ∃ s, foldl (fun earliest t =>
                  match earliest with
                  | Some e =>
                      if negb (truthy e) || String.ltb (start t) e
                      then Some (start t) else earliest
                  | None => Some (start t)
                  end) (Some e) l = Some s
         ∧ truthy s = true
         ∧ (s = e ∨ s ∈ start <$> l)
         ∧ String.leb s e = true
         ∧ ∀ t, t ∈ l -> String.leb s (start t) = true.
Proof.
  induction 1 as [|a l Ha Hl IH]; intros e He; cbn [foldl].
  - exists e. split; [reflexivity|]. split; [exact He|]. split; [now left|].
    split; [apply leb_refl|]. intros t Ht. now apply elem_of_nil in Ht.
  - rewrite He. cbn [negb orb].
    destruct (String.ltb (start a) e) eqn:E.
    + destruct (IH (start a) Ha) as (s & Hs & Ht & Hin & Hle & Hall).
      exists s. split; [exact Hs|]. split; [exact Ht|]. split; [|split].
      * right. rewrite fmap_cons. destruct Hin as [->|Hin]; [left|now right].
      * eapply leb_trans; [exact Hle|]. now apply ltb_leb.
      * intros t Hin'. apply elem_of_cons in Hin' as [->|Hin']; auto.
    + destruct (IH e He) as (s & Hs & Ht & Hin & Hle & Hall).
      exists s. split; [exact Hs|]. split; [exact Ht|]. split; [|split].
      * destruct Hin as [->|Hin]; [now left|]. right. rewrite fmap_cons. now right.
      * exact Hle.
      * intros t Hin'. apply elem_of_cons in Hin' as [->|Hin']; auto.
        eapply leb_trans; [exact Hle|]. now apply ltb_false_leb.
Qed.

(** X2. When no task has an empty start, [getEarliestTaskDate] returns
    null for the empty list only, and otherwise the start of one of the
    tasks that is not after the start of any of them. *)
Theorem getEarliestTaskDate_least tasks :
  Forall (fun t => truthy (start t) = true) tasks ->
  match getEarliestTaskDate tasks with
  | None => tasks = []
  | Some s => s ∈ start <$> tasks
              ∧ ∀ t, t ∈ tasks -> String.leb s (start t) = true
  end.
Proof.
  intros H. destruct H as [|a l Ha Hl]; [reflexivity|].
  unfold getEarliestTaskDate. cbn [foldl].
  destruct (earliest_fold l Hl (start a) Ha) as (s & -> & _ & Hin & Hle & Hall).
  split.
  - rewrite fmap_cons. destruct Hin as [->|Hin]; [left|now right].
  - intros t Ht. apply elem_of_cons in Ht as [->|Ht]; auto.
Qed.

Lemma getEarliestTaskDate_least_witness :
  Forall (fun t => truthy (start t) = true) cycleAndFree
  ∧ match getEarliestTaskDate cycleAndFree with
    | None => cycleAndFree = []
    | Some s => s ∈ start <$> cycleAndFree
                ∧ ∀ t, t ∈ cycleAndFree -> String.leb s (start t) = true
    end.
Proof.
  assert (H : Forall (fun t => truthy (start t) = true) cycleAndFree)
    by (repeat constructor).
  split; [exact H|]. exact (getEarliestTaskDate_least cycleAndFree H).
Defined.

Example earliest_of_three :
  getEarliestTaskDate cycleAndFree = Some "2026-01-01"%string
  ∧ getEarliestTaskDate [] = None.
Proof. split; reflexivity. Qed.

End GroupHeaders.

(** * Dates written back to the notes *)

Module WriteBackDates.
Import JSString JSDate DateUtils DateUtilsRest Obsidian TaskMapper GanttView
  GanttViewRest Aux AuxRest.

Ltac split_cmp :=
  repeat match goal with
         | |- context [?a <? ?b] => destruct (Z.ltb_spec a b)
         end.

Lemma monthOfDayInYear_exact leap w :
  0 <= leap <= 1 -> 0 <= w < 365 + leap ->
  0 <= monthOfDayInYear leap w <= 11
  ∧ monthStart leap (monthOfDayInYear leap w) <= w
  ∧ w < monthStart leap (monthOfDayInYear leap w + 1).
Proof.
  intros Hl Hw. unfold monthOfDayInYear. split_cmp;
    repeat match goal with
           | |- context [monthStart ?l ?e] =>
               let v := eval vm_compute in e in
               progress change (monthStart l e) with (monthStart l v)
           end; cbv [monthStart]; lia.
Qed.

(** The fields of a day name that day again. *)
Lemma civil_inverse n y m d :
  civil n = (y, m, d) ->
  1 <= m <= 12 ∧ 1 <= d <= DaysInMonth y (m - 1) ∧ MakeDay y (m - 1) d = n.
Proof.
  unfold civil, DateFromTime, MonthFromTime, DayWithinYear, InLeapYear, YearFromTime.
  replace (Day (n * msPerDay)) with n
    by (unfold Day, msPerDay; Z.div_mod_to_equations; lia).
  intros [= <- <- <-].
  pose proof (YearFromDay_spec n) as Hy. rewrite DayFromYear_succ in Hy.
  unfold DaysInYear in Hy.
  rewrite MakeDay_in_year
    by (pose proof (monthOfDayInYear_range
                      (if isLeapYear (YearFromDay n) then 1 else 0)
                      (n - DayFromYear (YearFromDay n))); lia).
  unfold DaysInMonth.
  set (leap := if isLeapYear (YearFromDay n) then 1 else 0) in *.
  assert (Hl : 0 <= leap <= 1) by (subst leap; destruct (isLeapYear _); lia).
  assert (Hw : 0 <= n - DayFromYear (YearFromDay n) < 365 + leap)
    by (subst leap; destruct (isLeapYear _); lia).
  destruct (monthOfDayInYear_exact leap _ Hl Hw) as (R & L & U).
  set (m0 := monthOfDayInYear leap (n - DayFromYear (YearFromDay n))) in *.
  replace (m0 + 1 - 1) with m0 by lia.
  replace (m0 + 1 - 1 + 1) with (m0 + 1) by lia.
  lia.
Qed.

Lemma digitChar_facts k :
  0 <= k <= 9 -> isDigit (digitChar k) = true ∧ digitVal (digitChar k) = k.
Proof.
  intros Hk.
  assert (Hc : k = 0 \/ k = 1 \/ k = 2 \/ k = 3 \/ k = 4 \/ k = 5 \/ k = 6
               \/ k = 7 \/ k = 8 \/ k = 9) by lia.
  repeat (destruct Hc as [-> | Hc]; [split; reflexivity|]). subst k. split; reflexivity.
Qed.

Lemma num2_digitChar n :
  0 <= n <= 99 -> num2 (digitChar (n / 10)) (digitChar (n mod 10)) = Some n.
Proof.
  intros Hn. unfold num2.
  destruct (digitChar_facts (n / 10)) as [D1 V1]; [Z.div_mod_to_equations; lia|].
  destruct (digitChar_facts (n mod 10)) as [D2 V2]; [Z.div_mod_to_equations; lia|].
  rewrite D1, D2, V1, V2. cbn [andb]. f_equal. Z.div_mod_to_equations. lia.
Qed.

Lemma num4_digitChar n :
  0 <= n <= 9999 ->
  num4 (digitChar (n / 1000)) (digitChar (n / 100 mod 10))
       (digitChar (n / 10 mod 10)) (digitChar (n mod 10)) = Some n.
Proof.
  intros Hn. unfold num4.
  destruct (digitChar_facts (n / 1000)) as [D1 V1]; [Z.div_mod_to_equations; lia|].
  destruct (digitChar_facts (n / 100 mod 10)) as [D2 V2]; [Z.div_mod_to_equations; lia|].
  destruct (digitChar_facts (n / 10 mod 10)) as [D3 V3]; [Z.div_mod_to_equations; lia|].
  destruct (digitChar_facts (n mod 10)) as [D4 V4]; [Z.div_mod_to_equations; lia|].
  rewrite D1, D2, D3, D4, V1, V2, V3, V4. cbn [andb]. f_equal.
  Z.div_mod_to_equations. lia.
Qed.

(** The ten characters of a day of the calendar read back as its fields. *)
Lemma calendarDate_tenChars n y m d :
  civil n = (y, m, d) -> 1000 <= y <= 9999 ->
  calendarDate (tenChars y m d) = Some (y, m, d).
Proof.
  intros Hc Hy. destruct (civil_inverse _ _ _ _ Hc) as (Rm & Rd & _).
  destruct (civil_range _ _ _ _ Hc) as (_ & _ & Rd').
  unfold tenChars, calendarDate.
  change (isChar "-" "-" && isChar "-" "-") with true. cbn iota.
  rewrite num4_digitChar, !num2_digitChar by lia.
  replace ((1 <=? m) && (m <=? 12) && (1 <=? d) && (d <=? DaysInMonth y (m - 1)))
    with true; [reflexivity|].
  symmetry. rewrite !andb_true_iff, !Z.leb_le. lia.
Qed.

Section Host.
Variable tz : Z.
Variable host : string -> option Z.

(** The text of an instant parses to the midnight that starts its
    local day. *)
Lemma parse_formatDateForGantt date :
  1000 <= getFullYear tz date <= 9999 ->
  parseObsidianDate tz host (UString (formatDateForGantt tz date))
  = Some (date - TimeWithinDay (LocalTime tz date)).
Proof.
  intros Hy. rewrite formatDateForGantt_day.
  destruct (civil (localDay tz date)) as [[y m] d] eqn:Hc.
  assert (Ey : y = getFullYear tz date).
  { destruct (civil_range _ _ _ _ Hc) as (-> & _). reflexivity. }
  rewrite (formatDay_tenChars _ _ _ _ Hc) by lia.
  rewrite (parse_calendarDate tz host _ y m d)
    by (apply (calendarDate_tenChars _ _ _ _ Hc); lia).
  destruct (civil_inverse _ _ _ _ Hc) as (_ & _ & ->).
  f_equal. unfold UTC, MakeDate, localDay, Day, TimeWithinDay, LocalTime, msPerDay.
  Z.div_mod_to_equations. lia.
Qed.
(** A local date and time in the [T] form parses to that instant. *)
Lemma parse_dateTime y m d h mi s :
  0 <= y <= 9999 -> 1 <= m <= 12 -> 1 <= d <= DaysInMonth y (m - 1) ->
  0 <= h <= 23 -> 0 <= mi <= 59 -> 0 <= s <= 59 ->
  parseObsidianDate tz host
    (UString
       (String (digitChar (y / 1000)) (String (digitChar (y / 100 mod 10))
         (String (digitChar (y / 10 mod 10)) (String (digitChar (y mod 10))
           (String "-" (twoChars m (String "-" (twoChars d (String "T"
             (twoChars h (String ":" (twoChars mi (String ":"
               (twoChars s EmptyString)))))))))))))))
  = Some (UTC tz (MakeDate (MakeDay y (m - 1) d) (MakeTime h mi s 0))).
Proof.
  intros Hy Hm Hd Hh Hmi Hs.
  assert (Hd' : d <= 31).
  { enough (DaysInMonth y (m - 1) <= 31) by lia.
    assert (Hc : m = 1 \/ m = 2 \/ m = 3 \/ m = 4 \/ m = 5 \/ m = 6 \/ m = 7
                 \/ m = 8 \/ m = 9 \/ m = 10 \/ m = 11 \/ m = 12) by lia.
    unfold DaysInMonth.
    destruct (isLeapYear y);
      repeat (destruct Hc as [-> | Hc]; [apply Z.leb_le; reflexivity|]);
      subst m; apply Z.leb_le; reflexivity. }
  pose proof (num4_digitChar y Hy) as Ny.
  pose proof (num2_digitChar m ltac:(lia)) as Nm.
  pose proof (num2_digitChar d ltac:(lia)) as Nd.
  pose proof (num2_digitChar h ltac:(lia)) as Nh.
  pose proof (num2_digitChar mi ltac:(lia)) as Nmi.
  pose proof (num2_digitChar s ltac:(lia)) as Ns.
  unfold twoChars.
  destruct (num_isDigit4 _ _ _ _ _ Ny) as (D1 & D2 & D3 & D4).
  destruct (num_isDigit2 _ _ _ Nm) as (D5 & D6).
  destruct (num_isDigit2 _ _ _ Nd) as (D7 & D8).
  destruct (num_isDigit2 _ _ _ Nh) as (D9 & D10).
  destruct (num_isDigit2 _ _ _ Nmi) as (D11 & D12).
  destruct (num_isDigit2 _ _ _ Ns) as (D13 & D14).
  destruct (digit_facts _ D1) as (_ & _ & W1), (digit_facts _ D14) as (_ & _ & W14).
  generalize dependent (digitChar (y / 1000)). intros a1.
  generalize dependent (digitChar (y / 100 mod 10)). intros a2.
  generalize dependent (digitChar (y / 10 mod 10)). intros a3.
  generalize dependent (digitChar (y mod 10)). intros a4.
  generalize dependent (digitChar (m / 10)). intros b1.
  generalize dependent (digitChar (m mod 10)). intros b2.
  generalize dependent (digitChar (d / 10)). intros c1.
  generalize dependent (digitChar (d mod 10)). intros c2.
  generalize dependent (digitChar (h / 10)). intros e1.
  generalize dependent (digitChar (h mod 10)). intros e2.
  generalize dependent (digitChar (mi / 10)). intros f1.
  generalize dependent (digitChar (mi mod 10)). intros f2.
  generalize dependent (digitChar (s / 10)). intros g1.
  generalize dependent (digitChar (s mod 10)). intros g2.
  intros.
  unfold parseObsidianDate.
  unfold trim. cbn [trimStart]. rewrite W1.
  unfold trimEnd, String.rev. cbn [String.rev_app trimStart]. rewrite W14.
  cbn [String.rev_app truthy negb].
  cbn [isDateOnly isSpaceDateTime].
  rewrite D1, D2, D3, D4, D5, D6, D7, D8.
  change (isChar "-" "-") with true. change (isChar " " "T") with false.
  cbn [andb]. unfold newDateOfString. cbn [isoLocalDateTime isoSeconds].
  change (isChar "-" "-") with true. change (isChar "T" "T") with true.
  change (isChar ":" ":") with true. cbn [andb].
  rewrite Ny, Nm, Nd, Nh, Nmi, Ns.
  replace ((1 <=? m) && (m <=? 12) && (1 <=? d) && (d <=? DaysInMonth y (m - 1))
           && (h <=? 23) && (mi <=? 59) && (s <=? 59)) with true; [reflexivity|].
  symmetry. rewrite !andb_true_iff, !Z.leb_le. lia.
Qed.

(** X3. In a zone whose offset [tz] from UTC does not change, a date
    written by [formatDateForFrontmatter] is read back by
    [parseObsidianDate], whatever the host's own parser does, when the
    local year has four digits: the date-only form gives the midnight
    that starts the local day of the date, the form with the time
    gives the date cut to the whole second.  (In a zone with
    transitions a local time can be missing or occur twice; such
    zones are outside this statement.) *)
Theorem formatDateForFrontmatter_parses date includeTime :
  1000 <= getFullYear tz date <= 9999 ->
  parseObsidianDate tz host
    (UString (formatDateForFrontmatter tz date includeTime))
  = Some (if includeTime then date - LocalTime tz date mod 1000
          else date - TimeWithinDay (LocalTime tz date)).
Proof.
  intros Hy. unfold formatDateForFrontmatter.
  destruct includeTime; cbn [negb]; [|now apply parse_formatDateForGantt].
  destruct (civil (localDay tz date)) as [[y m] d] eqn:Hc.
  assert (E : Day (LocalTime tz date) = Day (localDay tz date * msPerDay)).
  { unfold localDay, Day, msPerDay. Z.div_mod_to_equations. lia. }
  destruct (civil_of_Day _ _ E) as (HY & HM & HD).
  unfold civil in Hc. injection Hc as Ey Em Ed.
  destruct (civil_inverse (localDay tz date) y m d) as (Rm & Rd & Hday).
  { unfold civil. now rewrite Ey, Em, Ed. }
  destruct (civil_range (localDay tz date) y m d) as (_ & _ & Rd').
  { unfold civil. now rewrite Ey, Em, Ed. }
  unfold getFullYear, getMonth, getDate, getHours, getMinutes, getSeconds in *.
  rewrite HY, HM, HD, Ey, Em, Ed in *.
  set (h := HourFromTime (LocalTime tz date)).
  set (mi := MinFromTime (LocalTime tz date)).
  set (sec := SecFromTime (LocalTime tz date)).
  assert (Hh : 0 <= h <= 23)
    by (subst h; unfold HourFromTime; Z.div_mod_to_equations; lia).
  assert (Hmi : 0 <= mi <= 59)
    by (subst mi; unfold MinFromTime; Z.div_mod_to_equations; lia).
  assert (Hs : 0 <= sec <= 59)
    by (subst sec; unfold SecFromTime; Z.div_mod_to_equations; lia).
  rewrite four_digits by lia. rewrite !two_digits by lia.
  cbv [String.append].
  pose proof (parse_dateTime y m d h mi sec ltac:(lia) Rm Rd Hh Hmi Hs) as P.
  unfold twoChars in P. rewrite P. f_equal. rewrite Hday.
  subst h mi sec.
  unfold UTC, MakeDate, MakeTime, localDay, Day, HourFromTime, MinFromTime,
    SecFromTime, LocalTime, msPerDay.
  Z.div_mod_to_equations. lia.
Qed.
End Host.

(** One hour east of Greenwich, 15 March 2026, 13:10:45.123 local time. *)
Lemma formatDateForFrontmatter_parses_witness :
  1000 <= getFullYear 3600000 1773576645123 <= 9999
  ∧ parseObsidianDate 3600000 noHost
      (UString (formatDateForFrontmatter 3600000 1773576645123 true))
    = Some (1773576645123 - LocalTime 3600000 1773576645123 mod 1000).
Proof.
  assert (H : 1000 <= getFullYear 3600000 1773576645123 <= 9999)
    by (vm_compute; split; discriminate).
  split; [exact H|].
  exact (formatDateForFrontmatter_parses 3600000 noHost 1773576645123 true H).
Defined.

End WriteBackDates.

(** * Escaping for the popup *)

Module Escaping.
Import JSString GanttView GanttViewRest Aux AuxRest.

Lemma append_cons x a b : String x a +:+ b = String x (a +:+ b).
Proof. reflexivity. Qed.

Lemma append_assoc a b c : (a +:+ b) +:+ c = a +:+ (b +:+ c).
Proof.
  induction a as [|x a IH]; [reflexivity|]. rewrite !append_cons. f_equal. exact IH.
Qed.

Lemma replaceAll_app c rep a b :
  replaceAll c rep (a +:+ b) = replaceAll c rep a +:+ replaceAll c rep b.
Proof.
  induction a as [|x a IH]; [reflexivity|]. rewrite append_cons. cbn [replaceAll].
  rewrite IH. destruct (Ascii.eqb x c); [|reflexivity]. now rewrite append_assoc.
Qed.

(** The four passes together treat every character on its own: the text
    a pass puts in is left alone by the passes after it. *)
Lemma escapeHtml_cons c s : escapeHtml (String c s) = entity c +:+ escapeHtml s.
Proof.
  unfold escapeHtml, entity. cbn [replaceAll].
  destruct (Ascii.eqb c "&") eqn:E1.
  { rewrite !replaceAll_app. reflexivity. }
  cbn [replaceAll]. destruct (Ascii.eqb c "<") eqn:E2.
  { rewrite !replaceAll_app. reflexivity. }
  cbn [replaceAll]. destruct (Ascii.eqb c ">") eqn:E3.
  { rewrite !replaceAll_app. reflexivity. }
  cbn [replaceAll]. destruct (Ascii.eqb c "034") eqn:E4; reflexivity.
Qed.

Lemma chars_app a b : chars (a +:+ b) = chars a ++ chars b.
Proof.
  induction a as [|x a IH]; [reflexivity|].
  rewrite append_cons. unfold chars in *. cbn [list_ascii_of_string app].
  f_equal. exact IH.
Qed.

(** X4. [escapeHtml] works character by character: [&], [<], [>] and
    the double quote become [&amp;], [&lt;], [&gt;] and [&quot;], every
    other character stays.  So the result holds no [<], no [>] and no
    double quote, and a text with none of the four characters comes
    back as it is. *)
Theorem escapeHtml_char_by_char :
  escapeHtml EmptyString = EmptyString
  ∧ (∀ c s, escapeHtml (String c s) = entity c +:+ escapeHtml s)
  ∧ (∀ s c, c ∈ chars (escapeHtml s) -> c ≠ "<"%char ∧ c ≠ ">"%char ∧ c ≠ "034"%char)
  ∧ (∀ s, (∀ c, c ∈ chars s ->
                c ≠ "&"%char ∧ c ≠ "<"%char ∧ c ≠ ">"%char ∧ c ≠ "034"%char) ->
          escapeHtml s = s).
Proof.
  split; [reflexivity|]. split; [exact escapeHtml_cons|]. split.
  - induction s as [|x s IH]; intros c Hc.
    + now apply elem_of_nil in Hc.
    + rewrite escapeHtml_cons, chars_app, elem_of_app in Hc.
      destruct Hc as [Hc|Hc]; [|now apply IH].
      unfold entity in Hc.
      destruct (Ascii.eqb x "&") eqn:E1;
        [|destruct (Ascii.eqb x "<") eqn:E2;
          [|destruct (Ascii.eqb x ">") eqn:E3;
            [|destruct (Ascii.eqb x "034") eqn:E4]]];
        cbn in Hc;
        repeat (apply elem_of_cons in Hc as [->|Hc]; [repeat split; discriminate|]);
        try (now apply elem_of_nil in Hc).
      apply elem_of_cons in Hc as [->|Hc]; [|now apply elem_of_nil in Hc].
      apply Ascii.eqb_neq in E2, E3, E4. auto.
  - induction s as [|x s IH]; intros Hs; [reflexivity|].
    rewrite escapeHtml_cons, IH.
    + destruct (Hs x) as (N1 & N2 & N3 & N4); [left|].
      apply Ascii.eqb_neq in N1, N2, N3, N4. unfold entity.
      now rewrite N1, N2, N3, N4.
    + intros c Hc. apply Hs. now right.
Qed.

End Escaping.

(** * Dragging a bar and creating a task *)

Module EditDates.
Import JSString JSDate DateUtils DateUtilsRest Obsidian TaskMapper TaskMapperRest
  GanttView GanttViewRest Aux AuxRest.

(** The two assignments of [on_date_change], then the loop of
    [writeFrontmatter], as lookups. *)
Lemma date_updates_lookup (sp ep : option BasesPropertyId) (S E : FMValue)
    (fm : gmap string FMValue) key :
  let updates :=
    match sp with
    | Some p => if truthy p then objSet [] (extractPropertyName p) S else []
    | None => []
    end in
  let updates :=
    match ep with
    | Some p => if truthy p then objSet updates (extractPropertyName p) E else updates
    | None => updates
    end in
  foldl (fun fm kv => <[kv.1 := kv.2]> fm) fm updates !! key
  = if bool_decide (writtenName ep = Some key) then Some E
    else if bool_decide (writtenName sp = Some key) then Some S
    else fm !! key.
Proof.
  cbv zeta. unfold writtenName.
  destruct sp as [p|]; [destruct (truthy p)|]; (destruct ep as [q|]; [destruct (truthy q)|]);
    cbn [objSet foldl fst snd];
    try match goal with
        | |- context [String.eqb ?a ?b] =>
            destruct (String.eqb_spec a b); cbn [foldl fst snd]
        end;
    repeat case_bool_decide; simplify_eq;
    rewrite ?lookup_insert_eq; try reflexivity;
    rewrite ?lookup_insert_ne by congruence; rewrite ?lookup_insert_eq;
    try reflexivity; try congruence.
Qed.

(** X5. Dragging a bar.  A group header or an unknown task changes
    nothing.  For a known task only the file of the task can change; if
    it does not exist the vault is as before; otherwise its frontmatter
    gets the date-only text of the new end under the name of the end
    property and the date-only text of the new start under the name of
    the start property (each when the property is set; the end wins when
    both have one name), and every other field stays. *)
Theorem on_date_change_frame tz v (vault : Vault) taskId start_ end_ :
  (startsWith "__group__" taskId = true ∨ findTask v taskId = None ->
   on_date_change tz v vault taskId start_ end_ = vault)
  ∧ ∀ t, startsWith "__group__" taskId = false -> findTask v taskId = Some t ->
      (∀ path, path ≠ filePath t ->
               on_date_change tz v vault taskId start_ end_ !! path = vault !! path)
      ∧ (vault !! filePath t = None ->
         on_date_change tz v vault taskId start_ end_ = vault)
      ∧ ∀ fm, vault !! filePath t = Some fm ->
          ∃ fm', on_date_change tz v vault taskId start_ end_ !! filePath t = Some fm'
            ∧ ∀ key,
                fm' !! key
                = if bool_decide
                       (writtenName (endProperty (getTaskMapperConfig v)) = Some key)
                  then Some (FMText (formatDateForGantt tz end_))
                  else if bool_decide
                            (writtenName (startProperty (getTaskMapperConfig v))
                             = Some key)
                  then Some (FMText (formatDateForGantt tz start_))
                  else fm !! key.
Proof.
  unfold on_date_change. change GROUP_HEADER_PREFIX with "__group__"%string.
  split.
  - intros [-> | H]; [reflexivity|]. rewrite H.
    now destruct (startsWith "__group__" taskId).
  - intros t -> ->. unfold writeFrontmatter. split; [|split].
    + intros path Hne. destruct (vault !! filePath t); [|reflexivity].
      now rewrite lookup_insert_ne.
    + intros ->. reflexivity.
    + intros fm ->. eexists. split; [apply lookup_insert_eq|].
      intros key. apply date_updates_lookup.
Qed.

(** X6. A click on the cell of a day, in a zone whose offset [tz] from
    UTC does not change.  With a start property set and a date string
    that names a day of the calendar, year 1000 or later, the callback
    for the new note sets the start field, and the end field when an
    end property is set, to that very string, and leaves every other
    field of the frontmatter alone.  (A zone that skips the local
    midnight of that day is outside this statement.) *)
Theorem createTaskAtDate_sets_clicked_day tz host v dateStr y m d :
  isSet (startProperty (getTaskMapperConfig v)) = true ->
  calendarDate dateStr = Some (y, m, d) -> 1000 <= y ->
  ∃ fill, createTaskAtDate tz host v dateStr = Some fill
    ∧ ∀ fm key,
        fill fm !! key
        = if bool_decide (writtenName (endProperty (getTaskMapperConfig v)) = Some key)
            || bool_decide (writtenName (startProperty (getTaskMapperConfig v))
                            = Some key)
          then Some (FMText dateStr) else fm !! key.
Proof.
  intros Hs Hc Hy. unfold createTaskAtDate.
  destruct (format_parse_roundtrip tz host _ _ _ _ Hc Hy) as (dt & -> & _ & Hf).
  unfold isSet in Hs. unfold writtenName.
  destruct (startProperty (getTaskMapperConfig v)) as [sp|]; [|discriminate].
  rewrite Hs. eexists. split; [reflexivity|].
  intros fm key. cbv beta zeta. unfold formatDateForFrontmatter. cbn [negb].
  rewrite Hf.
  destruct (endProperty (getTaskMapperConfig v)) as [ep|];
    [destruct (truthy ep)|];
    repeat case_bool_decide; simplify_eq; cbn [orb];
    rewrite ?lookup_insert_eq; try reflexivity;
    rewrite ?lookup_insert_ne by congruence; rewrite ?lookup_insert_eq;
    try reflexivity; try congruence.
  match goal with H : _ = _ |- _ => rewrite H end. apply lookup_insert_eq.
Qed.

Lemma createTaskAtDate_sets_clicked_day_witness :
  isSet (startProperty (getTaskMapperConfig sampleView)) = true
  ∧ calendarDate "2026-03-15" = Some (2026, 3, 15)
  ∧ ∃ fill, createTaskAtDate 0 noHost sampleView "2026-03-15" = Some fill
      ∧ ∀ fm key,
          fill fm !! key
          = if bool_decide
                 (writtenName (endProperty (getTaskMapperConfig sampleView)) = Some key)
               || bool_decide
                    (writtenName (startProperty (getTaskMapperConfig sampleView))
                     = Some key)
            then Some (FMText "2026-03-15") else fm !! key.
Proof.
  split; [reflexivity|]. split; [reflexivity|].
  apply (createTaskAtDate_sets_clicked_day 0 noHost sampleView "2026-03-15" 2026 3 15);
    [reflexivity | reflexivity | lia].
Defined.

End EditDates.

(** * Dependencies come first *)

Module Topological.
Import JSString TaskMapper Aux AuxRest.

Section Acyclic.
Variable tasks : list GanttTask.
Variable rank : string -> nat.
Hypothesis distinct : NoDup (id <$> tasks).
Hypothesis acyclic :
  Forall (fun t => Forall (fun d => (rank d < rank (id t))%nat)
                          (depSetWithin tasks t)) tasks.

Local Abbreviation deps := (depSetWithin tasks).

Lemma least_rank (l : list GanttTask) :
  l ≠ [] -> ∃ t, t ∈ l ∧ ∀ u, u ∈ l -> (rank (id t) <= rank (id u))%nat.
Proof.
  induction l as [|a l IH]; [congruence|]. intros _.
  destruct l as [|b l].
  - exists a. split; [left|]. intros u Hu.
    apply list_elem_of_singleton in Hu as ->. lia.
  - destruct IH as (t & Ht & Hmin); [congruence|].
    destruct (le_lt_dec (rank (id a)) (rank (id t))) as [Hle|Hlt].
    + exists a. split; [left|]. intros u Hu.
      apply elem_of_cons in Hu as [->|Hu]; [lia|]. specialize (Hmin u Hu). lia.
    + exists t. split; [now right|]. intros u Hu.
      apply elem_of_cons in Hu as [->|Hu]; [lia|]. now apply Hmin.
Qed.

Lemma deps_known t d : d ∈ deps t -> d ∈ id <$> tasks.
Proof.
  unfold depSetWithin. intros Hd.
  pose proof (list_elem_of_filter (fun d => d ∈ id <$> tasks) (depSet t) d) as Hf.
  tauto.
Qed.

(** While tasks remain, one of them has all its dependencies placed. *)
Lemma some_task_ready sorted remaining :
  remaining ≠ [] ->
  (∀ t, t ∈ remaining -> t ∈ tasks) ->
  (∀ d, d ∈ id <$> tasks -> d ∈ id <$> sorted ∨ d ∈ id <$> remaining) ->
  ∃ t, t ∈ filter (allPlaced deps sorted) remaining.
Proof.
  intros Hne Hsub Hcov.
  destruct (least_rank remaining Hne) as (t & Ht & Hmin).
  exists t.
  pose proof (list_elem_of_filter (allPlaced deps sorted) remaining t) as Hf.
  apply Hf. split; [|exact Ht].
  unfold allPlaced. apply Forall_forall. intros d Hd.
  pose proof (proj1 (Forall_forall _ _) acyclic t (Hsub t Ht)) as Hr.
  pose proof (proj1 (Forall_forall _ _) Hr d Hd) as Hlt.
  destruct (Hcov d (deps_known t d Hd)) as [Hs|Hrem]; [exact Hs|].
  apply list_elem_of_fmap in Hrem as (u & -> & Hu).
  specialize (Hmin u Hu). lia.
Qed.

Lemma dependenciesFirst_app sorted batch :
  dependenciesFirst deps sorted ->
  (∀ t, t ∈ batch -> allPlaced deps sorted t) ->
  dependenciesFirst deps (sorted ++ batch).
Proof.
  intros Hs Hb pre t post E d Hd.
  symmetry in E. apply List.app_eq_app in E as [l [[-> E]|[E1 E2]]].
  - assert (Ht : t ∈ batch) by (rewrite E; apply elem_of_app; right; left).
    rewrite fmap_app, elem_of_app. left.
    exact (proj1 (Forall_forall _ _) (Hb t Ht) d Hd).
  - destruct l as [|x l].
    + cbn in E2. rewrite app_nil_r in E1. subst sorted.
      assert (Ht : t ∈ batch) by (rewrite <- E2; left).
      exact (proj1 (Forall_forall _ _) (Hb t Ht) d Hd).
    + cbn in E2. injection E2 as -> _.
      exact (Hs pre x l E1 d Hd).
Qed.

Lemma specLoop_dependenciesFirst fuel :
  ∀ sorted remaining,
    (length remaining <= fuel)%nat ->
    (∀ t, t ∈ remaining -> t ∈ tasks) ->
    (∀ d, d ∈ id <$> tasks -> d ∈ id <$> sorted ∨ d ∈ id <$> remaining) ->
    dependenciesFirst deps sorted ->
    dependenciesFirst deps (specLoop fuel deps sorted remaining).
Proof.
  induction fuel as [|fuel IH]; intros sorted remaining Hlen Hsub Hcov Hs.
  - destruct remaining; [exact Hs | cbn in Hlen; lia].
  - destruct remaining as [|t r]; [exact Hs|].
    cbn [specLoop].
    destruct (some_task_ready sorted (t :: r)) as (t1 & Ht1); [congruence|auto|auto|].
    destruct (filter (allPlaced deps sorted) (t :: r)) as [|t0 ready0] eqn:E.
    { now apply elem_of_nil in Ht1. }
    rewrite <- E in *. clear E t0 ready0.
    pose proof (list_elem_of_filter (allPlaced deps sorted) (t :: r)) as Hf.
    apply IH.
    + apply Hf in Ht1 as [Ha Hin].
      assert ((length (filter (fun t1 => ¬ allPlaced deps sorted t1) (t :: r))
               < length (t :: r))%nat)
        by (eapply length_filter_lt; [exact Hin | tauto]).
      cbn [length] in *. lia.
    + intros x Hx. apply list_elem_of_filter in Hx as [_ Hx]. now apply Hsub.
    + intros d Hd. destruct (Hcov d Hd) as [Hin|Hin].
      * left. rewrite fmap_app, elem_of_app. now left.
      * apply list_elem_of_fmap in Hin as (u & -> & Hu).
        destruct (decide (allPlaced deps sorted u)) as [Ha|Ha].
        -- left. rewrite fmap_app, elem_of_app. right.
           apply list_elem_of_fmap_2. rewrite sortByStart_perm.
           apply Hf. auto.
        -- right. apply list_elem_of_fmap_2, list_elem_of_filter. auto.
    + apply dependenciesFirst_app; [exact Hs|].
      intros x Hx. rewrite sortByStart_perm in Hx. now apply Hf in Hx as [Hx _].
Qed.

(** X7. Tasks with distinct ids whose dependencies are acyclic (some
    rank is smaller on every dependency than on the task that names
    it) come out with every dependency above its dependent: the output
    holds each task once, and each id written in the dependencies of
    a task that names a task of the input is the id of a task earlier
    in the output. *)
Theorem sortByDependencies_dependencies_first :
  ∃ out, sortByDependencies tasks = Some out
    ∧ out ≡ₚ tasks
    ∧ ∀ pre t post, out = pre ++ t :: post ->
        ∀ d, d ∈ depSet t -> d ∈ id <$> tasks -> d ∈ id <$> pre.
Proof.
  exists (specSort deps tasks).
  split; [now apply sortByDependencies_refines|]. split.
  - unfold specSort. rewrite specLoop_perm by lia. reflexivity.
  - intros pre t post E d Hd Hk.
    assert (H : dependenciesFirst deps (specSort deps tasks)).
    { apply specLoop_dependenciesFirst; auto.
      intros x t' y Ex. now destruct x. }
    apply (H pre t post E d).
    unfold depSetWithin. apply list_elem_of_filter. auto.
Qed.
End Acyclic.

(** The chain [C] after [B] after [A]: the start dates alone would give
    [C], [B], [A]. *)
Lemma sortByDependencies_dependencies_first_witness :
  NoDup (id <$> chain)
  ∧ Forall (fun t => Forall (fun d => (chainRank d < chainRank (id t))%nat)
                            (depSetWithin chain t)) chain
  ∧ ∃ out, sortByDependencies chain = Some out
      ∧ out ≡ₚ chain
      ∧ ∀ pre t post, out = pre ++ t :: post ->
          ∀ d, d ∈ depSet t -> d ∈ id <$> chain -> d ∈ id <$> pre.
Proof.
  assert (Hd : NoDup (id <$> chain))
    by (apply (bool_decide_unpack _); vm_compute; exact I).
  assert (Ha : Forall (fun t => Forall (fun d => (chainRank d < chainRank (id t))%nat)
                                       (depSetWithin chain t)) chain)
    by (apply (bool_decide_unpack _); vm_compute; exact I).
  split; [exact Hd|]. split; [exact Ha|].
  exact (sortByDependencies_dependencies_first chain chainRank Hd Ha).
Defined.

Section Fallback.
Variable tasks : list GanttTask.
Hypothesis distinct : NoDup (id <$> tasks).

Local Abbreviation deps := (depSetWithin tasks).

(** The loop stops with the tasks it could place, dependencies first,
    followed by the tasks it could not, each of them waiting for a
    task that is not placed. *)
Lemma specLoop_shape fuel :
  ∀ sorted remaining,
    (length remaining <= fuel)%nat ->
    dependenciesFirst deps sorted ->
    ∃ placed rest,
      specLoop fuel deps sorted remaining = placed ++ sortByStart rest
      ∧ dependenciesFirst deps placed
      ∧ ∀ t, t ∈ rest -> t ∈ remaining ∧ ¬ allPlaced deps placed t.
Proof.
  induction fuel as [|fuel IH]; intros sorted remaining Hlen Hs.
  - destruct remaining; [|cbn in Hlen; lia].
    exists sorted, []. cbn. rewrite app_nil_r. split; [reflexivity|].
    split; [exact Hs|]. intros t Ht. now apply elem_of_nil in Ht.
  - destruct remaining as [|t r].
    { exists sorted, []. cbn. rewrite app_nil_r. split; [reflexivity|].
      split; [exact Hs|]. intros x Hx. now apply elem_of_nil in Hx. }
    cbn [specLoop].
    destruct (filter (allPlaced deps sorted) (t :: r)) as [|t0 ready0] eqn:E.
    + exists sorted, (t :: r). split; [reflexivity|]. split; [exact Hs|].
      intros x Hx. split; [exact Hx|]. intros Ha.
      pose proof (list_elem_of_filter (allPlaced deps sorted) (t :: r) x) as Hf.
      rewrite E in Hf. apply (elem_of_nil x), Hf. auto.
    + assert (Ht0 : t0 ∈ filter (allPlaced deps sorted) (t :: r))
        by (rewrite E; left).
      rewrite <- E. clear E.
      pose proof (list_elem_of_filter (allPlaced deps sorted) (t :: r)) as Hf.
      destruct (IH (sorted ++ sortByStart (filter (allPlaced deps sorted) (t :: r)))
                   (filter (fun t1 => ¬ allPlaced deps sorted t1) (t :: r)))
        as (placed & rest & Hl & Hp & Hrest).
      * apply Hf in Ht0 as [Ha Hin].
        assert ((length (filter (fun t1 => ¬ allPlaced deps sorted t1) (t :: r))
                 < length (t :: r))%nat)
          by (eapply length_filter_lt; [exact Hin | tauto]).
        cbn [length] in *. lia.
      * apply dependenciesFirst_app; [exact Hs|].
        intros x Hx. rewrite sortByStart_perm in Hx. now apply Hf in Hx as [Hx _].
      * exists placed, rest. split; [exact Hl|]. split; [exact Hp|].
        intros x Hx. destruct (Hrest x Hx) as [Hin Hn]. split; [|exact Hn].
        now apply list_elem_of_filter in Hin as [_ Hin].
Qed.

(** X8. With or without cycles.  For tasks with distinct ids the
    sorter returns the tasks it could place, every dependency above
    its dependent, followed by the other tasks ordered by start date;
    each of these names, in its dependencies, a task of the input
    that is not among the placed ones (it is on a cycle or waits for
    one). *)
Theorem sortByDependencies_cycles_go_last :
  ∃ placed rest,
    sortByDependencies tasks = Some (placed ++ sortByStart rest)
    ∧ (∀ pre t post, placed = pre ++ t :: post ->
         ∀ d, d ∈ depSet t -> d ∈ id <$> tasks -> d ∈ id <$> pre)
    ∧ ∀ t, t ∈ rest ->
        t ∈ tasks
        ∧ ∃ d, d ∈ depSet t ∧ d ∈ id <$> tasks ∧ d ∉ id <$> placed.
Proof.
  rewrite (sortByDependencies_refines tasks distinct). unfold specSort.
  destruct (specLoop_shape (length tasks) [] tasks) as (placed & rest & -> & Hp & Hr).
  - lia.
  - intros x t' y Ex. now destruct x.
  - exists placed, rest. split; [reflexivity|]. split.
    + intros pre t post E d Hd Hk. apply (Hp pre t post E d).
      unfold depSetWithin. apply list_elem_of_filter. auto.
    + intros t Ht. destruct (Hr t Ht) as [Hin Hn]. split; [exact Hin|].
      apply not_Forall_Exists in Hn; [|intros x; apply _].
      apply Exists_exists in Hn as (d & Hd & Hnot).
      unfold depSetWithin in Hd. apply list_elem_of_filter in Hd as [Hk Hd].
      exists d. auto.
Qed.
End Fallback.

(** The cycle of [A] and [B] next to the free task [C]. *)
Lemma sortByDependencies_cycles_go_last_witness :
  NoDup (id <$> cycleAndFree)
  ∧ ∃ placed rest,
      sortByDependencies cycleAndFree = Some (placed ++ sortByStart rest)
      ∧ (∀ pre t post, placed = pre ++ t :: post ->
           ∀ d, d ∈ depSet t -> d ∈ id <$> cycleAndFree -> d ∈ id <$> pre)
      ∧ ∀ t, t ∈ rest ->
          t ∈ cycleAndFree
          ∧ ∃ d, d ∈ depSet t ∧ d ∈ id <$> cycleAndFree ∧ d ∉ id <$> placed.
Proof.
  assert (Hd : NoDup (id <$> cycleAndFree))
    by (apply (bool_decide_unpack _); vm_compute; exact I).
  split; [exact Hd|].
  exact (sortByDependencies_cycles_go_last cycleAndFree Hd).
Defined.

Example chain_is_reversed :
  fmap (M:=list) id <$> sortByDependencies chain
  = Some ["A"%string; "B"%string; "C"%string].
Proof. vm_compute. reflexivity. Qed.

End Topological.

(** * The name index and the colour classes *)

Module Indexes.
Import JSString JSDate DateUtils Obsidian TaskMapper Aux AuxRest.

(** X9. The index of names used for the links: a name resolves to the
    id of the last entry that has it as base name or as path without
    extension, and to nothing when no entry has. *)
Theorem buildNameToId_last_entry_wins entries k :
  buildNameToId entries !! k
  = (fun e => makeTaskId (path (file e)))
      <$> last (filter (fun e => basename (file e) = k
                                 ∨ stripExtension (path (file e)) = k) entries).
Proof.
  unfold buildNameToId.
  induction entries as [|e l IH] using rev_ind; [reflexivity|].
  rewrite foldl_snoc, filter_app, last_app.
  destruct (decide (basename (file e) = k ∨ stripExtension (path (file e)) = k))
    as [Hk|Hk].
  - rewrite filter_cons_True, filter_nil by exact Hk. cbn [last fmap option_fmap option_map].
    destruct (decide (stripExtension (path (file e)) = k)) as [->|Hne].
    + apply lookup_insert_eq.
    + destruct Hk as [<-|Hk]; [|contradiction].
      rewrite lookup_insert_ne by exact Hne. apply lookup_insert_eq.
  - rewrite filter_cons_False, filter_nil by exact Hk. cbn [last].
    rewrite !lookup_insert_ne by tauto. exact IH.
Qed.

Section Colours.
Variable cb : option BasesPropertyId.

Local Abbreviation step :=
  (fun (m : gmap string nat) (e : BasesEntry) =>
     match rawOf e cb with
     | Some raw =>
         match m !! raw with
         | None => <[raw := (size m mod COLOR_CLASS_COUNT)%nat]> m
         | Some _ => m
         end
     | None => m
     end).

Local Abbreviation values := (omap (fun e => rawOf e cb)).

Lemma colour_fold_dom l :
  ∀ m, dom (foldl step m l) = dom m ∪ list_to_set (values l).
Proof.
  induction l as [|e l IH]; intros m; cbn [foldl omap list_omap].
  - rewrite list_to_set_nil, union_empty_r_L. reflexivity.
  - rewrite IH. destruct (rawOf e cb) as [raw|]; [|reflexivity].
    rewrite list_to_set_cons, (assoc_L (∪)). f_equal.
    destruct (m !! raw) as [k|] eqn:E.
    + assert (Hin : raw ∈ dom m) by (apply elem_of_dom; eauto).
      apply singleton_subseteq_l in Hin.
      rewrite (comm_L (∪)). symmetry. now apply subseteq_union_1_L.
    + rewrite dom_insert_L. apply (comm_L (∪)).
Qed.

Lemma colour_fold_keep l :
  ∀ m v k, m !! v = Some k -> foldl step m l !! v = Some k.
Proof.
  induction l as [|e l IH]; intros m v k H; cbn [foldl]; [exact H|].
  apply IH. destruct (rawOf e cb) as [raw|]; [|exact H].
  destruct (m !! raw) eqn:E; [exact H|].
  rewrite lookup_insert_ne; [exact H|]. intros ->. congruence.
Qed.

Lemma colour_fold_bound l :
  ∀ m, (∀ v k, m !! v = Some k -> (k < 8)%nat) ->
       ∀ v k, foldl step m l !! v = Some k -> (k < 8)%nat.
Proof.
  induction l as [|e l IH]; intros m Hm; cbn [foldl]; [exact Hm|].
  apply IH. destruct (rawOf e cb) as [raw|]; [|exact Hm].
  destruct (m !! raw) eqn:E; [exact Hm|].
  intros v k. destruct (decide (v = raw)) as [->|Hne].
  - rewrite lookup_insert_eq. intros Hk. apply (inj Some) in Hk. rewrite <- Hk.
    apply Nat.mod_upper_bound. discriminate.
  - rewrite lookup_insert_ne by congruence. apply Hm.
Qed.
End Colours.

Lemma rawOf_isSet e p v : rawOf e p = Some v -> isSet p = true.
Proof.
  unfold rawOf, isSet. destruct p as [q|]; [|discriminate].
  now destruct (truthy q).
Qed.

Lemma buildColorValues_bound config entries v k :
  buildColorValues config entries !! v = Some k -> (k < 8)%nat.
Proof.
  unfold buildColorValues. destruct (isSet (colorByProperty config)).
  - apply colour_fold_bound. intros v' k'. rewrite lookup_empty. discriminate.
  - rewrite lookup_empty. discriminate.
Qed.

(** X10. The colour of a value is fixed by the first entry that has it:
    the number of different values met before that entry, modulo 8.  A
    value that no entry has gets no colour. *)
Theorem buildColorValues_first_seen config entries v :
  (∀ pre e post,
     entries = pre ++ e :: post ->
     rawOf e (colorByProperty config) = Some v ->
     Forall (fun e' => rawOf e' (colorByProperty config) ≠ Some v) pre ->
     buildColorValues config entries !! v
     = Some (size (list_to_set (C:=gset string)
                     (omap (fun e' => rawOf e' (colorByProperty config)) pre))
             mod 8)%nat)
  ∧ (Forall (fun e => rawOf e (colorByProperty config) ≠ Some v) entries ->
     buildColorValues config entries !! v = None).
Proof.
  split.
  - intros pre e post -> He Hpre. unfold buildColorValues.
    rewrite (rawOf_isSet _ _ _ He).
    rewrite foldl_app. cbn [foldl]. rewrite He.
    set (m1 := foldl _ ∅ pre).
    pose proof (colour_fold_dom (colorByProperty config) pre ∅) as Hdom.
    fold m1 in Hdom. rewrite dom_empty_L, union_empty_l_L in Hdom.
    assert (Hnone : m1 !! v = None).
    { apply not_elem_of_dom. rewrite Hdom, elem_of_list_to_set.
      intros (e' & He' & Hv)%list_elem_of_omap.
      exact (proj1 (Forall_forall _ _) Hpre e' He' Hv). }
    rewrite Hnone. apply colour_fold_keep.
    rewrite lookup_insert_eq. f_equal.
    rewrite <- Hdom, size_dom. reflexivity.
  - intros Hall. unfold buildColorValues.
    destruct (isSet (colorByProperty config)); [|apply lookup_empty].
    apply not_elem_of_dom. rewrite colour_fold_dom, dom_empty_L, union_empty_l_L.
    rewrite elem_of_list_to_set.
    intros (e' & He' & Hv)%list_elem_of_omap.
    exact (proj1 (Forall_forall _ _) Hall e' He' Hv).
Qed.

Lemma colour_class_no_space k :
  (k < 8)%nat -> " "%char ∉ chars ("gantt-color-" +:+ pretty k).
Proof.
  intros Hk.
  assert (Hc : (k = 0 \/ k = 1 \/ k = 2 \/ k = 3 \/ k = 4 \/ k = 5 \/ k = 6
                \/ k = 7)%nat) by lia.
  repeat (destruct Hc as [-> | Hc];
          [apply (bool_decide_unpack _); vm_compute; exact I|]).
  subst k. apply (bool_decide_unpack _). vm_compute. exact I.
Qed.

Section Host.
Variable tz : Z.
Variable host : string -> option Z.

Lemma mapEntry_custom_class nameToId colorValues config e t :
  mapEntry tz host nameToId colorValues config e = Some t ->
  custom_class t
  = if isMilestone t && negb (truthy (colorClassOf colorValues config e))
    then "gantt-milestone"%string else colorClassOf colorValues config e.
Proof.
  unfold mapEntry. destruct (parsedStart tz host config e) as [sd|]; [|discriminate].
  intros [= <-]. reflexivity.
Qed.

Lemma mapped_custom_class nameToId entries config e t :
  mapEntry tz host nameToId (buildColorValues config entries) config e = Some t ->
  (" "%char ∉ chars (custom_class t))
  ∧ (custom_class t = EmptyString
     ∨ (custom_class t = "gantt-milestone"%string ∧ isMilestone t = true)
     ∨ ∃ k, (k < 8)%nat ∧ custom_class t = "gantt-color-" +:+ pretty k).
Proof.
  intros Hmap. rewrite (mapEntry_custom_class _ _ _ _ _ Hmap).
  unfold colorClassOf.
  destruct (rawOf e (colorByProperty config)) as [raw|].
  - destruct (buildColorValues config entries !! raw) as [k|] eqn:Ek.
    + pose proof (buildColorValues_bound _ _ _ _ Ek) as Hk.
      change (truthy ("gantt-color-" +:+ pretty k)) with true.
      rewrite andb_false_r. split; [now apply colour_class_no_space|].
      right. right. eauto.
    + cbn [truthy negb]. rewrite andb_true_r.
      destruct (isMilestone t); [|split; [apply not_elem_of_nil | now left]].
      split; [apply (bool_decide_unpack _); vm_compute; exact I | right; left; auto].
  - cbn [truthy negb]. rewrite andb_true_r.
    destruct (isMilestone t); [|split; [apply not_elem_of_nil | now left]].
    split; [apply (bool_decide_unpack _); vm_compute; exact I | right; left; auto].
Qed.

(** No task made from an entry looks like a group header. *)
Lemma mapped_not_header nameToId entries config e t :
  mapEntry tz host nameToId (buildColorValues config entries) config e = Some t ->
  isHeaderRow t = false.
Proof.
  intros Hmap. unfold isHeaderRow.
  destruct (mapped_custom_class _ _ _ _ _ Hmap)
    as (_ & [-> | [[-> _] | (k & _ & ->)]]); reflexivity.
Qed.

(** X11. The class of every task is one word, as the chart needs it:
    empty, [gantt-milestone] (on a milestone only), or [gantt-color-]
    followed by a number from 0 to 7; it holds no space. *)
Theorem custom_class_is_one_word entries config :
  ∃ tasks, mapEntriesToTasks tz host entries config = Some tasks
    ∧ ∀ t, t ∈ tasks ->
        (" "%char ∉ chars (custom_class t))
        ∧ (custom_class t = EmptyString
           ∨ (custom_class t = "gantt-milestone"%string ∧ isMilestone t = true)
           ∨ ∃ k, (k < 8)%nat ∧ custom_class t = "gantt-color-" +:+ pretty k).
Proof.
  destruct (mapEntriesToTasks_returns tz host entries config)
    as (tasks & Hm & _ & Hall).
  exists tasks. split; [exact Hm|]. intros t Ht.
  destruct (Hall t Ht) as (e & He & Hmap).
  exact (mapped_custom_class _ _ _ _ _ Hmap).
Qed.
End Host.

End Indexes.

(** * The rows of the chart *)

Module ChartRows.
Import JSString Obsidian TaskMapper TaskMapperRest GanttView GanttViewRest Aux
  AuxRest Indexes.

Lemma filter_none {A} (f : A -> bool) l :
  Forall (fun x => f x = false) l -> List.filter f l = [].
Proof.
  induction 1 as [|x l Hx Hl IH]; [reflexivity|]. cbn [List.filter]. now rewrite Hx.
Qed.

Lemma filter_all {A} (f : A -> bool) l :
  Forall (fun x => f x = false) l -> List.filter (fun x => negb (f x)) l = l.
Proof.
  induction 1 as [|x l Hx Hl IH]; [reflexivity|]. cbn [List.filter].
  now rewrite Hx, IH.
Qed.

Section Host.
Variable tz : Z.
Variable host : string -> option Z.

Lemma mapped_rows_plain entries config :
  ∃ tasks, mapEntriesToTasks tz host entries config = Some tasks
           ∧ Forall (fun t => isHeaderRow t = false) tasks.
Proof.
  destruct (mapEntriesToTasks_returns tz host entries config)
    as (tasks & Hm & _ & Hall).
  exists tasks. split; [exact Hm|]. apply Forall_forall. intros t Ht.
  destruct (Hall t Ht) as (e & _ & Hmap).
  exact (mapped_not_header tz host _ _ _ _ _ Hmap).
Qed.

Lemma groupRows_total config groups :
  ∀ i, ∃ rows, groupRows tz host config i groups = Some rows.
Proof.
  induction groups as [|g rest IH]; intros i; cbn [groupRows]; [eauto|].
  destruct (mapped_rows_plain (entries g) config) as (gt & -> & _).
  destruct (IH (S i)) as (tail & ->). cbn [mbind option_bind].
  destruct gt as [|t gt]; [eauto|].
  destruct (createGroupHeaderTask _ _ _); eauto.
Qed.

(** X12. The rows of a grouped chart.  [onDataUpdated] maps every
    group; the rows that are not group headers are the tasks of the
    groups, group after group, each group in the order the mapper
    gives; and there is one header for each group that has a task. *)
Theorem groupRows_keeps_tasks config groups i :
  ∃ rows mapped,
    groupRows tz host config i groups = Some rows
    ∧ Forall2 (fun g gt => mapEntriesToTasks tz host (entries g) config = Some gt)
              groups mapped
    ∧ List.filter (fun t => negb (isHeaderRow t)) rows = concat mapped
    ∧ length (List.filter isHeaderRow rows)
      = length (List.filter (fun gt => (0 <? length gt)%nat) mapped).
Proof.
  revert i. induction groups as [|g rest IH]; intros i; cbn [groupRows].
  - exists [], []. repeat split. constructor.
  - destruct (mapped_rows_plain (entries g) config) as (gt & Hg & Hplain).
    rewrite Hg.
    destruct (IH (S i)) as (tail & mapped & -> & Hmapped & Hfilter & Hcount).
    cbn [mbind option_bind].
    destruct gt as [|t gt].
    + exists tail, ([] :: mapped). split; [reflexivity|].
      split; [now constructor|]. split; [exact Hfilter | exact Hcount].
    + cbn [createGroupHeaderTask].
      eexists _, ((t :: gt) :: mapped). split; [reflexivity|].
      split; [now constructor|]. split.
      * cbn [List.filter isHeaderRow custom_class negb]. cbn [String.eqb].
        change (negb (isHeaderRow
          {| id := GROUP_HEADER_PREFIX +:+ pretty i;
             name := from_option (fun k => k) "Ungrouped"%string (key g);
             start := (spanOf t (t :: gt)).1; end_ := (spanOf t (t :: gt)).2;
             progress := 0%Q; dependencies := EmptyString;
             custom_class := "gantt-group-header"; filePath := EmptyString;
             isMilestone := false |})) with false.
        cbn iota. rewrite List.filter_app, (filter_all _ _ Hplain), Hfilter.
        reflexivity.
      * cbn [List.filter].
        change (isHeaderRow
          {| id := GROUP_HEADER_PREFIX +:+ pretty i;
             name := from_option (fun k => k) "Ungrouped"%string (key g);
             start := (spanOf t (t :: gt)).1; end_ := (spanOf t (t :: gt)).2;
             progress := 0%Q; dependencies := EmptyString;
             custom_class := "gantt-group-header"; filePath := EmptyString;
             isMilestone := false |}) with true.
        cbn iota. rewrite List.filter_app, (filter_none _ _ Hplain), app_nil_l.
        cbn [length Nat.ltb Nat.leb]. now rewrite Hcount.
Qed.

(** X13. After [onDataUpdated], [findTask] answers from the rows just
    built: what it finds under an id is a row with that id, and it
    finds something under the id of every row.  Without grouping it
    finds every row itself, since the ids of the rows differ. *)
Theorem onDataUpdated_index v groups :
  ∃ tasks v',
    onDataUpdated tz host v groups = Some (tasks, v')
    ∧ (∀ i t, findTask v' i = Some t -> t ∈ tasks ∧ id t = i)
    ∧ (∀ t, t ∈ tasks -> is_Some (findTask v' (id t)))
    ∧ (hasGroups groups = false ->
       ∀ t, t ∈ tasks -> findTask v' (id t) = Some t).
Proof.
  unfold onDataUpdated, buildTasks.
  destruct (hasGroups groups) eqn:Hg.
  - destruct (groupRows_total (getTaskMapperConfig v) groups 0%nat) as (rows & ->).
    cbn [mbind option_bind]. eexists _, _. split; [reflexivity|].
    unfold findTask. cbn [taskMap].
    change (indexTasks rows) with (buildTaskMap rows).
    split; [intros i t; apply taskMap_lookup|].
    split; [|discriminate].
    intros t Ht. apply taskMap_known. now apply list_elem_of_fmap_2.
  - destruct (mapEntriesToTasks_returns tz host (data v) (getTaskMapperConfig v))
      as (tasks & -> & Hnd & _).
    cbn [mbind option_bind]. eexists _, _. split; [reflexivity|].
    unfold findTask. cbn [taskMap].
    change (indexTasks tasks) with (buildTaskMap tasks).
    split; [intros i t; apply taskMap_lookup|].
    split.
    + intros t Ht. apply taskMap_known. now apply list_elem_of_fmap_2.
    + intros _ t Ht. now apply taskMap_own.
Qed.
End Host.

End ChartRows.

(** * Links in the dependencies field *)

Module Links.
Import JSString JSNumber Obsidian TaskMapper Aux AuxRest Escaping.

Lemma spanChars_run f t rest :
  Forall (fun c => f c = true) (chars t) ->
  match rest with String c _ => f c = false | EmptyString => True end ->
  spanChars f (t +:+ rest) = (t, rest).
Proof.
  intros Ht Hr. induction t as [|a t IH].
  - destruct rest as [|c r]; [reflexivity|]. cbn [String.append spanChars].
    change (EmptyString +:+ String c r) with (String c r). cbn [spanChars].
    now rewrite Hr.
  - rewrite append_cons. cbn [spanChars].
    unfold chars in Ht. cbn [list_ascii_of_string] in Ht.
    apply Forall_cons in Ht as [Ha Ht]. rewrite Ha, (IH Ht). reflexivity.
Qed.

(** A link at the head of the text is matched whole. *)
Lemma matchWikiLinkHere_link target rest :
  linkTarget target ->
  matchWikiLinkHere (wikiLink target +:+ rest) = Some (target, rest).
Proof.
  intros [Hne Hch]. unfold wikiLink, matchWikiLinkHere.
  rewrite !append_assoc.
  change ("[[" +:+ target +:+ "]]" +:+ rest)
    with (String "[" (String "[" (target +:+ String "]" (String "]" rest)))).
  cbn [stripPrefix2]. change (isChar "[" "[" && isChar "[" "[") with true. cbn iota.
  rewrite spanChars_run.
  - destruct target; [congruence|]. cbn [truthy negb stripPrefix2].
    change (isChar "]" "]" && isChar "]" "]") with true. reflexivity.
  - eapply Forall_impl; [exact Hch|]. intros c [H1 H2]. unfold isChar.
    apply Ascii.eqb_neq in H1, H2. now rewrite H1, H2.
  - reflexivity.
Qed.

Lemma length_append a b :
  String.length (a +:+ b) = (String.length a + String.length b)%nat.
Proof.
  induction a as [|x a IH]; [reflexivity|]. rewrite append_cons. cbn [String.length].
  now rewrite IH.
Qed.

Lemma execAll_S fuel s :
  execAll (S fuel) s
  = match matchWikiLinkHere s with
    | Some (target, rest) => target :: execAll fuel rest
    | None => match s with
              | EmptyString => []
              | String _ r => execAll fuel r
              end
    end.
Proof. reflexivity. Qed.

Lemma wikiLinkTargets_link target rest :
  linkTarget target ->
  wikiLinkTargets (wikiLink target +:+ rest) = target :: wikiLinkTargets rest.
Proof.
  intros Ht. unfold wikiLinkTargets.
  rewrite (execAll_S (String.length (wikiLink target +:+ rest))).
  rewrite (matchWikiLinkHere_link _ _ Ht). f_equal.
  assert (String.length rest < String.length (wikiLink target +:+ rest))%nat.
  { rewrite length_append. unfold wikiLink. rewrite length_append.
    cbn [String.length]. lia. }
  apply execAll_enough; lia.
Qed.

Lemma wikiLinkTargets_skip c s :
  matchWikiLinkHere (String c s) = None ->
  wikiLinkTargets (String c s) = wikiLinkTargets s.
Proof.
  intros H. unfold wikiLinkTargets.
  rewrite (execAll_S (String.length (String c s))), H.
  cbn [String.length]. apply execAll_enough; lia.
Qed.

(** X14. A list of links is read back as written: for targets that are
    not empty and hold neither [|] nor a closing bracket, the links
    [[[target]]] joined by a comma and a space give these targets, in
    order. *)
Theorem wikiLinkTargets_reads_links targets :
  Forall linkTarget targets ->
  wikiLinkTargets (join ", " (wikiLink <$> targets)) = targets.
Proof.
  induction 1 as [|t r Ht Hr IH]; [reflexivity|].
  rewrite fmap_cons. destruct r as [|t' r'].
  - cbn [fmap list_fmap join].
    replace (wikiLink t) with (wikiLink t +:+ EmptyString).
    + now rewrite wikiLinkTargets_link.
    + clear. induction (wikiLink t) as [|a s IH]; [reflexivity|].
      rewrite append_cons. now rewrite IH.
  - rewrite fmap_cons in *. cbn [join]. cbn [join] in IH.
    rewrite (wikiLinkTargets_link _ _ Ht). f_equal.
    change (", " +:+ ?x) with (String "," (String " " x)).
    rewrite wikiLinkTargets_skip by reflexivity.
    rewrite wikiLinkTargets_skip; [exact IH|].
    unfold matchWikiLinkHere.
    destruct r'; cbn [join fmap list_fmap]; unfold wikiLink; reflexivity.
Qed.

Lemma wikiLinkTargets_reads_links_witness :
  Forall linkTarget ["Research"%string; "plans/Design notes"%string]
  ∧ wikiLinkTargets "[[Research]], [[plans/Design notes]]"
    = ["Research"%string; "plans/Design notes"%string].
Proof.
  assert (H : Forall linkTarget ["Research"%string; "plans/Design notes"%string]).
  { repeat constructor; try discriminate. }
  split; [exact H|].
  exact (wikiLinkTargets_reads_links _ H).
Defined.

End Links.

(** * Resolved dependencies, date-times with a space, ids and names *)

Module Resolution.
Import JSString JSDate JSNumber DateUtils Obsidian TaskMapper GanttView Aux AuxRest
  WriteBackDates.

Lemma nameToId_values entries :
  ∀ k i, buildNameToId entries !! k = Some i ->
         ∃ e, e ∈ entries ∧ i = makeTaskId (path (file e)).
Proof.
  unfold buildNameToId.
  induction entries as [|e l IH] using rev_ind; intros k i.
  - cbn. rewrite lookup_empty. discriminate.
  - rewrite foldl_snoc.
    destruct (decide (stripExtension (path (file e)) = k)) as [->|N1].
    { rewrite lookup_insert_eq. intros [= <-]. exists e.
      split; [apply elem_of_app; right; left | reflexivity]. }
    rewrite lookup_insert_ne by exact N1.
    destruct (decide (basename (file e) = k)) as [->|N2].
    { rewrite lookup_insert_eq. intros [= <-]. exists e.
      split; [apply elem_of_app; right; left | reflexivity]. }
    rewrite lookup_insert_ne by exact N2. intros H.
    destruct (IH k i H) as (e' & He' & ->). exists e'.
    split; [apply elem_of_app; now left | reflexivity].
Qed.

Section Host.
Variable tz : Z.
Variable host : string -> option Z.

(** X15. The dependencies of a task are ids of entries of the input:
    the field is a list of ids joined by a comma and a space, and each
    of them is [makeTaskId] of the path of an entry. *)
Theorem dependencies_name_entries entries config :
  ∃ tasks, mapEntriesToTasks tz host entries config = Some tasks
    ∧ ∀ t, t ∈ tasks ->
        ∃ ids, dependencies t = join ", " ids
          ∧ Forall (fun d => ∃ e, e ∈ entries ∧ d = makeTaskId (path (file e))) ids.
Proof.
  destruct (mapEntriesToTasks_returns tz host entries config)
    as (tasks & Hm & _ & Hall).
  exists tasks. split; [exact Hm|]. intros t Ht.
  destruct (Hall t Ht) as (e & He & Hmap).
  destruct (mapEntry_fields tz host _ _ _ _ _ Hmap)
    as (sd & _ & _ & _ & _ & _ & -> & _).
  unfold dependenciesOf.
  destruct (rawOf e (dependenciesProperty config)) as [depStr|];
    [|exists []; split; [reflexivity | constructor]].
  eexists. split; [reflexivity|].
  assert (Hres : ∀ n, Forall (fun d => ∃ e, e ∈ entries
                                          ∧ d = makeTaskId (path (file e)))
                        (resolveName (buildNameToId entries) n)).
  { intros n. apply Forall_forall. intros d Hd.
    apply resolveName_elem in Hd as [Hd _]. exact (nameToId_values _ _ _ Hd). }
  assert (Hbind : ∀ (f : string -> string) l,
             Forall (fun d => ∃ e, e ∈ entries ∧ d = makeTaskId (path (file e)))
                    (l ≫= (fun t => resolveName (buildNameToId entries) (f t)))).
  { intros f l. induction l as [|x l IH]; [constructor|].
    cbn. apply Forall_app. split; [apply Hres | exact IH]. }
  unfold resolveDependencies.
  destruct ((length _ =? 0)%nat && _).
  - apply Forall_app. split; [apply Hbind|]. apply (Hbind (fun t => t)).
  - apply Hbind.
Qed.

End Host.


(** X17. An id has no space; it is as long as the path; a path without
    a space is its own id; and making an id of an id changes nothing. *)
Theorem makeTaskId_no_space filePath :
  (" "%char ∉ chars (makeTaskId filePath))
  ∧ String.length (makeTaskId filePath) = String.length filePath
  ∧ (" "%char ∉ chars filePath -> makeTaskId filePath = filePath)
  ∧ makeTaskId (makeTaskId filePath) = makeTaskId filePath.
Proof.
  unfold makeTaskId, chars.
  induction filePath as [|a p (IH1 & IH2 & IH3 & IH4)].
  - split; [apply not_elem_of_nil|]. split; [reflexivity|].
    split; [intros _; reflexivity | reflexivity].
  - cbn [mapChars list_ascii_of_string String.length].
    split; [|split; [|split]].
    + intros [E|Hin]%elem_of_cons; [|now apply IH1].
      destruct (Ascii.eqb_spec a " "); [discriminate E | congruence].
    + now rewrite IH2.
    + intros Hn. rewrite not_elem_of_cons in Hn. destruct Hn as [Ha Hp].
      rewrite (IH3 Hp). destruct (Ascii.eqb_spec a " "); [congruence | reflexivity].
    + rewrite IH4. f_equal.
      destruct (Ascii.eqb_spec a " ") as [->|Hne]; [reflexivity|].
      now apply Ascii.eqb_neq in Hne as ->.
Qed.

Lemma includes_dot_chars s : includes "." s = false ↔ "."%char ∉ chars s.
Proof.
  unfold chars. induction s as [|a s IH].
  - split; [intros _; apply not_elem_of_nil | reflexivity].
  - cbn [includes startsWith list_ascii_of_string].
    rewrite not_elem_of_cons, <- IH.
    destruct (Ascii.eqb_spec "."%char a) as [<-|Hne]; cbn [orb].
    + split; [discriminate | intros [[] _]; reflexivity].
    + split; [now intros -> | now intros [_ ->]].
Qed.

(** X18. The path without its extension: a last dot with something
    after it is cut off with what follows, and a path without a dot
    stays as it is. *)
Theorem stripExtension_cuts_last_dot stem ext :
  (ext ≠ EmptyString -> "."%char ∉ chars ext ->
   stripExtension (stem +:+ "." +:+ ext) = stem)
  ∧ ("."%char ∉ chars stem -> stripExtension stem = stem).
Proof.
  split.
  - intros Hne Hdot. apply includes_dot_chars in Hdot.
    induction stem as [|a p IH].
    + change (EmptyString +:+ "." +:+ ext) with (String "." ext).
      cbn [stripExtension]. rewrite Hdot.
      destruct ext; [congruence | reflexivity].
    + change (String a p +:+ "." +:+ ext) with (String a (p +:+ "." +:+ ext)).
      cbn [stripExtension]. rewrite IH.
      assert (Hin : includes "." (p +:+ "." +:+ ext) = true).
      { clear. induction p as [|b p IHp].
        - reflexivity.
        - change (String b p +:+ "." +:+ ext) with (String b (p +:+ "." +:+ ext)).
          cbn [includes]. rewrite IHp. apply orb_true_r. }
      rewrite Hin. cbn [negb]. rewrite andb_false_r. reflexivity.
  - intros Hdot. induction stem as [|a p IH]; [reflexivity|].
    unfold chars in *. cbn [list_ascii_of_string] in Hdot.
    rewrite not_elem_of_cons in Hdot. destruct Hdot as [Ha Hp].
    cbn [stripExtension]. rewrite (IH Hp).
    destruct (Ascii.eqb_spec a "."); [congruence | reflexivity].
Qed.

(** X19. The frontmatter key of a property: what follows the first dot
    of the property id, or the whole id when it has no dot. *)
Theorem extractPropertyName_after_first_dot kind name :
  ("."%char ∉ chars kind ->
   extractPropertyName (kind +:+ "." +:+ name) = name)
  ∧ ("."%char ∉ chars name -> extractPropertyName name = name).
Proof.
  unfold extractPropertyName, chars. split.
  - intros Hdot.
    assert (H : afterFirst "." (kind +:+ "." +:+ name) = Some name).
    { induction kind as [|a p IH]; [reflexivity|].
      cbn [list_ascii_of_string] in Hdot.
      rewrite not_elem_of_cons in Hdot. destruct Hdot as [Ha Hp].
      change (String a p +:+ "." +:+ name) with (String a (p +:+ "." +:+ name)).
      cbn [afterFirst]. destruct (Ascii.eqb_spec a "."); [congruence | auto]. }
    now rewrite H.
  - intros Hdot.
    assert (H : afterFirst "." name = None).
    { induction name as [|a p IH]; [reflexivity|].
      cbn [list_ascii_of_string] in Hdot.
      rewrite not_elem_of_cons in Hdot. destruct Hdot as [Ha Hp].
      cbn [afterFirst]. destruct (Ascii.eqb_spec a "."); [congruence | auto]. }
    now rewrite H.
Qed.

End Resolution.

(** * Which entries get a row, and blank dates *)

Module Coverage.
Import JSString JSDate DateUtils Obsidian TaskMapper GanttView GanttViewRest Aux
  AuxRest.

Section Host.
Variable tz : Z.
Variable host : string -> option Z.

(** X20. Which ids are on the chart.  With a start property set, an
    id is the id of a returned task exactly when it is [makeTaskId] of
    the path of an entry whose start date parses; with none set the
    mapper returns no task. *)
Theorem mapEntriesToTasks_covers_parsed_entries entries config :
  ∃ tasks, mapEntriesToTasks tz host entries config = Some tasks
    ∧ (isSet (startProperty config) = true ->
       ∀ i, i ∈ id <$> tasks
            ↔ ∃ e, e ∈ entries ∧ is_Some (parsedStart tz host config e)
                   ∧ i = makeTaskId (path (file e)))
    ∧ (isSet (startProperty config) = false -> tasks = []).
Proof.
  unfold mapEntriesToTasks. destruct (isSet (startProperty config)); cbn [negb].
  - destruct (sortByDependencies_returns (mapAll tz host entries config))
      as (out & Hs & _ & Hsub & Hids).
    exists out. split; [exact Hs|]. split; [|discriminate].
    intros _ i. split.
    + intros (t & -> & Ht)%list_elem_of_fmap. apply Hsub in Ht. unfold mapAll in Ht.
      apply list_elem_of_omap in Ht as (e & He & Hmap).
      exists e. split; [exact He|]. split.
      * apply (mapEntry_is_Some tz host (buildNameToId entries)
                 (buildColorValues config entries) config e). eauto.
      * now destruct (mapEntry_fields tz host _ _ _ _ _ Hmap) as (sd & _ & Hid & _).
    + intros (e & He & Hp & ->).
      apply (mapEntry_is_Some tz host (buildNameToId entries)
               (buildColorValues config entries) config e) in Hp as [t Hmap].
      apply Hids, list_elem_of_fmap. exists t. split.
      * now destruct (mapEntry_fields tz host _ _ _ _ _ Hmap) as (sd & _ & Hid & _).
      * unfold mapAll. apply list_elem_of_omap. eauto.
  - exists []. split; [reflexivity|]. split; [discriminate | reflexivity].
Qed.

Lemma trimStart_blank s :
  Forall (fun c => isWhiteSpace c = true) (chars s) -> trimStart s = EmptyString.
Proof.
  unfold chars. induction s as [|a s IH]; [reflexivity|].
  cbn [list_ascii_of_string trimStart]. intros [Ha Hs]%Forall_cons.
  rewrite Ha. exact (IH Hs).
Qed.

(** X21. A string of white space only, the empty string among them,
    is no date: [parseObsidianDate] returns null without asking the
    host. *)
Theorem parseObsidianDate_blank s :
  Forall (fun c => isWhiteSpace c = true) (chars s) ->
  parseObsidianDate tz host (UString s) = None.
Proof.
  intros H. unfold parseObsidianDate, trim. rewrite (trimStart_blank s H).
  reflexivity.
Qed.
End Host.

Lemma parseObsidianDate_blank_witness :
  Forall (fun c => isWhiteSpace c = true) (chars "   ")
  ∧ parseObsidianDate 0 (fun _ => Some 0) (UString "   ") = None.
Proof.
  assert (H : Forall (fun c => isWhiteSpace c = true) (chars "   "))
    by (repeat constructor).
  split; [exact H|]. exact (parseObsidianDate_blank 0 (fun _ => Some 0) _ H).
Defined.

(** Some paths and property ids. *)
Example names_of_files_and_properties :
  stripExtension "projects/Task A.md" = "projects/Task A"%string
  ∧ stripExtension "notes/v1.2/plan.md" = "notes/v1.2/plan"%string
  ∧ stripExtension "README" = "README"%string
  ∧ stripExtension "trailing." = "trailing."%string
  ∧ makeTaskId "projects/Task A.md" = "projects/Task_A.md"%string
  ∧ extractPropertyName "note.start-date" = "start-date"%string
  ∧ extractPropertyName "file.name.ext" = "name.ext"%string
  ∧ escapeHtml "a < b & c" = "a &lt; b &amp; c"%string.
Proof. repeat split; reflexivity. Qed.

End Coverage.

(** * The menus: a task for today, a progress preset *)

Module Menus.
Import JSString JSDate DateUtils DateUtilsRest Obsidian TaskMapper TaskMapperRest
  GanttView GanttViewRest Aux AuxRest WriteBackDates.


(** X23. The task menu.  It is never opened for a group header or an
    unknown bar.  A click on one of its progress entries can change
    the file of the task only; if that file does not exist the vault is
    as before; otherwise the field of the progress property, when one
    is set, gets the chosen percentage and every other field stays. *)
Theorem setProgressFromMenu_frame v (vault : Vault) dataId task pct :
  (contextMenuTask v dataId = Some task ->
   startsWith "__group__" (id task) = false
   ∧ ∃ taskId, dataId = Some taskId ∧ findTask v taskId = Some task)
  ∧ (∀ path, path ≠ filePath task ->
             setProgressFromMenu v vault task pct !! path = vault !! path)
  ∧ (vault !! filePath task = None -> setProgressFromMenu v vault task pct = vault)
  ∧ ∀ fm, vault !! filePath task = Some fm ->
      ∃ fm', setProgressFromMenu v vault task pct !! filePath task = Some fm'
        ∧ ∀ key,
            fm' !! key
            = if bool_decide
                   (writtenName (progressProperty (getTaskMapperConfig v)) = Some key)
              then Some (FMNumber pct) else fm !! key.
Proof.
  split.
  { unfold contextMenuTask. change GROUP_HEADER_PREFIX with "__group__"%string.
    destruct dataId as [taskId|]; [|discriminate].
    destruct (truthy taskId); [|discriminate].
    destruct (findTask v taskId) as [t|] eqn:Ef; [|discriminate].
    destruct (startsWith "__group__" (id t)) eqn:Es; [discriminate|].
    intros [= <-]. split; [exact Es|]. eauto. }
  unfold setProgressFromMenu, writtenName.
  destruct (progressProperty (getTaskMapperConfig v)) as [prop|];
    [destruct (truthy prop)|].
  - rewrite writeFrontmatter_one. split; [|split].
    + intros path Hne. destruct (vault !! filePath task); [|reflexivity].
      now rewrite lookup_insert_ne.
    + intros ->. reflexivity.
    + intros fm ->. eexists. split; [apply lookup_insert_eq|].
      intros key. case_bool_decide; simplify_eq.
      * apply lookup_insert_eq.
      * rewrite lookup_insert_ne by congruence. reflexivity.
  - split; [reflexivity|]. split; [reflexivity|].
    intros fm Hfm. exists fm. split; [exact Hfm|]. intros key.
    case_bool_decide; [discriminate | reflexivity].
  - split; [reflexivity|]. split; [reflexivity|].
    intros fm Hfm. exists fm. split; [exact Hfm|]. intros key.
    case_bool_decide; [discriminate | reflexivity].
Qed.

Example menu_on_sample :
  contextMenuTask sampleView (Some "Design.md"%string)
  = Some (task "Design.md" "2026-03-15" "")
  ∧ contextMenuTask sampleView (Some "__group__0"%string) = None
  ∧ contextMenuTask sampleView None = None
  ∧ progressPresets sampleView = [0; 25; 50; 75; 100]
  ∧ (createTaskAtToday 3600000 sampleView 1773576645123
       ≫= (fun fill => fill ∅ !! "start"%string))
    = Some (FMText "2026-03-15")
  ∧ setProgressFromMenu sampleView sampleVault (task "Design.md" "2026-03-15" "") 75
      !! "Design.md"%string ≫= (.!! "progress"%string) = Some (FMNumber 75).
Proof. vm_compute. repeat split; reflexivity. Qed.

End Menus.
